(** * store_backend: inventory ledger, sale transaction and sale status

    A shallow embedding of the stock-mutating controllers of the
    repository:

    - [src/modules/inventory/controller/inventory.controller.js]
      ([stockIn], [stockOut], [adjustStock], [createSaleInventoryLog]);
    - the TypeScript variant of the same controller (the functions of the
      [TS] module below);
    - [src/modules/sale/controller/sale.controller.js]
      ([generateSaleNumber], [createSale], [updateSaleStatus],
      [isValidStatusTransition]);
    - [src/globals/helper.ts] ([sendResponse], [createAuditLog]);
    - the tables, enumerations, column types, unique indexes and foreign
      keys of the SQL migration;
    - of the read side, [getInventorySummary] and the paging block of the
      listing handlers;
    - [updateStock] of the product controller
      ([src/modules/product/route/product.route.ts]);
    - the role guards of [src/middleware/auth.middleware.js].

    Every [await] on the database is one atomic step of a resumption
    ([Proc]); a request handler is a sequence of such steps, so the same
    definition gives the sequential semantics ([run]), the list of the
    stores that become visible one after the other ([steps]), and the
    interleavings of two requests ([run2]). *)

From stdpp Require Import base option list gmap strings pretty.
From Stdlib Require Import ZArith QArith Lia.

Open Scope Z_scope.

(** ** Data model (tables of the migration) *)

Inductive InventoryLogType :=
  STOCK_IN | STOCK_OUT | SALE | RETURN | DAMAGE | ADJUSTMENT.

Inductive SaleStatus := PENDING | COMPLETED | CANCELLED | REFUNDED.

Inductive PaymentMethod := CASH | CARD | DIGITAL_WALLET | BANK_TRANSFER.

Global Instance InventoryLogType_eq_dec : EqDecision InventoryLogType.
Proof. solve_decision. Defined.

Global Instance SaleStatus_eq_dec : EqDecision SaleStatus.
Proof. solve_decision. Defined.

Global Instance PaymentMethod_eq_dec : EqDecision PaymentMethod.
Proof. solve_decision. Defined.

(* Money columns are DECIMAL(65,30) and the controllers compute on them
   with Prisma.Decimal. *)

(** Modelled from the spec: the [Prisma.Decimal] class (a dependency, not
    part of the sources) is taken as the exact decimal type the spec's
    numeric policy asks for; a decimal is the rational number it denotes,
    [plus], [minus] and [times] are the exact operations. *)
Definition Decimal := Q.

Module Product.
Record t := mk {
  name : string;
  sku : string;
  price : Decimal;
  costPrice : Decimal;
  quantity : Z;
  isActive : bool;
}.
Definition set_quantity (q : Z) (p : t) : t :=
  mk (name p) (sku p) (price p) (costPrice p) q (isActive p).
Definition set_costPrice (c : Decimal) (p : t) : t :=
  mk (name p) (sku p) (price p) c (quantity p) (isActive p).
End Product.

Module InventoryLog.
Record t := mk {
  type : InventoryLogType;
  quantity : Z;
  previousStock : Z;
  newStock : Z;
  reason : string;
  productId : string;
  performedById : string;
  saleId : option string;
}.
End InventoryLog.

Module SaleItem.
Record t := mk {
  productId : string;
  quantity : Z;
  unitPrice : Decimal;
  totalPrice : Decimal;
}.
End SaleItem.

Module Sale.
Record t := mk {
  saleNumber : string;
  totalAmount : Decimal;
  taxAmount : Decimal;
  discount : Decimal;
  finalAmount : Decimal;
  paymentMethod : PaymentMethod;
  status : SaleStatus;
  updatedAt : Z;
  staffId : string;
  customerId : option string;
  items : list SaleItem.t;
}.
Definition set_status (st : SaleStatus) (now : Z) (s : t) : t :=
  mk (saleNumber s) (totalAmount s) (taxAmount s) (discount s)
     (finalAmount s) (paymentMethod s) st now (staffId s) (customerId s)
     (items s).
End Sale.

(** The audit trail is a side channel; of an audit record only the actor,
    the action and the resource are kept (the free text and the JSON
    snapshots are not). *)
Module AuditLog.
Record t := mk {
  userId : string;
  action : string;
  resource : string;
  resourceId : string;
}.
End AuditLog.

(** Modelled from the spec: the audit-logging sink is an outside
    collaborator that takes a record or fails on it (its table is not in
    the migration).  A sink says, for the records it holds and one more
    record, whether it takes that record. *)
Definition AuditSink := list AuditLog.t -> AuditLog.t -> bool.

(** The committed database. [inventoryLogs] and [auditLogs] are append-only
    tables, newest row first.  [auditSink] is the behaviour of the audit
    sink; no request changes it. *)
Record Store := mkStore {
  products : gmap string Product.t;
  inventoryLogs : list InventoryLog.t;
  sales : gmap string Sale.t;
  customers : gset string;
  auditLogs : list AuditLog.t;
  auditSink : AuditSink;
}.

Definition with_products (ps : gmap string Product.t) (s : Store) : Store :=
  mkStore ps (inventoryLogs s) (sales s) (customers s) (auditLogs s)
          (auditSink s).
Definition with_inventoryLogs (ls : list InventoryLog.t) (s : Store) : Store :=
  mkStore (products s) ls (sales s) (customers s) (auditLogs s) (auditSink s).
Definition with_sales (ss : gmap string Sale.t) (s : Store) : Store :=
  mkStore (products s) (inventoryLogs s) ss (customers s) (auditLogs s)
          (auditSink s).
Definition with_auditLogs (al : list AuditLog.t) (s : Store) : Store :=
  mkStore (products s) (inventoryLogs s) (sales s) (customers s) al
          (auditSink s).

(** The range of an [INTEGER] column ([products.quantity],
    [sale_items.quantity], [inventory_logs.quantity], [previousStock] and
    [newStock]). *)
Definition int4 (z : Z) : bool :=
  (-2147483648 <=? z) && (z <=? 2147483647).

(** ** JavaScript values and errors *)

(** Truthiness of an optional string ([undefined] and the empty string are
    falsy) and of an optional number ([undefined] and zero are falsy). *)
Definition truthy_str (o : option string) : bool :=
  match o with
  | Some s => negb (String.eqb s "")
  | None => false
  end.

Definition truthy_num (o : option Z) : bool :=
  match o with
  | Some n => negb (n =? 0)
  | None => false
  end.

Definition truthy_dec (o : option Decimal) : bool :=
  match o with
  | Some d => negb (Qnum d =? 0)
  | None => false
  end.

(** [String.prototype.includes]. *)
Definition includes (hay needle : string) : bool :=
  match String.index 0 needle hay with
  | Some _ => true
  | None => false
  end.

(** A thrown value: a plain [Error] with its message, or a
    [PrismaClientKnownRequestError] with its code as well. *)
Record Exn := mkExn {
  exn_message : string;
  prisma_code : option string;
}.

Definition Error (msg : string) : Exn := mkExn msg None.

(** Unique-index violation and missing record, as the client reports them. *)
Definition P2002 (field : string) : Exn :=
  mkExn ("Unique constraint failed on the fields: (`" +:+ field +:+ "`)")
        (Some "P2002").
Definition P2025 : Exn :=
  mkExn ("An operation failed because it depends on one or more records "
         +:+ "that were required but not found. Record to update not found.")
        (Some "P2025").
(** A value the client refuses for an enumeration column. *)
Definition validationError (field : string) : Exn :=
  mkExn ("Invalid value for argument `" +:+ field +:+ "`. Expected enum.") None.
(** A number outside the range of its [INTEGER] column, and a row whose
    foreign key finds no committed row. *)
Definition P2020 : Exn :=
  mkExn "Value out of range for the type. integer out of range" (Some "P2020").
Definition P2003 (constraint : string) : Exn :=
  mkExn ("Foreign key constraint failed on the field: `" +:+ constraint +:+ "`")
        (Some "P2003").

(** ** Responses ([sendResponse] of the helper) *)

Inductive Payload :=
| NoData
| StockData (productId : string) (product : Product.t) (log : InventoryLog.t)
| AdjustData (productId : string) (product : Product.t) (log : InventoryLog.t)
             (type : InventoryLogType) (quantity : Z)
| SaleData (id : string) (sale : Sale.t).

Record Response := mkResponse {
  statusCode : Z;
  success : bool;
  message : string;
  data : Payload;
}.

Definition sendResponse (statusCode : Z) (message : string) (data : Payload)
  : Response :=
  mkResponse statusCode ((200 <=? statusCode) && (statusCode <? 300))
             message data.


(** ** Requests as resumptions *)

(** A request handler between two [await]s on the database does nothing
    another request can see.  [Atomic w k] is one such database step: on
    the committed store [s] it leaves the store [w s] and goes on as [k s].

    A read ([query]) is a plain read of the committed store, inside a
    transaction as outside: [findUnique] takes no lock, and
    [$transaction] is always called without an isolation level.  The
    writes of a transaction become visible together, when it commits
    ([commit]): the write either applies as a whole or throws and leaves
    the store as it was.  A transaction that throws after its reads has
    written nothing.

    The transactions of [createSale] and [updateSaleStatus] call the
    ledger through the global client while they are open; the row they
    stage themselves (the new sale, the new status) is written by the
    [commit] that ends them, after those calls, and no other connection
    sees it before.

    A write checks what the database checks: a quantity written to an
    [INTEGER] column is in range ([int4]), and the product and the sale a
    new row of [inventory_logs] refers to are committed rows.  The foreign
    keys to [users] are taken to hold: the acting user is the row that
    authentication loaded. *)
Inductive Proc (A : Type) : Type :=
| Ret (a : A)
| Atomic (w : Store -> Store) (k : Store -> Proc A).

Arguments Ret {A} a.
Arguments Atomic {A} w k.

Fixpoint proc_bind {A B} (f : A -> Proc B) (p : Proc A) : Proc B :=
  match p with
  | Ret a => f a
  | Atomic w k => Atomic w (fun s => proc_bind f (k s))
  end.

Global Instance Proc_ret : MRet Proc := fun _ a => Ret a.
Global Instance Proc_bind : MBind Proc := fun _ _ f p => proc_bind f p.

Definition query {A} (f : Store -> A) : Proc A :=
  Atomic (fun s => s) (fun s => Ret (f s)).

Definition commit {A} (tx : Store -> Exn + (A * Store)) : Proc (Exn + A) :=
  Atomic (fun s => match tx s with inr (_, s') => s' | inl _ => s end)
         (fun s => Ret (match tx s with inr (a, _) => inr a | inl e => inl e end)).

(** Sequential execution: nothing else touches the store. *)
Fixpoint run {A} (p : Proc A) (s : Store) : A * Store :=
  match p with
  | Ret a => (a, s)
  | Atomic w k => run (k s) (w s)
  end.

(** The database steps of a sequential execution, each with the store
    before and after it. *)
Fixpoint steps {A} (p : Proc A) (s : Store) : list (Store * Store) :=
  match p with
  | Ret _ => []
  | Atomic w k => (s, w s) :: steps (k s) (w s)
  end.

(** Two requests in flight: the schedule says whose step comes next
    ([true]: the first request); when it runs out, the first request
    finishes and then the second. *)
Fixpoint run2 {A B} (sched : list bool) (p : Proc A) (q : Proc B) (s : Store)
  : A * B * Store :=
  match sched with
  | [] => let '(a, s1) := run p s in let '(b, s2) := run q s1 in (a, b, s2)
  | true :: sched' =>
      match p with
      | Ret a => let '(b, s') := run q s in (a, b, s')
      | Atomic w k => run2 sched' (k s) q (w s)
      end
  | false :: sched' =>
      match q with
      | Ret b => let '(a, s') := run p s in (a, b, s')
      | Atomic w k => run2 sched' p (k s) (w s)
      end
  end.

(** [try { ... } catch (error) { ... }] around a handler body. *)
Definition try_catch {A} (body : Proc (Exn + A)) (handler : Exn -> A) : Proc A :=
  r ← body; mret (match r with inr a => a | inl e => handler e end).

Definition throw {A} (e : Exn) : Proc (Exn + A) := mret (inl e).
Definition ok {A} (a : A) : Proc (Exn + A) := mret (inr a).

(** Sequencing that stops at the first throw. *)
Definition and_then {A B} (p : Proc (Exn + A)) (f : A -> Proc (Exn + B))
  : Proc (Exn + B) :=
  r ← p; match r with inr a => f a | inl e => throw e end.

Notation "x ←! p ; k" := (and_then p (fun x => k))
  (at level 20, p at level 100, k at level 200, only parsing).

(** ** The Prisma calls the controllers make *)

(** [product.findUnique({ where: { id } })]. *)
Definition findProduct (id : string) (s : Store) : option Product.t :=
  products s !! id.

(** [product.findUnique({ where: { id, isActive: true } })]. *)
Definition findActiveProduct (id : string) (s : Store) : option Product.t :=
  match products s !! id with
  | Some p => if Product.isActive p then Some p else None
  | None => None
  end.

(** [tx.product.update({ where: { id }, data })]: the row after the
    update.  [products.quantity] is an [INTEGER]. *)
Definition product_update (id : string) (upd : Product.t -> Product.t)
    (s : Store) : Exn + (Product.t * Store) :=
  match products s !! id with
  | Some p =>
      if int4 (Product.quantity (upd p)) then
        inr (upd p, with_products (<[id := upd p]> (products s)) s)
      else inl P2020
  | None => inl P2025
  end.

(** [tx.inventoryLog.create({ data })]: three [INTEGER] columns, and the
    foreign keys [inventory_logs_productId_fkey] and
    [inventory_logs_saleId_fkey].  [sales] is the committed table: a sale
    that another open transaction has only staged is not in it. *)
Definition inventoryLog_create (l : InventoryLog.t) (s : Store)
  : Exn + (InventoryLog.t * Store) :=
  if negb (int4 (InventoryLog.quantity l) && int4 (InventoryLog.previousStock l)
           && int4 (InventoryLog.newStock l)) then inl P2020
  else if negb (bool_decide (is_Some (products s !! InventoryLog.productId l)))
  then inl (P2003 "inventory_logs_productId_fkey (index)")
  else
    match InventoryLog.saleId l with
    | Some saleId =>
        if bool_decide (is_Some (sales s !! saleId)) then
          inr (l, with_inventoryLogs (l :: inventoryLogs s) s)
        else inl (P2003 "inventory_logs_saleId_fkey (index)")
    | None => inr (l, with_inventoryLogs (l :: inventoryLogs s) s)
    end.

(** The write part of a stock transaction: the product row, then the log
    row. *)
Definition write_stock (id : string) (upd : Product.t -> Product.t)
    (l : InventoryLog.t) (s : Store)
  : Exn + (Product.t * InventoryLog.t * Store) :=
  match product_update id upd s with
  | inl e => inl e
  | inr (p, s1) =>
      match inventoryLog_create l s1 with
      | inl e => inl e
      | inr (l', s2) => inr (p, l', s2)
      end
  end.

(** [createAuditLog] of the helper: the record is inserted when the sink
    takes it; a failed insert is caught inside the helper, which then
    returns as after a successful one. *)
Definition auditLog_create (row : AuditLog.t) (s : Store) : Store :=
  with_auditLogs
    (if auditSink s (auditLogs s) row
     then (* try { await prisma.auditLog.create({ data }) } *)
       row :: auditLogs s
     else (* catch (error) { console.error(...) } *)
       auditLogs s) s.

Definition createAuditLog (userId : string) (action resource resourceId : string)
  : Proc unit :=
  Atomic (auditLog_create (AuditLog.mk userId action resource resourceId))
         (fun _ => Ret tt).

(** ** Inventory controller (compiled JavaScript) *)

(** Body of a stock request.  [user] is [req.user?.id]. *)
Record StockRequest := mkStockRequest {
  user : option string;
  productId : option string;
  quantity : option Z;
  reason : option string;
  costPrice : option Decimal;
}.

Definition stockIn (req : StockRequest) : Proc Response :=
  try_catch
    (let reason := default "Stock in" (reason req) in
     if negb (truthy_str (user req)) then
       ok (sendResponse 400 "Authentication required" NoData)
     else if negb (truthy_str (productId req)) || negb (truthy_num (quantity req)) then
       ok (sendResponse 400 "Product ID and quantity are required" NoData)
     else
       let userId := default "" (user req) in
       let productId := default "" (productId req) in
       let quantity := default 0 (quantity req) in
       if quantity <=? 0 then
         ok (sendResponse 400 "Quantity must be greater than 0" NoData)
       else
         product ← query (findActiveProduct productId);
         match product with
         | None => ok (sendResponse 404 "Product not found or inactive" NoData)
         | Some product =>
             let previousStock := Product.quantity product in
             let newStock := previousStock + quantity in
             (* prisma.$transaction *)
             lockedProduct ← query (findActiveProduct productId);
             match lockedProduct with
             | None => throw (Error "Product not found or inactive")
             | Some _ =>
                 let updateData p :=
                   let p' := Product.set_quantity newStock p in
                   if truthy_dec (costPrice req)
                   then Product.set_costPrice (default 0%Q (costPrice req)) p'
                   else p' in
                 result ←! commit (write_stock productId updateData
                     (InventoryLog.mk STOCK_IN quantity previousStock newStock
                        reason productId userId None));
                 _ ← createAuditLog userId "STOCK_IN" "Product" productId;
                 ok (sendResponse 200 "Stock added successfully"
                       (StockData productId result.1 result.2))
             end
         end)
    (fun error =>
       if String.eqb (exn_message error) "Product not found or inactive" then
         sendResponse 404 "Product not found or inactive" NoData
       else sendResponse 500 "Internal server error" NoData).

Definition stockOut (req : StockRequest) : Proc Response :=
  try_catch
    (let reason := default "Stock out" (reason req) in
     if negb (truthy_str (user req)) then
       ok (sendResponse 400 "Authentication required" NoData)
     else if negb (truthy_str (productId req)) || negb (truthy_num (quantity req)) then
       ok (sendResponse 400 "Product ID and quantity are required" NoData)
     else
       let userId := default "" (user req) in
       let productId := default "" (productId req) in
       let quantity := default 0 (quantity req) in
       if quantity <=? 0 then
         ok (sendResponse 400 "Quantity must be greater than 0" NoData)
       else
         product ← query (findActiveProduct productId);
         match product with
         | None => ok (sendResponse 404 "Product not found or inactive" NoData)
         | Some product =>
             let previousStock := Product.quantity product in
             if previousStock <? quantity then
               ok (sendResponse 400 "Insufficient stock" NoData)
             else
               let newStock := previousStock - quantity in
               (* prisma.$transaction *)
               lockedProduct ← query (findActiveProduct productId);
               match lockedProduct with
               | None => throw (Error "Product not found or inactive")
               | Some lockedProduct =>
                   if Product.quantity lockedProduct <? quantity then
                     throw (Error "Insufficient stock")
                   else
                     result ←! commit (write_stock productId
                         (Product.set_quantity newStock)
                         (InventoryLog.mk STOCK_OUT quantity previousStock newStock
                            reason productId userId None));
                     _ ← createAuditLog userId "STOCK_OUT" "Product" productId;
                     ok (sendResponse 200 "Stock removed successfully"
                           (StockData productId result.1 result.2))
               end
         end)
    (fun error =>
       if String.eqb (exn_message error) "Product not found or inactive" then
         sendResponse 404 "Product not found or inactive" NoData
       else if String.eqb (exn_message error) "Insufficient stock" then
         sendResponse 400 "Insufficient stock" NoData
       else sendResponse 500 "Internal server error" NoData).

Definition adjustStock (req : StockRequest) : Proc Response :=
  try_catch
    (let reason := default "Stock adjustment" (reason req) in
     if negb (truthy_str (user req)) then
       ok (sendResponse 400 "Authentication required" NoData)
     else if negb (truthy_str (productId req)) || bool_decide (quantity req = None) then
       ok (sendResponse 400 "Product ID and quantity are required" NoData)
     else
       let userId := default "" (user req) in
       let productId := default "" (productId req) in
       let quantity := default 0 (quantity req) in
       if quantity <? 0 then
         ok (sendResponse 400 "Quantity cannot be negative" NoData)
       else
         product ← query (findActiveProduct productId);
         match product with
         | None => ok (sendResponse 404 "Product not found or inactive" NoData)
         | Some product =>
             let previousStock := Product.quantity product in
             let newStock := quantity in
             let adjustmentQuantity := Z.abs (newStock - previousStock) in
             let logType := if previousStock <? newStock then STOCK_IN else STOCK_OUT in
             (* prisma.$transaction *)
             lockedProduct ← query (findActiveProduct productId);
             match lockedProduct with
             | None => throw (Error "Product not found or inactive")
             | Some _ =>
                 result ←! commit (write_stock productId
                     (Product.set_quantity newStock)
                     (InventoryLog.mk logType adjustmentQuantity previousStock
                        newStock reason productId userId None));
                 _ ← createAuditLog userId "STOCK_ADJUSTMENT" "Product" productId;
                 ok (sendResponse 200 "Stock adjusted successfully"
                       (AdjustData productId result.1 result.2
                          logType adjustmentQuantity))
             end
         end)
    (fun error =>
       if String.eqb (exn_message error) "Product not found or inactive" then
         sendResponse 404 "Product not found or inactive" NoData
       else sendResponse 500 "Internal server error" NoData).

(** The ledger entry point of the sale controller.  It runs on the global
    client: its transaction is its own, whoever calls it. *)
Definition createSaleInventoryLog (productId : string) (quantity : Z)
    (saleId userId : string) (type : InventoryLogType) : Proc (Exn + unit) :=
  product ← query (findProduct productId);
  match product with
  | None => throw (Error ("Product " +:+ productId +:+ " not found"))
  | Some product =>
      let previousStock := Product.quantity product in
      let newStock : Exn + Z :=
        if bool_decide (type = SALE) then
          if previousStock <? quantity
          then inl (Error ("Insufficient stock for product " +:+ productId))
          else inr (previousStock - quantity)
        else if bool_decide (type = RETURN) then inr (previousStock + quantity)
        else inr previousStock in
      match newStock with
      | inl error => throw error
      | inr newStock =>
        (* prisma.$transaction *)
        lockedProduct ← query (findProduct productId);
        match lockedProduct with
        | None => throw (Error ("Product " +:+ productId +:+ " not found"))
        | Some lockedProduct =>
            if bool_decide (type = SALE) && (Product.quantity lockedProduct <? quantity)
            then throw (Error ("Insufficient stock for product " +:+ productId))
            else
              _ ←! commit (write_stock productId
                  (Product.set_quantity newStock)
                  (InventoryLog.mk type quantity previousStock newStock
                     (if bool_decide (type = SALE) then "Sale" else "Product return")
                     productId userId (Some saleId)));
              _ ← createAuditLog userId
                    (if bool_decide (type = SALE) then "SALE_STOCK_UPDATE"
                     else "RETURN_STOCK_UPDATE")
                    "Product" productId;
              ok tt
        end
      end
  end.

(** ** Inventory controller (TypeScript variant)

    The same four functions as the TypeScript source has them: the product
    is read once, inside the transaction, and no audit record is written. *)
Module TS.

Definition stockIn (req : StockRequest) : Proc Response :=
  try_catch
    (let reason := default "Stock in" (reason req) in
     if negb (truthy_str (user req)) then
       ok (sendResponse 400 "Authentication required" NoData)
     else if negb (truthy_str (productId req)) || negb (truthy_num (quantity req)) then
       ok (sendResponse 400 "Product ID and quantity are required" NoData)
     else
       let userId := default "" (user req) in
       let productId := default "" (productId req) in
       let quantity := default 0 (quantity req) in
       if quantity <=? 0 then
         ok (sendResponse 400 "Quantity must be greater than 0" NoData)
       else
         (* prisma.$transaction *)
         product ← query (findActiveProduct productId);
         match product with
         | None => throw (Error "Product not found or inactive")
         | Some product =>
             let previousStock := Product.quantity product in
             let newStock := previousStock + quantity in
             let updateData p :=
               let p' := Product.set_quantity newStock p in
               if truthy_dec (costPrice req)
               then Product.set_costPrice (default 0%Q (costPrice req)) p'
               else p' in
             result ←! commit (write_stock productId updateData
                 (InventoryLog.mk STOCK_IN quantity previousStock newStock
                    reason productId userId None));
             ok (sendResponse 200 "Stock added successfully"
                   (StockData productId result.1 result.2))
         end)
    (fun error =>
       if String.eqb (exn_message error) "Product not found or inactive" then
         sendResponse 404 "Product not found or inactive" NoData
       else sendResponse 500 "Internal server error" NoData).

Definition stockOut (req : StockRequest) : Proc Response :=
  try_catch
    (let reason := default "Stock out" (reason req) in
     if negb (truthy_str (user req)) then
       ok (sendResponse 400 "Authentication required" NoData)
     else if negb (truthy_str (productId req)) || negb (truthy_num (quantity req)) then
       ok (sendResponse 400 "Product ID and quantity are required" NoData)
     else
       let userId := default "" (user req) in
       let productId := default "" (productId req) in
       let quantity := default 0 (quantity req) in
       if quantity <=? 0 then
         ok (sendResponse 400 "Quantity must be greater than 0" NoData)
       else
         (* prisma.$transaction *)
         product ← query (findActiveProduct productId);
         match product with
         | None => throw (Error "Product not found or inactive")
         | Some product =>
             let previousStock := Product.quantity product in
             if previousStock <? quantity then
               throw (Error "Insufficient stock")
             else
               let newStock := previousStock - quantity in
               result ←! commit (write_stock productId
                   (Product.set_quantity newStock)
                   (InventoryLog.mk STOCK_OUT quantity previousStock newStock
                      reason productId userId None));
               ok (sendResponse 200 "Stock removed successfully"
                     (StockData productId result.1 result.2))
         end)
    (fun error =>
       if String.eqb (exn_message error) "Product not found or inactive" then
         sendResponse 404 "Product not found or inactive" NoData
       else if String.eqb (exn_message error) "Insufficient stock" then
         sendResponse 400 "Insufficient stock" NoData
       else sendResponse 500 "Internal server error" NoData).

Definition adjustStock (req : StockRequest) : Proc Response :=
  try_catch
    (let reason := default "Stock adjustment" (reason req) in
     if negb (truthy_str (user req)) then
       ok (sendResponse 400 "Authentication required" NoData)
     else if negb (truthy_str (productId req)) || bool_decide (quantity req = None) then
       ok (sendResponse 400 "Product ID and quantity are required" NoData)
     else
       let userId := default "" (user req) in
       let productId := default "" (productId req) in
       let quantity := default 0 (quantity req) in
       if quantity <? 0 then
         ok (sendResponse 400 "Quantity cannot be negative" NoData)
       else
         (* prisma.$transaction *)
         product ← query (findActiveProduct productId);
         match product with
         | None => throw (Error "Product not found or inactive")
         | Some product =>
             let previousStock := Product.quantity product in
             let newStock := quantity in
             let adjustmentQuantity := Z.abs (newStock - previousStock) in
             let logType := if previousStock <? newStock then STOCK_IN else STOCK_OUT in
             result ←! commit (write_stock productId
                 (Product.set_quantity newStock)
                 (InventoryLog.mk logType adjustmentQuantity previousStock
                    newStock reason productId userId None));
             ok (sendResponse 200 "Stock adjusted successfully"
                   (AdjustData productId result.1 result.2
                      logType adjustmentQuantity))
         end)
    (fun error =>
       if String.eqb (exn_message error) "Product not found or inactive" then
         sendResponse 404 "Product not found or inactive" NoData
       else sendResponse 500 "Internal server error" NoData).

Definition createSaleInventoryLog (productId : string) (quantity : Z)
    (saleId userId : string) (type : InventoryLogType) : Proc (Exn + unit) :=
  (* prisma.$transaction *)
  product ← query (findProduct productId);
  match product with
  | None => throw (Error ("Product " +:+ productId +:+ " not found"))
  | Some product =>
      let previousStock := Product.quantity product in
      let newStock : Exn + Z :=
        if bool_decide (type = SALE) then
          if previousStock <? quantity
          then inl (Error ("Insufficient stock for product " +:+ productId))
          else inr (previousStock - quantity)
        else if bool_decide (type = RETURN) then inr (previousStock + quantity)
        else inr previousStock in
      match newStock with
      | inl error => throw error
      | inr newStock =>
          _ ←! commit (write_stock productId
              (Product.set_quantity newStock)
              (InventoryLog.mk type quantity previousStock newStock
                 (if bool_decide (type = SALE) then "Sale" else "Product return")
                 productId userId (Some saleId)));
          ok tt
      end
  end.

End TS.

(** ** Sale controller (compiled JavaScript) *)

Definition SaleStatus_name (st : SaleStatus) : string :=
  match st with
  | PENDING => "PENDING"
  | COMPLETED => "COMPLETED"
  | CANCELLED => "CANCELLED"
  | REFUNDED => "REFUNDED"
  end.

(** What the client accepts for the two enumeration columns of [sales]. *)
Definition parse_SaleStatus (x : string) : option SaleStatus :=
  if String.eqb x "PENDING" then Some PENDING
  else if String.eqb x "COMPLETED" then Some COMPLETED
  else if String.eqb x "CANCELLED" then Some CANCELLED
  else if String.eqb x "REFUNDED" then Some REFUNDED
  else None.

Definition parse_PaymentMethod (x : string) : option PaymentMethod :=
  if String.eqb x "CASH" then Some CASH
  else if String.eqb x "CARD" then Some CARD
  else if String.eqb x "DIGITAL_WALLET" then Some DIGITAL_WALLET
  else if String.eqb x "BANK_TRANSFER" then Some BANK_TRANSFER
  else None.

(** [String.prototype.padStart(n, "0")]. *)
Definition padStart0 (n : nat) (x : string) : string :=
  String.concat "" (replicate (n - String.length x) "0") +:+ x.

(** [timestamp] is [Date.now()], [random] is
    [Math.floor(Math.random() * 1000)]. *)
Definition generateSaleNumber (timestamp random : Z) : string :=
  "SALE-" +:+ pretty timestamp +:+ "-" +:+ padStart0 3 (pretty random).

Record SaleItemInput := mkSaleItemInput {
  item_productId : string;          (* absent: the empty string *)
  item_quantity : Z;                (* absent: zero *)
  item_unitPrice : option Decimal;
}.

Record CreateSaleRequest := mkCreateSaleRequest {
  cs_user : option string;
  cs_customerId : option string;
  cs_items : list SaleItemInput;
  cs_paymentMethod : option string;
  cs_taxAmount : option Decimal;
  cs_discount : option Decimal;
}.

(** What a request takes from its environment: the clock, the random
    source and the identifier the client generates for a new [sales] row. *)
Record Env := mkEnv {
  now : Z;
  random : Z;
  newId : string;
}.

(** The first loop of the transaction of [createSale]: prices and stock. *)
Fixpoint validate_items (items : list SaleItemInput) (totalAmount : Decimal)
    (saleItemsData : list SaleItem.t)
  : Proc (Exn + (Decimal * list SaleItem.t)) :=
  match items with
  | [] => ok (totalAmount, saleItemsData)
  | item :: items' =>
      product ← query (findActiveProduct (item_productId item));
      match product with
      | None =>
          throw (Error ("Product " +:+ item_productId item +:+ " not found or inactive"))
      | Some product =>
          if Product.quantity product <? item_quantity item then
            throw (Error ("Insufficient stock for " +:+ Product.name product
                          +:+ ". Available: " +:+ pretty (Product.quantity product)
                          +:+ ", Requested: " +:+ pretty (item_quantity item)))
          else
            let unitPrice :=
              if truthy_dec (item_unitPrice item)
              then default 0%Q (item_unitPrice item)
              else Product.price product in
            let totalPrice := (unitPrice * inject_Z (item_quantity item))%Q in
            validate_items items' (totalAmount + totalPrice)%Q
              (saleItemsData ++
               [SaleItem.mk (item_productId item) (item_quantity item)
                  unitPrice totalPrice])
      end
  end.

(** [tx.sale.create] with its nested item rows.  The row is staged in the
    open transaction; the client refuses a payment method outside the
    enumeration, the unique indexes [sales_pkey], [sales_saleNumber_key]
    and [sale_items_saleId_productId_key] are checked when the rows are
    inserted, and [sale_items.quantity] is an [INTEGER]. *)
Definition sale_create (id saleNumber : string) (totalAmount taxAmount discount
    finalAmount : Decimal) (paymentMethod : string) (updatedAt : Z)
    (staffId : string) (customerId : option string)
    (items : list SaleItem.t) (s : Store) : Exn + Sale.t :=
  match parse_PaymentMethod paymentMethod with
  | None => inl (validationError "paymentMethod")
  | Some pm =>
      if bool_decide (is_Some (sales s !! id)) then inl (P2002 "id")
      else if bool_decide
                (map_Forall (fun _ x => Sale.saleNumber x ≠ saleNumber) (sales s))
      then
        if bool_decide (NoDup (map SaleItem.productId items)) then
          if forallb (fun item => int4 (SaleItem.quantity item)) items then
            inr (Sale.mk saleNumber totalAmount taxAmount discount finalAmount
                   pm COMPLETED updatedAt staffId customerId items)
          else inl P2020
        else inl (P2002 "saleId,productId")
      else inl (P2002 "saleNumber")
  end.

(** The second loop of both sale transactions: one ledger call per item. *)
Fixpoint ledger_loop (items : list (string * Z)) (saleId userId : string)
    (type : InventoryLogType) : Proc (Exn + unit) :=
  match items with
  | [] => ok tt
  | (productId, quantity) :: items' =>
      _ ←! createSaleInventoryLog productId quantity saleId userId type;
      ledger_loop items' saleId userId type
  end.

(** The [catch] block of [createSale]. *)
Definition createSale_catch (error : Exn) : Response :=
  if includes (exn_message error) "not found" then
    sendResponse 404 (exn_message error) NoData
  else if includes (exn_message error) "Insufficient stock" then
    sendResponse 400 (exn_message error) NoData
  else sendResponse 500 "Internal server error" NoData.

Definition createSale (env : Env) (req : CreateSaleRequest) : Proc Response :=
  try_catch
    (let taxAmount := default 0%Q (cs_taxAmount req) in
     let discount := default 0%Q (cs_discount req) in
     let items := cs_items req in
     if negb (truthy_str (cs_user req)) then
       ok (sendResponse 400 "Authentication required" NoData)
     else if bool_decide (items = []) then
       ok (sendResponse 400 "Sale items are required" NoData)
     else if negb (truthy_str (cs_paymentMethod req)) then
       ok (sendResponse 400 "Payment method is required" NoData)
     else if existsb (fun item =>
                        String.eqb (item_productId item) ""
                        || (item_quantity item =? 0)
                        || (item_quantity item <=? 0)) items then
       ok (sendResponse 400 "Each item must have productId and positive quantity" NoData)
     else
       let userId := default "" (cs_user req) in
       let paymentMethod := default "" (cs_paymentMethod req) in
       customerMissing ←
         (if truthy_str (cs_customerId req) then
            query (fun s => bool_decide (default "" (cs_customerId req) ∉ customers s))
          else mret false);
       if (customerMissing : bool) then
         ok (sendResponse 404 "Customer not found" NoData)
       else
         let saleNumber := generateSaleNumber (now env) (random env) in
         (* prisma.$transaction *)
         totals ←! validate_items items 0%Q [];
         let totalAmount := totals.1 in
         let saleItemsData := totals.2 in
         let finalAmount := (totalAmount + taxAmount - discount)%Q in
         sale ←! query (sale_create (newId env) saleNumber totalAmount taxAmount
                          discount finalAmount paymentMethod (now env) userId
                          (if truthy_str (cs_customerId req) then cs_customerId req
                           else None)
                          saleItemsData);
         _ ←! ledger_loop (map (fun item => (item_productId item, item_quantity item))
                             items)
                (newId env) userId SALE;
         result ←! commit (fun s =>
             inr (sale, with_sales (<[newId env := sale]> (sales s)) s));
         (* the transaction has committed *)
         _ ← createAuditLog userId "SALE_CREATE" "Sale" (newId env);
         ok (sendResponse 201 "Sale created successfully"
               (SaleData (newId env) result)))
    createSale_catch.

Definition validTransitions (from : SaleStatus) : list string :=
  match from with
  | PENDING => ["COMPLETED"; "CANCELLED"]
  | COMPLETED => ["REFUNDED"]
  | CANCELLED => []
  | REFUNDED => []
  end.

Definition isValidStatusTransition (from : SaleStatus) (to : string) : bool :=
  existsb (String.eqb to) (validTransitions from).

Record UpdateStatusRequest := mkUpdateStatusRequest {
  us_user : option string;
  us_id : option string;            (* req.params.id *)
  us_status : option string;
  us_reason : option string;
}.

(** [tx.sale.update({ where: { id }, data: { status, updatedAt } })]. *)
Definition sale_update (id : string) (status : string) (updatedAt : Z)
    (s : Store) : Exn + (Sale.t * Store) :=
  match parse_SaleStatus status with
  | None => inl (validationError "status")
  | Some st =>
      match sales s !! id with
      | None => inl P2025
      | Some row =>
          let row' := Sale.set_status st updatedAt row in
          inr (row', with_sales (<[id := row']> (sales s)) s)
      end
  end.

(** The [catch] block of [updateSaleStatus]. *)
Definition updateSaleStatus_catch (error : Exn) : Response :=
  if bool_decide (prisma_code error = Some "P2025") then
    sendResponse 404 "Sale not found" NoData
  else sendResponse 500 "Internal server error" NoData.

Definition updateSaleStatus (env : Env) (req : UpdateStatusRequest) : Proc Response :=
  try_catch
    (if negb (truthy_str (us_user req)) then
       ok (sendResponse 400 "Authentication required" NoData)
     else if negb (truthy_str (us_id req)) || negb (truthy_str (us_status req)) then
       ok (sendResponse 400 "Sale ID and status are required" NoData)
     else
       let userId := default "" (us_user req) in
       let id := default "" (us_id req) in
       let status := default "" (us_status req) in
       existingSale ← query (fun s => sales s !! id);
       match existingSale with
       | None => ok (sendResponse 404 "Sale not found" NoData)
       | Some existingSale =>
           let oldStatus := Sale.status existingSale in
           if negb (isValidStatusTransition oldStatus status) then
             ok (sendResponse 400
                   ("Invalid status transition from " +:+ SaleStatus_name oldStatus
                    +:+ " to " +:+ status) NoData)
           else
             (* prisma.$transaction *)
             sale ←! query (fun s => match sale_update id status (now env) s with
                                     | inr (row, _) => inr row
                                     | inl e => inl e
                                     end);
             _ ←! (if String.eqb status "REFUNDED" || String.eqb status "CANCELLED"
                   then ledger_loop
                          (map (fun item => (SaleItem.productId item,
                                             SaleItem.quantity item))
                               (Sale.items existingSale))
                          id userId RETURN
                   else ok tt);
             _ ←! commit (sale_update id status (now env));
             (* the transaction has committed *)
             _ ← createAuditLog userId "SALE_STATUS_UPDATE" "Sale" id;
             ok (sendResponse 200 "Sale status updated successfully"
                   (SaleData id sale))
       end)
    updateSaleStatus_catch.

(** ** The core operations and their sequential executions *)

Inductive Op :=
| StockIn (req : StockRequest)
| StockOut (req : StockRequest)
| AdjustStock (req : StockRequest)
| CreateSale (env : Env) (req : CreateSaleRequest)
| UpdateSaleStatus (env : Env) (req : UpdateStatusRequest).

Definition handler (op : Op) : Proc Response :=
  match op with
  | StockIn req => stockIn req
  | StockOut req => stockOut req
  | AdjustStock req => adjustStock req
  | CreateSale env req => createSale env req
  | UpdateSaleStatus env req => updateSaleStatus env req
  end.

(** The database steps of a sequence of operations run one after the
    other, and the store it ends in. *)
Fixpoint exec (ops : list Op) (s : Store) : list (Store * Store) :=
  match ops with
  | [] => []
  | op :: ops' => steps (handler op) s ++ exec ops' (run (handler op) s).2
  end.

Fixpoint exec_final (ops : list Op) (s : Store) : Store :=
  match ops with
  | [] => s
  | op :: ops' => exec_final ops' (run (handler op) s).2
  end.

(** ** State predicates *)

Definition stock_nonneg (s : Store) : Prop :=
  ∀ id p, products s !! id = Some p → 0 <= Product.quantity p.

(** The data model's invariant on line items. *)
Definition items_positive (s : Store) : Prop :=
  ∀ id sale item, sales s !! id = Some sale → item ∈ Sale.items sale →
    0 < SaleItem.quantity item.

(** [newStock = previousStock ± quantity], the sign given by the type. *)
Definition entry_signed (e : InventoryLog.t) : Prop :=
  match InventoryLog.type e with
  | STOCK_IN | RETURN =>
      InventoryLog.newStock e = InventoryLog.previousStock e + InventoryLog.quantity e
  | STOCK_OUT | SALE =>
      InventoryLog.newStock e = InventoryLog.previousStock e - InventoryLog.quantity e
  | DAMAGE | ADJUSTMENT => True
  end.

(** The stored quantity of the entry's product is the entry's [newStock]. *)
Definition entry_matches_stock (e : InventoryLog.t) (s : Store) : Prop :=
  Product.quantity <$> (products s !! InventoryLog.productId e)
  = Some (InventoryLog.newStock e).

(** What one ledger call writes when it commits: the denotation of the
    transaction of [createSaleInventoryLog] on the store it runs on. *)
Definition ledger_entry (productId : string) (quantity : Z) (saleId userId : string)
    (type : InventoryLogType) (previousStock : Z) : InventoryLog.t :=
  InventoryLog.mk type quantity previousStock
    (if bool_decide (type = SALE) then previousStock - quantity
     else if bool_decide (type = RETURN) then previousStock + quantity
     else previousStock)
    (if bool_decide (type = SALE) then "Sale" else "Product return")
    productId userId (Some saleId).

Definition ledger_write (productId : string) (quantity : Z) (saleId userId : string)
    (type : InventoryLogType) (s : Store) : Exn + Store :=
  match products s !! productId with
  | None => inl (Error ("Product " +:+ productId +:+ " not found"))
  | Some p =>
      if bool_decide (type = SALE) && (Product.quantity p <? quantity) then
        inl (Error ("Insufficient stock for product " +:+ productId))
      else
        let e := ledger_entry productId quantity saleId userId type
                   (Product.quantity p) in
        match write_stock productId
                (Product.set_quantity (InventoryLog.newStock e)) e s with
        | inr (_, _, s') => inr s'
        | inl error => inl error
        end
  end.

Definition ledger_audit (productId userId : string) (type : InventoryLogType)
    (s : Store) : Store :=
  auditLog_create
    (AuditLog.mk userId
       (if bool_decide (type = SALE) then "SALE_STOCK_UPDATE"
        else "RETURN_STOCK_UPDATE") "Product" productId) s.


(** ** Invariants, step predicates and denotations *)

(** The data-model invariant the stock operations maintain. *)
Definition Inv (s : Store) : Prop := stock_nonneg s ∧ items_positive s.

(** [safe I Q p]: every database step of [p] keeps [I], whatever store
    satisfying [I] it finds (so also when other requests, which keep [I]
    too, run in between), and [p] returns a value in [Q]. *)
Inductive safe (I : Store → Prop) {A} (Q : A → Prop) : Proc A → Prop :=
| safe_Ret a : Q a → safe I Q (Ret a)
| safe_Atomic w k :
    (∀ s, I s → I (w s)) → (∀ s, I s → safe I Q (k s)) → safe I Q (Atomic w k).

(** What a database step may do to the ledger: leave it alone, or append
    one entry that is signed by its type and whose [newStock] is the
    stored quantity of its product right after the step. *)
Definition log_step_ok (st : Store * Store) : Prop :=
  inventoryLogs st.2 = inventoryLogs st.1 ∨
  ∃ e, inventoryLogs st.2 = e :: inventoryLogs st.1 ∧
       entry_signed e ∧ entry_matches_stock e st.2.

(** The store after the write part of a stock transaction, and after an
    audit record. *)
Definition stock_commit (id : string) (p' : Product.t) (e : InventoryLog.t)
    (s : Store) : Store :=
  mkStore (<[id := p']> (products s)) (e :: inventoryLogs s) (sales s)
          (customers s) (auditLogs s) (auditSink s).

Definition audit_commit (userId action resource resourceId : string)
    (s : Store) : Store :=
  auditLog_create (AuditLog.mk userId action resource resourceId) s.

(** What the database checks of a stock write: the new quantity and the
    three numbers of the log row are in the [INTEGER] range, and the sale
    the row names, if any, is committed. *)
Definition row_accepted (p' : Product.t) (e : InventoryLog.t) (s : Store) : bool :=
  int4 (Product.quantity p') && int4 (InventoryLog.quantity e)
  && int4 (InventoryLog.previousStock e) && int4 (InventoryLog.newStock e)
  && match InventoryLog.saleId e with
     | Some saleId => bool_decide (is_Some (sales s !! saleId))
     | None => true
     end.

(** The error of a stock write the database refuses. *)
Definition refusal (p' : Product.t) (e : InventoryLog.t) : Exn :=
  if int4 (Product.quantity p') && int4 (InventoryLog.quantity e)
     && int4 (InventoryLog.previousStock e) && int4 (InventoryLog.newStock e)
  then P2003 "inventory_logs_saleId_fkey (index)" else P2020.

(** What the quantity field of an entry written by [op] must be: the
    magnitude [|target - current|] for an adjustment, where [target] is
    the requested quantity and [current] the entry's [previousStock];
    strictly positive for every other operation. *)
Definition entry_quantity_ok (op : Op) (e : InventoryLog.t) : Prop :=
  match op with
  | AdjustStock req =>
      quantity req = Some (InventoryLog.newStock e) ∧
      0 <= InventoryLog.newStock e ∧
      InventoryLog.quantity e
        = Z.abs (InventoryLog.newStock e - InventoryLog.previousStock e) ∧
      (0 < InventoryLog.quantity e ↔
       InventoryLog.newStock e ≠ InventoryLog.previousStock e)
  | _ => 0 < InventoryLog.quantity e
  end.

Definition new_entry_quantity_ok (op : Op) (st : Store * Store) : Prop :=
  ∀ e, inventoryLogs st.2 = e :: inventoryLogs st.1 →
       Product.quantity <$> (products st.1 !! InventoryLog.productId e)
         = Some (InventoryLog.previousStock e) ∧
       entry_quantity_ok op e.

(** The steps of a sequence of operations, each with the operation that
    makes it. *)
Fixpoint exec_by (ops : list Op) (s : Store) : list (Op * (Store * Store)) :=
  match ops with
  | [] => []
  | op :: ops' =>
      map (pair op) (steps (handler op) s) ++ exec_by ops' (run (handler op) s).2
  end.

(** Two stores with the same business tables (the audit trail apart). *)
Definition same_tables (s1 s2 : Store) : Prop :=
  products s1 = products s2 ∧ inventoryLogs s1 = inventoryLogs s2 ∧
  sales s1 = sales s2 ∧ customers s1 = customers s2.



(** The three pairs of the transition table. *)
Definition allowed_transition (from : SaleStatus) (to : string) : Prop :=
  (from = PENDING ∧ to = "COMPLETED") ∨ (from = PENDING ∧ to = "CANCELLED") ∨
  (from = COMPLETED ∧ to = "REFUNDED").

(** The units of [productId] among the line items of a sale. *)
Definition returned_quantity (productId : string) (items : list SaleItem.t) : Z :=
  fold_right (λ item acc, if decide (SaleItem.productId item = productId)
                          then SaleItem.quantity item + acc else acc) 0 items.

(** The stock can take the units of [items] back: every line is positive,
    its product is there with a quantity that is not negative, and that
    quantity with all the units of the product on the lines added is
    within the range of the [INTEGER] column. *)
Definition restock_fits (s : Store) (items : list SaleItem.t) : Prop :=
  Forall (λ item,
            0 < SaleItem.quantity item ∧
            ∃ p, products s !! SaleItem.productId item = Some p ∧
                 0 <= Product.quantity p ∧
                 Product.quantity p
                 + returned_quantity (SaleItem.productId item) items
                 <= 2147483647) items.

(** All the units in stock, and all the units on the lines of a sale. *)
Definition total_stock (s : Store) : Z :=
  map_fold (λ _ p acc, Product.quantity p + acc) 0 (products s).

Definition total_quantity (items : list SaleItem.t) : Z :=
  fold_right (λ item acc, SaleItem.quantity item + acc) 0 items.

(** The stock-out as the design document describes it, for comparison:
    the current quantity is read, checked and written in one isolated
    transaction, a single database step. *)
Definition stockOut_isolated (req : StockRequest) : Proc Response :=
  try_catch
    (let reason := default "Stock out" (reason req) in
     if negb (truthy_str (user req)) then
       ok (sendResponse 400 "Authentication required" NoData)
     else if negb (truthy_str (productId req)) || negb (truthy_num (quantity req)) then
       ok (sendResponse 400 "Product ID and quantity are required" NoData)
     else
       let userId := default "" (user req) in
       let productId := default "" (productId req) in
       let quantity := default 0 (quantity req) in
       if quantity <=? 0 then
         ok (sendResponse 400 "Quantity must be greater than 0" NoData)
       else
         result ←! commit (λ s,
           match findActiveProduct productId s with
           | None => inl (Error "Product not found or inactive")
           | Some product =>
               let previousStock := Product.quantity product in
               if previousStock <? quantity then inl (Error "Insufficient stock")
               else
                 let newStock := previousStock - quantity in
                 write_stock productId (Product.set_quantity newStock)
                   (InventoryLog.mk STOCK_OUT quantity previousStock newStock
                      reason productId userId None) s
           end);
         ok (sendResponse 200 "Stock removed successfully"
               (StockData productId result.1 result.2)))
    (fun error =>
       if String.eqb (exn_message error) "Product not found or inactive" then
         sendResponse 404 "Product not found or inactive" NoData
       else if String.eqb (exn_message error) "Insufficient stock" then
         sendResponse 400 "Insufficient stock" NoData
       else sendResponse 500 "Internal server error" NoData).

(** One call answered 200, the other refused for lack of stock. *)
Definition one_success_one_refusal (a b : Response) : Prop :=
  (statusCode a = 200 ∧ b = sendResponse 400 "Insufficient stock" NoData) ∨
  (statusCode b = 200 ∧ a = sendResponse 400 "Insufficient stock" NoData).

(** Case analysis on the first [n] entries of a schedule. *)
Ltac split_sched sched n :=
  match n with
  | O => idtac
  | S ?n' => destruct sched as [|[|] sched]; [| split_sched sched n' | split_sched sched n']
  end.

(** ** Requests that do not look at the audit trail *)

(** [blind p]: no database step of [p] depends on the audit trail or on
    the audit sink.  On two stores with the same business tables a step
    leaves stores with the same business tables, and the request goes on
    in the same way. *)
Inductive blind {A} : Proc A → Prop :=
| blind_Ret a : blind (Ret a)
| blind_Atomic w k :
    (∀ s s', same_tables s s' → same_tables (w s) (w s') ∧ k s = k s') →
    (∀ s, blind (k s)) → blind (Atomic w k).

(** The same result of a transaction, up to the audit trail. *)
Definition same_outcome {A} (r r' : Exn + (A * Store)) : Prop :=
  match r, r' with
  | inr (a, t), inr (a', t') => a = a' ∧ same_tables t t'
  | inl e, inl e' => e = e'
  | _, _ => False
  end.

(** A store whose audit sink refuses every record. *)
Definition broken_sink : AuditSink := λ _ _, false.

Definition with_auditSink (sink : AuditSink) (s : Store) : Store :=
  mkStore (products s) (inventoryLogs s) (sales s) (customers s) (auditLogs s)
          sink.

(** ** Concrete stores and requests *)

Definition demo_product : Product.t :=
  Product.mk "Widget" "W-1" (999 # 100) (5 # 1) 5 true.

(** An audit sink that takes every record. *)
Definition reliable_sink : AuditSink := λ _ _, true.

Definition demo_store : Store :=
  mkStore {[ "P" := demo_product ]} [] ∅ ∅ [] reliable_sink.


Definition demo_env : Env := mkEnv 1700000000000 7 "S1".


(** Scenario B of the design document: three units of [P] at 9.99. *)
Definition demo_sale_request : CreateSaleRequest :=
  mkCreateSaleRequest (Some "u") None [mkSaleItemInput "P" 3 None]
    (Some "CASH") None None.

Definition demo_sale : Sale.t :=
  Sale.mk "SALE-1700000000000-007" (2997 # 100) 0%Q 0%Q (2997 # 100) CASH
    COMPLETED 1700000000000 "u" None
    [SaleItem.mk "P" 3 (999 # 100) (2997 # 100)].

(** A store that holds this sale: two units of [P] are left. *)
Definition sold_store : Store :=
  mkStore {[ "P" := Product.set_quantity 2 demo_product ]}
    [InventoryLog.mk SALE 3 5 2 "Sale" "P" "u" (Some "S1")]
    {[ "S1" := demo_sale ]} ∅
    [AuditLog.mk "u" "SALE_CREATE" "Sale" "S1";
     AuditLog.mk "u" "SALE_STOCK_UPDATE" "Product" "P"]
    reliable_sink.

Definition refund_request : UpdateStatusRequest :=
  mkUpdateStatusRequest (Some "u") (Some "S1") (Some "REFUNDED") None.

Definition later_env : Env := mkEnv 1700000060000 8 "S2".

(** Two stock-outs of 7 against 10 units. *)
Definition stock10 : Store :=
  mkStore {[ "P" := Product.set_quantity 10 demo_product ]} [] ∅ ∅ []
    reliable_sink.

Definition stockOut7 : StockRequest :=
  mkStockRequest (Some "u") (Some "P") (Some 7) None None.

(** A completed sale of one unit of [A] and one of [B], in a store where
    [B] is at the top of the range of its [INTEGER] column. *)
Definition sale_of_A_and_B : Sale.t :=
  Sale.mk "SALE-1700000000000-007" (3 # 1) 0%Q 0%Q (3 # 1) CASH
    COMPLETED 1700000000000 "u" None
    [SaleItem.mk "A" 1 (1 # 1) (1 # 1); SaleItem.mk "B" 1 (2 # 1) (2 # 1)].

Definition full_shelf_store : Store :=
  mkStore {[ "A" := Product.mk "Apple" "A-1" (1 # 1) (1 # 2) 5 true;
             "B" := Product.mk "Banana" "B-1" (2 # 1) (1 # 1) 2147483647 true ]}
    [] {[ "S1" := sale_of_A_and_B ]} ∅ [] reliable_sink.

(** A pending sale of one unit of [P], with [P] at the top of the range,
    and its cancellation. *)
Definition pending_sale_of_P : Sale.t :=
  Sale.mk "SALE-1700000000000-008" (999 # 100) 0%Q 0%Q (999 # 100) CASH
    PENDING 1700000000000 "u" None
    [SaleItem.mk "P" 1 (999 # 100) (999 # 100)].

Definition full_P_store : Store :=
  mkStore {[ "P" := Product.set_quantity 2147483647 demo_product ]}
    [] {[ "S8" := pending_sale_of_P ]} ∅ [] reliable_sink.

Definition cancel_S8 : UpdateStatusRequest :=
  mkUpdateStatusRequest (Some "u") (Some "S8") (Some "CANCELLED") None.

(** Both requests read, in and out of their transactions, before either
    commits. *)
Definition both_read_first : list bool := [true; true; false; false].

Definition demo_ops : list Op :=
  [StockOut (mkStockRequest (Some "u") (Some "P") (Some 1) None None);
   CreateSale demo_env demo_sale_request;
   AdjustStock (mkStockRequest (Some "u") (Some "P") (Some 1) None None);
   UpdateSaleStatus later_env refund_request].

(** ** Read side of the inventory controller *)

(** The [where] clause the log queries build from the query string: a
    column is constrained when the parameter is given.  The rows of this
    model carry no creation time, so the clauses considered have no date
    range. *)
Record LogWhere := mkLogWhere {
  where_productId : option string;
  where_type : option InventoryLogType;
  where_performedById : option string;
  where_saleId : option string;
}.

Definition where_matches (w : LogWhere) (e : InventoryLog.t) : bool :=
  match where_productId w with
  | Some x => bool_decide (InventoryLog.productId e = x) | None => true end
  && match where_type w with
     | Some x => bool_decide (InventoryLog.type e = x) | None => true end
  && match where_performedById w with
     | Some x => bool_decide (InventoryLog.performedById e = x) | None => true end
  && match where_saleId w with
     | Some x => bool_decide (InventoryLog.saleId e = Some x) | None => true end.

(** One row of [inventoryLog.groupBy({ by: ["type"], where,
    _sum: { quantity: true }, _count: { id: true } })]. *)
Record LogGroup := mkLogGroup {
  group_type : InventoryLogType;
  sum_quantity : Z;
  count_id : Z;
}.

Definition InventoryLogTypes : list InventoryLogType :=
  [STOCK_IN; STOCK_OUT; SALE; RETURN; DAMAGE; ADJUSTMENT].

Definition sum_quantities (rows : list InventoryLog.t) : Z :=
  foldr (λ e acc, InventoryLog.quantity e + acc) 0 rows.

(** The rows [where] selects that have the type [t]. *)
Definition rows_of_type (w : LogWhere) (t : InventoryLogType)
    (logs : list InventoryLog.t) : list InventoryLog.t :=
  List.filter (λ e, where_matches w e && bool_decide (InventoryLog.type e = t)) logs.

(** [groupBy]: one group for every type that has a selected row. *)
Definition groupBy_type (w : LogWhere) (logs : list InventoryLog.t)
  : list LogGroup :=
  omap (λ t, match rows_of_type w t logs with
             | [] => None
             | rows => Some (mkLogGroup t (sum_quantities rows)
                                        (Z.of_nat (length rows)))
             end) InventoryLogTypes.

Record InventorySummary := mkInventorySummary {
  totalStockIn : Z;
  totalStockOut : Z;
  totalSales : Z;
  totalReturns : Z;
  netChange : Z;
  logCount : Z;
}.

(** [summary.find((s) => s.type === t)?._sum.quantity || 0]. *)
Definition sum_for (t : InventoryLogType) (summary : list LogGroup) : Z :=
  let found :=
    sum_quantity <$> List.find (λ g, bool_decide (group_type g = t)) summary in
  if truthy_num found then default 0 found else 0.

Definition getInventorySummary (w : LogWhere) : Proc InventorySummary :=
  summary ← query (λ s, groupBy_type w (inventoryLogs s));
  let totalStockIn := sum_for STOCK_IN summary in
  let totalStockOut := sum_for STOCK_OUT summary in
  let totalSales := sum_for SALE summary in
  let totalReturns := sum_for RETURN summary in
  mret (mkInventorySummary totalStockIn totalStockOut totalSales totalReturns
          (totalStockIn - totalStockOut - totalSales + totalReturns)
          (foldl (λ acc curr, acc + count_id curr) 0 summary)).

(** The clause [{ productId }]. *)
Definition where_product (productId : string) : LogWhere :=
  mkLogWhere (Some productId) None None None.

(** The stored quantity of a product (zero when there is no such row). *)
Definition stock_of (productId : string) (s : Store) : Z :=
  default 0 (Product.quantity <$> products s !! productId).

(** What an entry says it did to the stock: [+quantity] for [STOCK_IN] and
    [RETURN], [-quantity] for [STOCK_OUT] and [SALE]. *)
Definition signed_quantity (e : InventoryLog.t) : Z :=
  match InventoryLog.type e with
  | STOCK_IN | RETURN => InventoryLog.quantity e
  | STOCK_OUT | SALE => - InventoryLog.quantity e
  | DAMAGE | ADJUSTMENT => 0
  end.

(** The signed quantities of the selected rows, added up. *)
Definition net_of (w : LogWhere) (logs : list InventoryLog.t) : Z :=
  foldr (λ e acc, if where_matches w e then signed_quantity e + acc else acc) 0 logs.

(** What the ledger does not account for: the stored quantity of a product
    less the net change its entries add up to. *)
Definition balance (productId : string) (s : Store) : Z :=
  stock_of productId s - net_of (where_product productId) (inventoryLogs s).

(** ** What the core operations leave alone *)

(** The columns of a product no stock operation writes. *)
Definition master (p : Product.t) : string * string * Decimal * bool :=
  (Product.name p, Product.sku p, Product.price p, Product.isActive p).

Definition catalogue (s : Store) : gmap string (string * string * Decimal * bool) :=
  master <$> products s.

(** The ledger and the audit trail of [s0] are still in [s], under what was
    appended since. *)
Definition history_kept (s0 s : Store) : Prop :=
  inventoryLogs s0 `suffix_of` inventoryLogs s ∧
  auditLogs s0 `suffix_of` auditLogs s.

(** A status [updateSaleStatus] can write over a row it read as [old]. *)
Definition status_after (old : Sale.t) (st : SaleStatus) : Prop :=
  isValidStatusTransition (Sale.status old) (SaleStatus_name st) = true.

(** Every sale is completed or refunded. *)
Definition no_pending_or_cancelled (s : Store) : Prop :=
  ∀ id sale, sales s !! id = Some sale →
    Sale.status sale = COMPLETED ∨ Sale.status sale = REFUNDED.

(** Two rows of [sales] that differ at most in [status] and [updatedAt]. *)
Definition same_sale_record (old new : Sale.t) : Prop :=
  Sale.saleNumber new = Sale.saleNumber old ∧
  Sale.totalAmount new = Sale.totalAmount old ∧
  Sale.taxAmount new = Sale.taxAmount old ∧
  Sale.discount new = Sale.discount old ∧
  Sale.finalAmount new = Sale.finalAmount old ∧
  Sale.paymentMethod new = Sale.paymentMethod old ∧
  Sale.staffId new = Sale.staffId old ∧
  Sale.customerId new = Sale.customerId old ∧
  Sale.items new = Sale.items old.

(** The statuses with no way out in [validTransitions]. *)
Definition closed_status (st : SaleStatus) : Prop :=
  st = CANCELLED ∨ st = REFUNDED.

(** ** Stock moved by the ledger loop *)

(** The units of [productId] on a list of (product, quantity) lines. *)
Definition moved (productId : string) (lines : list (string * Z)) : Z :=
  foldr (λ it acc, if decide (it.1 = productId) then it.2 + acc else acc) 0 lines.

(** The product row with [delta] units more (less, when negative). *)
Definition move_stock (delta : Z) (p : Product.t) : Product.t :=
  Product.set_quantity (Product.quantity p + delta) p.


Definition sale_lines (items : list SaleItem.t) : list (string * Z) :=
  map (λ item, (SaleItem.productId item, SaleItem.quantity item)) items.

(** The ledger entry of one line. *)
Definition entry_of_line (type : InventoryLogType) (saleId userId : string)
    (line : string * Z) (e : InventoryLog.t) : Prop :=
  InventoryLog.type e = type ∧ InventoryLog.productId e = line.1 ∧
  InventoryLog.quantity e = line.2 ∧ InventoryLog.saleId e = Some saleId ∧
  InventoryLog.performedById e = userId ∧ entry_signed e.

(** ** Requests that pass the input checks of [createSale] *)

(** The request is authenticated, names a payment method, has at least one
    line, every line has a product id and a positive quantity, and the
    customer, when one is given, exists. *)
Definition well_formed_sale (req : CreateSaleRequest) (s : Store) : Prop :=
  truthy_str (cs_user req) = true ∧
  truthy_str (cs_paymentMethod req) = true ∧
  cs_items req ≠ [] ∧
  Forall (λ item, item_productId item ≠ "" ∧ 0 < item_quantity item)
    (cs_items req) ∧
  (truthy_str (cs_customerId req) = true →
   default "" (cs_customerId req) ∈ customers s).

(** The line can be sold from the store: its product is active and has the
    units. *)
Definition line_available (s : Store) (item : SaleItemInput) : Prop :=
  ∃ p, products s !! item_productId item = Some p ∧
       Product.isActive p = true ∧ item_quantity item <= Product.quantity p.

(** The message of the stock refusal of [createSale]. *)
Definition short_stock_message (p : Product.t) (item : SaleItemInput) : string :=
  "Insufficient stock for " +:+ Product.name p
  +:+ ". Available: " +:+ pretty (Product.quantity p)
  +:+ ", Requested: " +:+ pretty (item_quantity item).

(** ** Paging of the listing handlers

    [getInventoryLogs], [getProductInventoryLogs], [getSales] and
    [searchSales] page their result with the same block.  [page] and
    [limit] are what [parseInt] gives for the query parameters: an
    integer, or [NaN] ([None]) when the parameter does not start with a
    number.  [Math.max], [Math.min] and the arithmetic give [NaN] when an
    argument is [NaN]. *)

(** [Math.max(1, parseInt(page))]. *)
Definition pageNum (page : option Z) : option Z := Z.max 1 <$> page.

(** [Math.min(100, Math.max(1, parseInt(limit)))]. *)
Definition limitNum (limit : option Z) : option Z :=
  Z.min 100 <$> (Z.max 1 <$> limit).

(** [(pageNum - 1) * limitNum]. *)
Definition skip (pageNum limitNum : option Z) : option Z :=
  pn ← pageNum; ln ← limitNum; Some ((pn - 1) * ln).

(** [Math.ceil(a / b)] for integers [a] and [b > 0]. *)
Definition Math_ceil_div (a b : Z) : Z := - ((- a) / b).

Record Pagination := mkPagination {
  currentPage : Z;
  totalPages : Z;
  totalCount : Z;
  hasNext : bool;
  hasPrev : bool;
  limit : Z;
}.

Definition pagination (pageNum limitNum totalCount : Z) : Pagination :=
  let totalPages := Math_ceil_div totalCount limitNum in
  mkPagination pageNum totalPages totalCount
    (pageNum <? totalPages) (1 <? pageNum) limitNum.

(** [findMany({ where, skip, take, orderBy })] on the selected rows in the
    requested order.  The client refuses a [skip] or a [take] that is
    [NaN], and the query throws. *)
Definition findMany_page {A} (rows : list A) (skip take : option Z)
  : option (list A) :=
  skip ← skip; take ← take;
  Some (firstn (Z.to_nat take) (List.skipn (Z.to_nat skip) rows)).

(** The page a listing handler returns for [page] and [limit], and the
    pagination record that goes with it; [None] when the query throws
    (the handler then answers 500). *)
Definition page_of {A} (rows : list A) (page limit : option Z)
  : option (list A * Pagination) :=
  let pageNum := pageNum page in
  let limitNum := limitNum limit in
  logs ← findMany_page rows (skip pageNum limitNum) limitNum;
  pn ← pageNum; ln ← limitNum;
  Some (logs, pagination pn ln (Z.of_nat (length rows))).

(** ** Product controller: [updateStock]

    The other writer of [quantity] and of the ledger
    ([PATCH /products/:id/stock]).  It reads the product inside its
    transaction, does not look at [isActive], and writes no audit record. *)

(** [sendResponse] with a payload of another type than [Payload]. *)
Record Reply (A : Type) := mkReply {
  reply_status : Z;
  reply_success : bool;
  reply_message : string;
  reply_data : option A;
}.

Arguments mkReply {A} _ _ _ _.
Arguments reply_status {A} _.
Arguments reply_success {A} _.
Arguments reply_message {A} _.
Arguments reply_data {A} _.

Definition sendReply {A} (statusCode : Z) (message : string) (data : option A)
  : Reply A :=
  mkReply statusCode ((200 <=? statusCode) && (statusCode <? 300)) message data.

(** [su_quantity] is the body's [quantity] when it is a number. *)
Record UpdateStockRequest := mkUpdateStockRequest {
  su_user : option string;
  su_id : option string;            (* req.params.id *)
  su_quantity : option Z;
  su_type : option string;
  su_reason : option string;
}.

(** [validTypes.includes(type)]. *)
Definition validTypes (type : option string) : option InventoryLogType :=
  match type with
  | Some x =>
      if String.eqb x "STOCK_IN" then Some STOCK_IN
      else if String.eqb x "STOCK_OUT" then Some STOCK_OUT
      else if String.eqb x "ADJUSTMENT" then Some ADJUSTMENT
      else None
  | None => None
  end.

Definition updateStock (req : UpdateStockRequest) : Proc (Reply Product.t) :=
  try_catch
    (let reason := default "Stock adjustment" (su_reason req) in
     if negb (truthy_str (su_user req)) then
       ok (sendReply 400 "Authentication required" None)
     else if negb (truthy_str (su_id req)) then
       ok (sendReply 400 "Product ID is required" None)
     else if negb (truthy_num (su_quantity req)) then
       ok (sendReply 400 "Valid quantity is required" None)
     else
       let userId := default "" (su_user req) in
       let id := default "" (su_id req) in
       let quantity := default 0 (su_quantity req) in
       if quantity <=? 0 then
         ok (sendReply 400 "Quantity must be greater than 0" None)
       else
         match validTypes (su_type req) with
         | None => ok (sendReply 400 "Invalid inventory log type" None)
         | Some type =>
             (* prisma.$transaction *)
             product ← query (findProduct id);
             match product with
             | None => throw (Error "Product not found")
             | Some product =>
                 let previousStock := Product.quantity product in
                 let newStock : Exn + Z :=
                   match type with
                   | STOCK_IN => inr (previousStock + quantity)
                   | STOCK_OUT =>
                       if previousStock <? quantity
                       then inl (Error "Insufficient stock")
                       else inr (previousStock - quantity)
                   | ADJUSTMENT => inr quantity
                   | _ => inr previousStock
                   end in
                 match newStock with
                 | inl error => throw error
                 | inr newStock =>
                     if newStock <? 0 then throw (Error "Stock cannot be negative")
                     else
                       result ←! commit (write_stock id
                           (Product.set_quantity newStock)
                           (InventoryLog.mk type quantity previousStock newStock
                              reason id userId None));
                       ok (sendReply 200 "Stock updated successfully"
                             (Some result.1))
                 end
             end
         end)
    (fun error =>
       if String.eqb (exn_message error) "Product not found" then
         sendReply 404 "Product not found" None
       else if String.eqb (exn_message error) "Insufficient stock" then
         sendReply 400 "Insufficient stock" None
       else if String.eqb (exn_message error) "Stock cannot be negative" then
         sendReply 400 "Stock cannot be negative" None
       else sendReply 500 "Internal server error" None).

(** ** What a successful operation reports *)

(** The status code of success, and the audit record the handler writes
    last. *)
Definition success_code (op : Op) : Z :=
  match op with
  | CreateSale _ _ => 201
  | _ => 200
  end.

Definition audit_record (op : Op) : AuditLog.t :=
  match op with
  | StockIn req =>
      AuditLog.mk (default "" (user req)) "STOCK_IN" "Product"
        (default "" (productId req))
  | StockOut req =>
      AuditLog.mk (default "" (user req)) "STOCK_OUT" "Product"
        (default "" (productId req))
  | AdjustStock req =>
      AuditLog.mk (default "" (user req)) "STOCK_ADJUSTMENT" "Product"
        (default "" (productId req))
  | CreateSale env req =>
      AuditLog.mk (default "" (cs_user req)) "SALE_CREATE" "Sale" (newId env)
  | UpdateSaleStatus env req =>
      AuditLog.mk (default "" (us_user req)) "SALE_STATUS_UPDATE" "Sale"
        (default "" (us_id req))
  end.

(** ** Role guards of the routes ([auth.middleware]) *)

Inductive UserRole := SUPERADMIN | ADMIN | STAFF | CUSTOMER.

Global Instance UserRole_eq_dec : EqDecision UserRole.
Proof. solve_decision. Defined.

Definition UserRole_name (r : UserRole) : string :=
  match r with
  | SUPERADMIN => "SUPERADMIN"
  | ADMIN => "ADMIN"
  | STAFF => "STAFF"
  | CUSTOMER => "CUSTOMER"
  end.

(** What a middleware does: it calls [next()], or it answers. *)
Inductive Guard :=
| Next
| Deny (status : Z) (error : string).

(** [role] is [req.user.role], [None] when [req.user] is not set. *)
Definition restrictTo (allowedRoles : list string) (role : option UserRole)
  : Guard :=
  match role with
  | None => Deny 401 "Unauthorized. User not found"
  | Some userRole =>
      if negb (existsb (String.eqb (UserRole_name userRole)) allowedRoles) then
        Deny 403 ("Access denied. Required roles: "
                  +:+ String.concat ", " allowedRoles)
      else Next
  end.

Definition isAdmin (role : option UserRole) : Guard :=
  match role with
  | None => Deny 401 "Unauthorized"
  | Some userRole =>
      if bool_decide (userRole ≠ ADMIN) && bool_decide (userRole ≠ SUPERADMIN)
      then Deny 403 "Access denied. Admin role required"
      else Next
  end.

Definition isSuperAdmin (role : option UserRole) : Guard :=
  match role with
  | None => Deny 401 "Unauthorized"
  | Some userRole =>
      if bool_decide (userRole ≠ SUPERADMIN)
      then Deny 403 "Access denied. SUPER_ADMIN required"
      else Next
  end.

(** The status a guard answers with ([None] when it lets the request
    through). *)
Definition guard_status (g : Guard) : option Z :=
  match g with
  | Next => None
  | Deny status _ => Some status
  end.

(** ** More concrete stores and requests *)

(** The refund of the demo sale, and the store and the row it leaves. *)
Definition refund_ops : list Op := [UpdateSaleStatus later_env refund_request].

Definition refunded_store : Store := exec_final refund_ops sold_store.

Definition refunded_sale : Sale.t := Sale.set_status REFUNDED 1700000060000 demo_sale.

(** Sales that are refused: a product that is not there, more units than
    there are, the same product twice. *)
Definition line_P1 : SaleItemInput := mkSaleItemInput "P" 1 None.
Definition line_Q1 : SaleItemInput := mkSaleItemInput "Q" 1 None.
Definition line_P6 : SaleItemInput := mkSaleItemInput "P" 6 None.

Definition unknown_product_request : CreateSaleRequest :=
  mkCreateSaleRequest (Some "u") None [line_P1; line_Q1] (Some "CASH") None None.

Definition short_stock_request : CreateSaleRequest :=
  mkCreateSaleRequest (Some "u") None [line_P6] (Some "CASH") None None.


(** Stock requests on the demo product. *)
Definition stock_request (productId : string) (quantity : Z) : StockRequest :=
  mkStockRequest (Some "u") (Some productId) (Some quantity) None None.

(** Requests to [updateStock], and a store whose product is inactive. *)
Definition update_stock_request (type : string) (quantity : Z)
  : UpdateStockRequest :=
  mkUpdateStockRequest (Some "u") (Some "P") (Some quantity) (Some type) None.

Definition inactive_product : Product.t :=
  Product.mk "Widget" "W-1" (999 # 100) (5 # 1) 5 false.

Definition inactive_store : Store :=
  mkStore {[ "P" := inactive_product ]} [] ∅ ∅ [] reliable_sink.

(** A pending sale of two units of [P], and its cancellation. *)
Definition pending_sale : Sale.t :=
  Sale.mk "SALE-1600000000000-001" (1998 # 100) 0%Q 0%Q (1998 # 100) CASH
    PENDING 1600000000000 "u" None
    [SaleItem.mk "P" 2 (999 # 100) (1998 # 100)].

Definition pending_store : Store :=
  mkStore {[ "P" := demo_product ]} [] {[ "S9" := pending_sale ]} ∅ []
    reliable_sink.

Definition cancel_request : UpdateStatusRequest :=
  mkUpdateStatusRequest (Some "admin") (Some "S9") (Some "CANCELLED") None.

(** The clock and the random draw of the demo sale, once more. *)
Definition same_draw_env : Env := mkEnv 1700000000000 7 "S2".

(** A sale of one unit of [P], and a request to reopen the demo sale. *)
Definition one_unit_request : CreateSaleRequest :=
  mkCreateSaleRequest (Some "u") None [line_P1] (Some "CASH") None None.

Definition reopen_request : UpdateStatusRequest :=
  mkUpdateStatusRequest (Some "u") (Some "S1") (Some "PENDING") None.

(** The demo store with an audit sink that is down. *)
Definition unaudited_store : Store := with_auditSink broken_sink demo_store.

(** Forty-five rows to page through. *)
Definition rows45 : list Z := seqZ 1 45.
(** * Proofs *)

(** ** General facts about resumptions *)

Lemma run_bind {A B} (f : A → Proc B) (p : Proc A) s :
  run (proc_bind f p) s = run (f (run p s).1) (run p s).2.
Proof.
  revert s. induction p as [a|w k IH]; intros s; simpl; [done|]. apply IH.
Qed.

Lemma steps_bind {A B} (f : A → Proc B) (p : Proc A) s :
  steps (proc_bind f p) s = steps p s ++ steps (f (run p s).1) (run p s).2.
Proof.
  revert s. induction p as [a|w k IH]; intros s; simpl; [done|].
  by rewrite IH.
Qed.

Lemma run_mbind {A B} (f : A → Proc B) (p : Proc A) s :
  run (p ≫= f) s = run (f (run p s).1) (run p s).2.
Proof. apply run_bind. Qed.

Lemma steps_mbind {A B} (f : A → Proc B) (p : Proc A) s :
  steps (p ≫= f) s = steps p s ++ steps (f (run p s).1) (run p s).2.
Proof. apply steps_bind. Qed.

Lemma run_and_then {A B} (p : Proc (Exn + A)) (f : A → Proc (Exn + B)) s :
  run (and_then p f) s =
  match (run p s).1 with
  | inr a => run (f a) (run p s).2
  | inl e => (inl e, (run p s).2)
  end.
Proof. unfold and_then. rewrite run_mbind. by destruct (run p s).1. Qed.

Lemma steps_and_then {A B} (p : Proc (Exn + A)) (f : A → Proc (Exn + B)) s :
  steps (and_then p f) s =
  steps p s ++ match (run p s).1 with
               | inr a => steps (f a) (run p s).2
               | inl e => []
               end.
Proof. unfold and_then. rewrite steps_mbind. by destruct (run p s).1. Qed.

Lemma run_try_catch {A} (body : Proc (Exn + A)) h s :
  run (try_catch body h) s =
  (match (run body s).1 with inr a => a | inl e => h e end, (run body s).2).
Proof. unfold try_catch. by rewrite run_mbind. Qed.

Lemma steps_try_catch {A} (body : Proc (Exn + A)) h s :
  steps (try_catch body h) s = steps body s.
Proof. unfold try_catch. rewrite steps_mbind. simpl. by rewrite app_nil_r. Qed.


Lemma run_query {A} (f : Store → A) s : run (query f) s = (f s, s).
Proof. done. Qed.

Lemma steps_query {A} (f : Store → A) s : steps (query f) s = [(s, s)].
Proof. done. Qed.

Lemma run_commit {A} (tx : Store → Exn + (A * Store)) s :
  run (commit tx) s =
  match tx s with inr (a, s') => (inr a, s') | inl e => (inl e, s) end.
Proof. simpl. by destruct (tx s) as [e|[a s']]. Qed.

Lemma steps_commit {A} (tx : Store → Exn + (A * Store)) s :
  steps (commit tx) s = [(s, (run (commit tx) s).2)].
Proof. done. Qed.

Lemma run_createAuditLog u a r rid s :
  run (createAuditLog u a r rid) s = (tt, audit_commit u a r rid s).
Proof. done. Qed.

Lemma steps_createAuditLog u a r rid s :
  steps (createAuditLog u a r rid) s = [(s, audit_commit u a r rid s)].
Proof. done. Qed.

(** ** An audit record touches the audit trail only *)

Lemma auditLog_create_products row s :
  products (auditLog_create row s) = products s.
Proof. done. Qed.

Lemma auditLog_create_inventoryLogs row s :
  inventoryLogs (auditLog_create row s) = inventoryLogs s.
Proof. done. Qed.

Lemma auditLog_create_sales row s : sales (auditLog_create row s) = sales s.
Proof. done. Qed.

Lemma auditLog_create_customers row s :
  customers (auditLog_create row s) = customers s.
Proof. done. Qed.

Lemma auditLog_create_auditLogs row s :
  auditLogs (auditLog_create row s)
  = if auditSink s (auditLogs s) row then row :: auditLogs s else auditLogs s.
Proof. done. Qed.

Lemma auditLog_create_refused row s :
  auditSink s (auditLogs s) row = false → auditLog_create row s = s.
Proof. intros H. unfold auditLog_create. rewrite H. by destruct s. Qed.

Lemma ledger_audit_products pid u ty s :
  products (ledger_audit pid u ty s) = products s.
Proof. apply auditLog_create_products. Qed.

Lemma ledger_audit_sales pid u ty s : sales (ledger_audit pid u ty s) = sales s.
Proof. apply auditLog_create_sales. Qed.


(** ** Steps that keep an invariant *)

Section safe_logic.
Context (I : Store → Prop).

Lemma safe_bind {A B} (Q : A → Prop) (Q' : B → Prop) (f : A → Proc B) p :
  safe I Q p → (∀ a, Q a → safe I Q' (f a)) → safe I Q' (proc_bind f p).
Proof.
  intros Hp Hf. induction Hp as [a Ha|w k Hw Hk IH]; simpl; [by apply Hf|].
  constructor; [done|]. intros s Hs. by apply IH.
Qed.

Lemma safe_mono {A} (Q Q' : A → Prop) p :
  (∀ a, Q a → Q' a) → safe I Q p → safe I Q' p.
Proof.
  intros HQ Hp. induction Hp; constructor; auto.
Qed.

Lemma safe_steps {A} (Q : A → Prop) (p : Proc A) s :
  safe I Q p → I s →
  Forall (λ st, I st.2) (steps p s) ∧ I (run p s).2 ∧ Q (run p s).1.
Proof.
  intros Hp. revert s. induction Hp as [a Ha|w k Hw Hk IH]; intros s Hs; simpl.
  - by repeat split.
  - destruct (IH s Hs (w s) (Hw s Hs)) as (H1 & H2 & H3).
    split; [constructor; [exact (Hw s Hs)|exact H1]|]. by split.
Qed.

Lemma safe_query {A} (Q : A → Prop) (f : Store → A) :
  (∀ s, I s → Q (f s)) → safe I Q (query f).
Proof. intros H. constructor; [done|]. intros s Hs. constructor. auto. Qed.

Lemma safe_commit {A} (tx : Store → Exn + (A * Store)) :
  (∀ s a s', I s → tx s = inr (a, s') → I s') →
  safe I (λ _, True) (commit tx).
Proof.
  intros H. constructor.
  - intros s Hs. destruct (tx s) as [e|[a s']] eqn:E; eauto.
  - intros s Hs. by constructor.
Qed.

Lemma safe_and_then {A B} (Q : A → Prop) (Q' : Exn + B → Prop)
    (p : Proc (Exn + A)) (f : A → Proc (Exn + B)) :
  safe I (λ r, match r with inr a => Q a | inl e => Q' (inl e) end) p →
  (∀ a, Q a → safe I Q' (f a)) →
  safe I Q' (and_then p f).
Proof.
  intros Hp Hf. unfold and_then. eapply safe_bind; [exact Hp|].
  intros [e|a] Ha; [by constructor|by apply Hf].
Qed.

Lemma safe_createAuditLog u a r rid :
  (∀ s l, I s → I (with_auditLogs l s)) →
  safe I (λ _, True) (createAuditLog u a r rid).
Proof.
  intros H. constructor; [|intros; by constructor].
  intros s Hs. by apply H.
Qed.

(** The invariant survives any interleaving of two safe requests. *)
Lemma safe_run2 {A B} (QA : A → Prop) (QB : B → Prop) sched
    (p : Proc A) (q : Proc B) s :
  safe I QA p → safe I QB q → I s → I (run2 sched p q s).2.
Proof.
  revert p q s. induction sched as [|[|] sched IH]; intros p q s Hp Hq Hs.
  - simpl. destruct (run p s) as [a s1] eqn:E1.
    destruct (run q s1) as [b s2] eqn:E2. simpl.
    destruct (safe_steps QA p s Hp Hs) as (_ & H1 & _). rewrite E1 in H1.
    destruct (safe_steps QB q s1 Hq H1) as (_ & H2 & _). by rewrite E2 in H2.
  - destruct Hp as [a Ha|w k Hw Hk]; simpl.
    + destruct (run q s) as [b s'] eqn:E. simpl.
      destruct (safe_steps QB q s Hq Hs) as (_ & H & _). by rewrite E in H.
    + apply IH; auto.
  - destruct Hq as [b Hb|w k Hw Hk]; simpl.
    + destruct (run p s) as [a s'] eqn:E. simpl.
      destruct (safe_steps QA p s Hp Hs) as (_ & H & _). by rewrite E in H.
    + apply IH; auto.
Qed.

End safe_logic.

Lemma Inv_with_auditLogs s l : Inv s → Inv (with_auditLogs l s).
Proof. by intros [H1 H2]. Qed.

Lemma write_stock_Inv id upd l s p' l' s' :
  write_stock id upd l s = inr (p', l', s') →
  Inv s → (∀ p, 0 <= Product.quantity (upd p)) → Inv s'.
Proof.
  unfold write_stock, product_update, inventoryLog_create.
  destruct (products s !! id) as [p|] eqn:Hp; simpl; [|done].
  intros Hw [H1 H2] Hupd.
  assert (products s' = <[id := upd p]> (products s) ∧ sales s' = sales s)
    as [Hps Hss].
  { repeat case_match; by simplify_eq/=. }
  split; [|intros ???; rewrite Hss; apply H2].
  intros id' p'' Hl. rewrite Hps in Hl.
  destruct (decide (id = id')) as [->|Hne].
  - rewrite lookup_insert_eq in Hl. injection Hl as <-. apply Hupd.
  - rewrite lookup_insert_ne in Hl by done. eauto.
Qed.

Lemma findActiveProduct_Some id s p :
  findActiveProduct id s = Some p → products s !! id = Some p ∧ Product.isActive p = true.
Proof.
  unfold findActiveProduct. destruct (products s !! id) as [p'|]; [|done].
  destruct (Product.isActive p') eqn:E; [|done]. by intros [= <-].
Qed.

Lemma stockIn_safe req : safe Inv (λ _, True) (stockIn req).
Proof.
  destruct req as [u pid q r c].
  unfold stockIn, try_catch. cbn [user productId quantity reason costPrice]. cbv zeta.
  eapply safe_bind with (Q := λ _, True); [|by constructor].
  repeat case_match; try by constructor.
  all: eapply safe_bind with (Q := λ o, ∀ p, o = Some p → 0 <= Product.quantity p);
    [apply safe_query; intros s [Hs _] p [Hp _]%findActiveProduct_Some; eauto|].
  all: intros [product|] Hprod; [|by constructor].
  all: eapply safe_bind with (Q := λ _, True); [by apply safe_query|].
  all: intros [locked|] _; [|by constructor].
  all: eapply safe_and_then with (Q := λ _, True);
    [eapply safe_mono; [|apply safe_commit]; [by intros []|]|].
  all: try (intros; eapply safe_bind with (Q := λ _, True); [|by constructor];
            apply safe_createAuditLog; intros; by apply Inv_with_auditLogs).
  all: intros s [p l] s' Hs Hw; eapply write_stock_Inv; [exact Hw|exact Hs|];
    intros p0; simpl; specialize (Hprod _ eq_refl); lia.
Qed.

Lemma stockOut_safe req : safe Inv (λ _, True) (stockOut req).
Proof.
  destruct req as [u pid q r c].
  unfold stockOut, try_catch. cbn [user productId quantity reason costPrice]. cbv zeta.
  eapply safe_bind with (Q := λ _, True); [|by constructor].
  repeat case_match; try by constructor.
  eapply safe_bind with (Q := λ _, True); [by apply safe_query|].
  intros [product|] _; [|by constructor].
  destruct (Product.quantity product <? default 0 q) eqn:Hq; [by constructor|].
  eapply safe_bind with (Q := λ _, True); [by apply safe_query|].
  intros [locked|] _; [|by constructor].
  case_match; [by constructor|].
  eapply safe_and_then with (Q := λ _, True);
    [eapply safe_mono; [|apply safe_commit]; [by intros []|]|].
  - intros s [p l] s' Hs Hw; eapply write_stock_Inv; [exact Hw|exact Hs|].
    intros p0; simpl. lia.
  - intros; eapply safe_bind with (Q := λ _, True); [|by constructor].
    apply safe_createAuditLog; intros; by apply Inv_with_auditLogs.
Qed.

Lemma adjustStock_safe req : safe Inv (λ _, True) (adjustStock req).
Proof.
  destruct req as [u pid q r c].
  unfold adjustStock, try_catch. cbn [user productId quantity reason costPrice]. cbv zeta.
  eapply safe_bind with (Q := λ _, True); [|by constructor].
  repeat case_match; try by constructor.
  eapply safe_bind with (Q := λ _, True); [by apply safe_query|].
  intros [product|] _; [|by constructor].
  eapply safe_bind with (Q := λ _, True); [by apply safe_query|].
  intros [locked|] _; [|by constructor].
  eapply safe_and_then with (Q := λ _, True);
    [eapply safe_mono; [|apply safe_commit]; [by intros []|]|].
  - intros s [p l] s' Hs Hw; eapply write_stock_Inv; [exact Hw|exact Hs|].
    intros p0; simpl. lia.
  - intros; eapply safe_bind with (Q := λ _, True); [|by constructor].
    apply safe_createAuditLog; intros; by apply Inv_with_auditLogs.
Qed.

Lemma createSaleInventoryLog_safe productId quantity saleId userId type :
  (type = RETURN → 0 <= quantity) →
  safe Inv (λ _, True) (createSaleInventoryLog productId quantity saleId userId type).
Proof.
  intros Hret. unfold createSaleInventoryLog.
  eapply safe_bind with (Q := λ o, ∀ p, o = Some p → 0 <= Product.quantity p).
  { apply safe_query. intros s [Hs _] p Hp. eauto. }
  intros [product|] Hprod; [|by constructor].
  specialize (Hprod _ eq_refl). cbv zeta.
  assert (∀ n, (if bool_decide (type = SALE)
                then if Product.quantity product <? quantity
                     then inl (Error ("Insufficient stock for product " +:+ productId))
                     else inr (Product.quantity product - quantity)
                else if bool_decide (type = RETURN)
                     then inr (Product.quantity product + quantity)
                     else inr (Product.quantity product)) = inr n → 0 <= n) as Hn.
  { intros n. repeat case_bool_decide; repeat case_match; intros [= <-];
    try lia. specialize (Hret ltac:(assumption)). lia. }
  destruct (if bool_decide (type = SALE) then _ else _) as [e|newStock];
    [by constructor|].
  specialize (Hn _ eq_refl).
  eapply safe_bind with (Q := λ _, True); [by apply safe_query|].
  intros [locked|] _; [|by constructor].
  case_match; [by constructor|].
  eapply safe_and_then with (Q := λ _, True);
    [eapply safe_mono; [|apply safe_commit]; [by intros []|]|].
  - intros s [p l] s' Hs Hw; eapply write_stock_Inv; [exact Hw|exact Hs|].
    intros p0; simpl. lia.
  - intros; eapply safe_bind with (Q := λ _, True); [|by constructor].
    apply safe_createAuditLog; intros; by apply Inv_with_auditLogs.
Qed.

Lemma ledger_loop_safe items saleId userId type :
  (type = RETURN → Forall (λ it : string * Z, 0 <= it.2) items) →
  safe Inv (λ _, True) (ledger_loop items saleId userId type).
Proof.
  induction items as [|[pid q] items IH]; intros Hq; simpl; [by constructor|].
  eapply safe_and_then with (Q := λ _, True).
  - eapply safe_mono; [|apply createSaleInventoryLog_safe].
    + by intros [].
    + intros Hty. specialize (Hq Hty). by inversion Hq.
  - intros _ _. apply IH. intros Hty. specialize (Hq Hty). by inversion Hq.
Qed.

Lemma validate_items_safe items totalAmount saleItemsData :
  Forall (λ it, 0 < item_quantity it) items →
  Forall (λ l, 0 < SaleItem.quantity l) saleItemsData →
  safe Inv (λ r, ∀ x, r = inr x → Forall (λ l, 0 < SaleItem.quantity l) x.2)
    (validate_items items totalAmount saleItemsData).
Proof.
  revert totalAmount saleItemsData.
  induction items as [|item items IH]; intros t d Hitems Hd; simpl.
  - constructor. by intros x [= <-].
  - inversion Hitems as [|?? Hq Hrest]; subst.
    constructor; [done|]. intros s Hs.
    destruct (findActiveProduct (item_productId item) s) as [product|];
      [|by constructor].
    case_match; [by constructor|].
    apply IH; [done|]. apply Forall_app. split; [done|]. by repeat constructor.
Qed.

Lemma sale_create_items id sn ta tx dc fa pm t st c items s sale :
  sale_create id sn ta tx dc fa pm t st c items s = inr sale →
  Sale.items sale = items.
Proof.
  unfold sale_create. repeat case_match; try done. by intros [= <-].
Qed.

Lemma Inv_insert_sale s id sale :
  Inv s → Forall (λ l, 0 < SaleItem.quantity l) (Sale.items sale) →
  Inv (with_sales (<[id := sale]> (sales s)) s).
Proof.
  intros [H1 H2] Hitems. split; [done|].
  intros id' sale' item Hl Hin. simpl in Hl.
  destruct (decide (id = id')) as [->|Hne].
  - rewrite lookup_insert_eq in Hl. injection Hl as <-.
    by eapply Forall_forall in Hitems.
  - rewrite lookup_insert_ne in Hl by done. eauto.
Qed.

Lemma createSale_safe env req : safe Inv (λ _, True) (createSale env req).
Proof.
  destruct req as [u cid items pm tax disc].
  unfold createSale, try_catch.
  cbn [cs_user cs_customerId cs_items cs_paymentMethod cs_taxAmount cs_discount].
  cbv zeta.
  eapply safe_bind with (Q := λ _, True); [|by constructor].
  destruct (negb (truthy_str u)); [by constructor|].
  destruct (bool_decide (items = [])); [by constructor|].
  destruct (negb (truthy_str pm)); [by constructor|].
  destruct (existsb _ items) eqn:Hex; [by constructor|].
  assert (Forall (λ it, 0 < item_quantity it) items) as Hpos.
  { apply Forall_forall. intros it Hin.
    destruct (decide (0 < item_quantity it)) as [|Hn]; [done|].
    assert (existsb (λ item, String.eqb (item_productId item) "" ||
              (item_quantity item =? 0) || (item_quantity item <=? 0)) items = true)
      as Habs; [|congruence].
    apply existsb_exists. exists it. split; [by apply list_elem_of_In|].
    apply orb_true_iff. right. lia. }
  eapply safe_bind with (Q := λ _, True).
  { destruct (truthy_str cid); [by apply safe_query|by constructor]. }
  intros [] _; [by constructor|].
  eapply safe_and_then with
    (Q := λ x, Forall (λ l, 0 < SaleItem.quantity l) x.2).
  { eapply safe_mono; [|apply validate_items_safe; [done|constructor]].
    intros [e|x] Hx; [done|by apply Hx]. }
  intros [totalAmount saleItemsData] Hdata. simpl in Hdata.
  eapply safe_and_then with (Q := λ sale, Sale.items sale = saleItemsData).
  { apply safe_query. intros s _. case_match eqn:Hsc; [done|].
    by eapply sale_create_items. }
  intros sale Hsale.
  eapply safe_and_then with (Q := λ _, True).
  { eapply safe_mono; [|apply ledger_loop_safe]; [by intros []|done]. }
  intros _ _.
  eapply safe_and_then with (Q := λ _, True).
  { eapply safe_mono; [|apply safe_commit]; [by intros []|].
    intros s a s' Hs [= <- <-]. apply Inv_insert_sale; [done|]. by rewrite Hsale. }
  intros; eapply safe_bind with (Q := λ _, True); [|by constructor].
  apply safe_createAuditLog; intros; by apply Inv_with_auditLogs.
Qed.

Lemma sale_update_Inv id status t s row s' :
  sale_update id status t s = inr (row, s') → Inv s → Inv s'.
Proof.
  unfold sale_update. destruct (parse_SaleStatus status) as [st|]; [|done].
  destruct (sales s !! id) as [old|] eqn:Hold; [|done].
  intros [= <- <-] [H1 H2]. split; [done|].
  intros id' sale' item Hl Hin. simpl in Hl.
  destruct (decide (id = id')) as [->|Hne].
  - rewrite lookup_insert_eq in Hl. injection Hl as <-. simpl in Hin. eauto.
  - rewrite lookup_insert_ne in Hl by done. eauto.
Qed.

Lemma updateSaleStatus_safe env req : safe Inv (λ _, True) (updateSaleStatus env req).
Proof.
  destruct req as [u id st r].
  unfold updateSaleStatus, try_catch. cbn [us_user us_id us_status us_reason].
  cbv zeta.
  eapply safe_bind with (Q := λ _, True); [|by constructor].
  destruct (negb (truthy_str u)); [by constructor|].
  destruct (_ || _); [by constructor|].
  eapply safe_bind with
    (Q := λ o, ∀ sale, o = Some sale →
               Forall (λ l, 0 < SaleItem.quantity l) (Sale.items sale)).
  { apply safe_query. intros s [_ Hs] sale Hsale. apply Forall_forall. eauto. }
  intros [existingSale|] Hex; [|by constructor]. specialize (Hex _ eq_refl).
  destruct (negb _); [by constructor|].
  eapply safe_and_then with (Q := λ _, True).
  { apply safe_query. intros s _. by repeat case_match. }
  intros sale _.
  eapply safe_and_then with (Q := λ _, True).
  { destruct (_ || _); [|by constructor].
    eapply safe_mono; [|apply ledger_loop_safe]; [by intros []|].
    intros _. apply Forall_map. eapply Forall_impl; [exact Hex|]. simpl. lia. }
  intros _ _.
  eapply safe_and_then with (Q := λ _, True).
  { eapply safe_mono; [|apply safe_commit]; [by intros []|].
    intros s a s' Hs Hu. by eapply sale_update_Inv. }
  intros; eapply safe_bind with (Q := λ _, True); [|by constructor].
  apply safe_createAuditLog; intros; by apply Inv_with_auditLogs.
Qed.

Lemma handler_safe op : safe Inv (λ _, True) (handler op).
Proof.
  destruct op; simpl.
  - apply stockIn_safe.
  - apply stockOut_safe.
  - apply adjustStock_safe.
  - apply createSale_safe.
  - apply updateSaleStatus_safe.
Qed.

(** C1.  For every finite sequence of core operations ([stockIn],
    [stockOut], [adjustStock], [createSale], [updateSaleStatus]) run from
    a store in which every product's quantity is at least 0 (and whose
    line items have positive quantities, as the data model has them),
    every store that becomes visible on the way, and the store at the
    end, has every product's quantity at least 0. *)
Theorem quantity_never_negative (ops : list Op) (s : Store) :
  stock_nonneg s → items_positive s →
  Forall (λ st, stock_nonneg st.2) (exec ops s) ∧ stock_nonneg (exec_final ops s).
Proof.
  intros H1 H2. assert (Inv s) as HI by done. clear H1 H2.
  revert s HI. induction ops as [|op ops IH]; intros s HI; simpl.
  - split; [constructor|apply HI].
  - destruct (safe_steps Inv _ (handler op) s (handler_safe op) HI) as (Hs & Hf & _).
    destruct (IH _ Hf) as [IH1 IH2]. split; [|done].
    apply Forall_app. split; [|done].
    eapply Forall_impl; [exact Hs|]. by intros st [].
Qed.

(** X13: no product quantity is negative after two core operations whose
    database steps interleave, whatever the schedule, when none was
    negative before (and the stored line items are positive). *)
Lemma quantity_nonneg_under_interleaving op1 op2 sched s :
  stock_nonneg s → items_positive s →
  stock_nonneg (run2 sched (handler op1) (handler op2) s).2.
Proof.
  intros H1 H2.
  apply (safe_run2 Inv (λ _, True) (λ _, True) sched (handler op1) (handler op2) s);
    [apply handler_safe..|done].
Qed.
(** ** The write part of a stock transaction *)

Lemma write_stock_result id upd l s p :
  products s !! id = Some p → InventoryLog.productId l = id →
  write_stock id upd l s =
  if row_accepted (upd p) l s
  then inr (upd p, l, stock_commit id (upd p) l s)
  else inl (refusal (upd p) l).
Proof.
  intros Hp Hl. unfold write_stock, product_update, inventoryLog_create,
    row_accepted, refusal.
  rewrite Hp. destruct (int4 (Product.quantity (upd p))); simpl; [|done].
  destruct (int4 (InventoryLog.quantity l)); simpl; [|done].
  destruct (int4 (InventoryLog.previousStock l)); simpl; [|done].
  destruct (int4 (InventoryLog.newStock l)); simpl; [|done].
  rewrite Hl, lookup_insert_eq.
  rewrite bool_decide_eq_true_2 by eauto. simpl.
  destruct (InventoryLog.saleId l) as [sid|]; [|done].
  by destruct (bool_decide (is_Some (sales s !! sid))).
Qed.

Lemma write_stock_inr id upd l s r :
  write_stock id upd l s = inr r →
  ∃ p, products s !! id = Some p ∧ row_accepted (upd p) l s = true ∧
       r = (upd p, l, stock_commit id (upd p) l s).
Proof.
  unfold write_stock, product_update, inventoryLog_create, row_accepted.
  destruct (products s !! id) as [p|]; [|done]. intros Hw. exists p.
  destruct (int4 (Product.quantity (upd p))); simpl in *; [|done].
  destruct (int4 (InventoryLog.quantity l)); simpl in *; [|done].
  destruct (int4 (InventoryLog.previousStock l)); simpl in *; [|done].
  destruct (int4 (InventoryLog.newStock l)); simpl in *; [|done].
  destruct (bool_decide (is_Some (_ !! InventoryLog.productId l))); simpl in *;
    [|done].
  destruct (InventoryLog.saleId l) as [sid|]; [|by injection Hw as <-].
  destruct (bool_decide (is_Some (sales s !! sid))); [|done].
  by injection Hw as <-.
Qed.

Lemma refusal_cases p' e :
  refusal p' e = P2020 ∨ refusal p' e = P2003 "inventory_logs_saleId_fkey (index)".
Proof. unfold refusal. case_match; auto. Qed.

Lemma refusal_stock_message p' e :
  String.eqb (exn_message (refusal p' e)) "Product not found or inactive" = false ∧
  String.eqb (exn_message (refusal p' e)) "Insufficient stock" = false.
Proof. unfold refusal. by case_match. Qed.


(** ** The ledger call *)

Lemma run_createSaleInventoryLog productId quantity saleId userId type s :
  run (createSaleInventoryLog productId quantity saleId userId type) s =
  match ledger_write productId quantity saleId userId type s with
  | inr s1 => (inr tt, ledger_audit productId userId type s1)
  | inl e => (inl e, s)
  end.
Proof.
  unfold createSaleInventoryLog, ledger_write, ledger_entry, findProduct.
  simpl. destruct (products s !! productId) as [p|] eqn:Hp; simpl; [|done].
  destruct (bool_decide (type = SALE)) eqn:Hty; simpl.
  - destruct (Product.quantity p <? quantity) eqn:Hq; simpl; [done|].
    rewrite Hp; simpl. rewrite Hq; simpl.
    destruct (write_stock _ _ _ s) as [e|[[p' l'] s']]; simpl; [done|].
    unfold ledger_audit. by rewrite Hty.
  - destruct (bool_decide (type = RETURN)); simpl; rewrite Hp; simpl;
      (destruct (write_stock _ _ _ s) as [e|[[p' l'] s']]; simpl; [done|]);
      unfold ledger_audit; by rewrite Hty.
Qed.

Lemma steps_createSaleInventoryLog productId quantity saleId userId type s :
  steps (createSaleInventoryLog productId quantity saleId userId type) s =
  match ledger_write productId quantity saleId userId type s with
  | inr s1 => [(s, s); (s, s); (s, s1); (s1, ledger_audit productId userId type s1)]
  | inl e =>
      match products s !! productId with
      | None => [(s, s)]
      | Some p =>
          if bool_decide (type = SALE) && (Product.quantity p <? quantity)
          then [(s, s)] else [(s, s); (s, s); (s, s)]
      end
  end.
Proof.
  unfold createSaleInventoryLog, ledger_write, ledger_entry, findProduct.
  simpl. destruct (products s !! productId) as [p|] eqn:Hp; simpl; [|done].
  destruct (bool_decide (type = SALE)) eqn:Hty; simpl.
  - destruct (Product.quantity p <? quantity) eqn:Hq; simpl; [done|].
    rewrite Hp; simpl. rewrite Hq; simpl.
    destruct (write_stock _ _ _ s) as [e|[[p' l'] s']]; simpl; [done|].
    unfold ledger_audit. by rewrite Hty.
  - destruct (bool_decide (type = RETURN)); simpl; rewrite Hp; simpl;
      (destruct (write_stock _ _ _ s) as [e|[[p' l'] s']]; simpl; [done|]);
      unfold ledger_audit; by rewrite Hty.
Qed.

Lemma steps_createSaleInventoryLog_inl productId quantity saleId userId type s e :
  ledger_write productId quantity saleId userId type s = inl e →
  Forall (λ st, st = (s, s))
    (steps (createSaleInventoryLog productId quantity saleId userId type) s).
Proof.
  intros He. rewrite steps_createSaleInventoryLog, He.
  repeat case_match; by repeat constructor.
Qed.

Lemma run_TS_createSaleInventoryLog productId quantity saleId userId type s :
  run (TS.createSaleInventoryLog productId quantity saleId userId type) s =
  match ledger_write productId quantity saleId userId type s with
  | inr s1 => (inr tt, s1)
  | inl e => (inl e, s)
  end.
Proof.
  unfold TS.createSaleInventoryLog, ledger_write, ledger_entry, findProduct.
  simpl. destruct (products s !! productId) as [p|] eqn:Hp; simpl; [|done].
  destruct (bool_decide (type = SALE)) eqn:Hty; simpl.
  - destruct (Product.quantity p <? quantity) eqn:Hq; simpl; [done|].
    by destruct (write_stock _ _ _ s) as [e|[[p' l'] s']].
  - destruct (bool_decide (type = RETURN)); simpl;
      by destruct (write_stock _ _ _ s) as [e|[[p' l'] s']].
Qed.

(** ** The stock operations, case by case *)

Lemma write_stock_Some id upd l s p :
  products s !! id = Some p → InventoryLog.productId l = id →
  row_accepted (upd p) l s = true →
  write_stock id upd l s = inr (upd p, l, stock_commit id (upd p) l s).
Proof. intros Hp Hl Hok. by rewrite (write_stock_result _ _ _ _ _ Hp Hl), Hok. Qed.

Lemma stockIn_cases req s :
  (Forall (λ st, st = (s, s)) (steps (stockIn req) s) ∧
   (run (stockIn req) s).2 = s ∧ statusCode (run (stockIn req) s).1 ≠ 200)
  ∨ ∃ uid pid q p,
      user req = Some uid ∧ productId req = Some pid ∧ quantity req = Some q ∧
      0 < q ∧ products s !! pid = Some p ∧ Product.isActive p = true ∧
      let e := InventoryLog.mk STOCK_IN q (Product.quantity p)
                 (Product.quantity p + q) (default "Stock in" (reason req))
                 pid uid None in
      let p1 := Product.set_quantity (Product.quantity p + q) p in
      let p' := if truthy_dec (costPrice req)
                then Product.set_costPrice (default 0%Q (costPrice req)) p1
                else p1 in
      let s1 := stock_commit pid p' e s in
      let s2 := audit_commit uid "STOCK_IN" "Product" pid s1 in
      steps (stockIn req) s = [(s, s); (s, s); (s, s1); (s1, s2)] ∧
      run (stockIn req) s =
        (sendResponse 200 "Stock added successfully" (StockData pid p' e), s2).
Proof.
  destruct req as [u pid q r c].
  unfold stockIn. rewrite steps_try_catch, run_try_catch.
  cbn [user productId quantity reason costPrice]. cbv zeta.
  destruct (negb (truthy_str u)) eqn:Hu; [left; simpl; by repeat constructor|].
  destruct (_ || _) eqn:Hpq; [left; simpl; by repeat constructor|].
  destruct (default 0 q <=? 0) eqn:Hq; [left; simpl; by repeat constructor|].
  destruct u as [uid|]; [|done]. destruct pid as [pid|]; [|done].
  destruct q as [q|]; [|done]. simpl in Hq. simpl default.
  destruct (findActiveProduct pid s) as [p|] eqn:Hf.
  - apply findActiveProduct_Some in Hf as Hf'. destruct Hf' as [Hp Hact].
    simpl. rewrite Hf. simpl. rewrite Hf. simpl.
    rewrite (write_stock_result _ _ _ _ p) by done.
    destruct (row_accepted _ _ s) eqn:Hok.
    + right. exists uid, pid, q, p. repeat (split; [done || lia|]).
      simpl. destruct (truthy_dec c); simpl; done.
    + left. simpl.
      rewrite (proj1 (refusal_stock_message _ _)). by repeat constructor.
  - left. simpl. rewrite Hf. simpl. by repeat constructor.
Qed.

Lemma stockOut_cases req s :
  (Forall (λ st, st = (s, s)) (steps (stockOut req) s) ∧
   (run (stockOut req) s).2 = s ∧ statusCode (run (stockOut req) s).1 ≠ 200)
  ∨ ∃ uid pid q p,
      user req = Some uid ∧ productId req = Some pid ∧ quantity req = Some q ∧
      0 < q ∧ q <= Product.quantity p ∧
      products s !! pid = Some p ∧ Product.isActive p = true ∧
      let e := InventoryLog.mk STOCK_OUT q (Product.quantity p)
                 (Product.quantity p - q) (default "Stock out" (reason req))
                 pid uid None in
      let p' := Product.set_quantity (Product.quantity p - q) p in
      let s1 := stock_commit pid p' e s in
      let s2 := audit_commit uid "STOCK_OUT" "Product" pid s1 in
      steps (stockOut req) s = [(s, s); (s, s); (s, s1); (s1, s2)] ∧
      run (stockOut req) s =
        (sendResponse 200 "Stock removed successfully" (StockData pid p' e), s2).
Proof.
  destruct req as [u pid q r c].
  unfold stockOut. rewrite steps_try_catch, run_try_catch.
  cbn [user productId quantity reason costPrice]. cbv zeta.
  destruct (negb (truthy_str u)) eqn:Hu; [left; simpl; by repeat constructor|].
  destruct (_ || _) eqn:Hpq; [left; simpl; by repeat constructor|].
  destruct (default 0 q <=? 0) eqn:Hq; [left; simpl; by repeat constructor|].
  destruct u as [uid|]; [|done]. destruct pid as [pid|]; [|done].
  destruct q as [q|]; [|done]. simpl in Hq. simpl default.
  destruct (findActiveProduct pid s) as [p|] eqn:Hf.
  - apply findActiveProduct_Some in Hf as Hf'. destruct Hf' as [Hp Hact].
    destruct (Product.quantity p <? q) eqn:Hlt.
    + left. simpl. rewrite Hf. simpl. rewrite Hlt. simpl. by repeat constructor.
    + simpl. rewrite Hf. simpl. rewrite Hlt. simpl. rewrite Hf. simpl.
      rewrite Hlt. simpl. rewrite (write_stock_result _ _ _ _ p) by done.
      destruct (row_accepted _ _ s) eqn:Hok.
      * right. exists uid, pid, q, p. by repeat (split; [done || lia|]).
      * left. simpl.
        rewrite (proj1 (refusal_stock_message _ _)),
          (proj2 (refusal_stock_message _ _)). by repeat constructor.
  - left. simpl. rewrite Hf. simpl. by repeat constructor.
Qed.

Lemma adjustStock_cases req s :
  (Forall (λ st, st = (s, s)) (steps (adjustStock req) s) ∧
   (run (adjustStock req) s).2 = s ∧ statusCode (run (adjustStock req) s).1 ≠ 200)
  ∨ ∃ uid pid q p,
      user req = Some uid ∧ productId req = Some pid ∧ quantity req = Some q ∧
      0 <= q ∧ products s !! pid = Some p ∧ Product.isActive p = true ∧
      let logType := if Product.quantity p <? q then STOCK_IN else STOCK_OUT in
      let e := InventoryLog.mk logType (Z.abs (q - Product.quantity p))
                 (Product.quantity p) q
                 (default "Stock adjustment" (reason req)) pid uid None in
      let p' := Product.set_quantity q p in
      let s1 := stock_commit pid p' e s in
      let s2 := audit_commit uid "STOCK_ADJUSTMENT" "Product" pid s1 in
      steps (adjustStock req) s = [(s, s); (s, s); (s, s1); (s1, s2)] ∧
      run (adjustStock req) s =
        (sendResponse 200 "Stock adjusted successfully"
           (AdjustData pid p' e logType (Z.abs (q - Product.quantity p))), s2).
Proof.
  destruct req as [u pid q r c].
  unfold adjustStock. rewrite steps_try_catch, run_try_catch.
  cbn [user productId quantity reason costPrice]. cbv zeta.
  destruct (negb (truthy_str u)) eqn:Hu; [left; simpl; by repeat constructor|].
  destruct (_ || _) eqn:Hpq; [left; simpl; by repeat constructor|].
  destruct (default 0 q <? 0) eqn:Hq; [left; simpl; by repeat constructor|].
  destruct u as [uid|]; [|done]. destruct pid as [pid|]; [|done].
  destruct q as [q|];
    [|exfalso; revert Hpq; rewrite bool_decide_eq_true_2 by done;
      by rewrite orb_true_r].
  simpl in Hq. simpl default.
  destruct (findActiveProduct pid s) as [p|] eqn:Hf.
  - apply findActiveProduct_Some in Hf as Hf'. destruct Hf' as [Hp Hact].
    simpl. rewrite Hf. simpl. rewrite Hf. simpl.
    rewrite (write_stock_result _ _ _ _ p) by done.
    destruct (row_accepted _ _ s) eqn:Hok.
    + right. exists uid, pid, q, p. by repeat (split; [done || lia|]).
    + left. simpl.
      rewrite (proj1 (refusal_stock_message _ _)). by repeat constructor.
  - left. simpl. rewrite Hf. simpl. by repeat constructor.
Qed.

(** ** Loops of ledger calls *)

Lemma ledger_write_inr productId quantity saleId userId type s s1 :
  ledger_write productId quantity saleId userId type s = inr s1 →
  ∃ p, products s !! productId = Some p ∧
       (type = SALE → quantity <= Product.quantity p) ∧
       let e := ledger_entry productId quantity saleId userId type
                  (Product.quantity p) in
       s1 = stock_commit productId
              (Product.set_quantity (InventoryLog.newStock e) p) e s.
Proof.
  unfold ledger_write. destruct (products s !! productId) as [p|] eqn:Hp; [|done].
  destruct (bool_decide (type = SALE) && _) eqn:Hc; [done|].
  cbv zeta. rewrite (write_stock_result _ _ _ _ p) by done.
  destruct (row_accepted _ _ s); [|done].
  intros [= <-]. exists p. split; [done|]. split; [|done].
  intros ->. rewrite bool_decide_eq_true_2 in Hc by done. simpl in Hc. lia.
Qed.

(** What the database accepted when a ledger call has written. *)
Lemma ledger_write_accepted productId quantity saleId userId type s s1 :
  ledger_write productId quantity saleId userId type s = inr s1 →
  ∃ p, products s !! productId = Some p ∧
       let e := ledger_entry productId quantity saleId userId type
                  (Product.quantity p) in
       row_accepted (Product.set_quantity (InventoryLog.newStock e) p) e s = true.
Proof.
  unfold ledger_write. destruct (products s !! productId) as [p|] eqn:Hp; [|done].
  destruct (bool_decide (type = SALE) && _) eqn:Hc; [done|].
  cbv zeta. rewrite (write_stock_result _ _ _ _ p) by done.
  destruct (row_accepted _ _ s) eqn:Hok; [|done]. intros _. by exists p.
Qed.

(** A ledger call for a sale that is not committed writes nothing. *)
Lemma ledger_write_uncommitted_sale productId quantity saleId userId type s :
  sales s !! saleId = None →
  ∃ e, ledger_write productId quantity saleId userId type s = inl e.
Proof.
  intros Hs. destruct (ledger_write _ _ _ _ _ s) as [e|s1] eqn:Hw; [by exists e|].
  apply ledger_write_accepted in Hw as (p & _ & Hok). exfalso.
  unfold row_accepted, ledger_entry in Hok. cbn in Hok.
  rewrite Hs in Hok. apply andb_true_iff in Hok as [_ Hok].
  by apply bool_decide_eq_true in Hok as [??].
Qed.

Lemma ledger_write_return productId quantity saleId userId s p :
  products s !! productId = Some p → is_Some (sales s !! saleId) →
  0 < quantity → 0 <= Product.quantity p →
  Product.quantity p + quantity <= 2147483647 →
  let e := ledger_entry productId quantity saleId userId RETURN
             (Product.quantity p) in
  ledger_write productId quantity saleId userId RETURN s
  = inr (stock_commit productId
           (Product.set_quantity (InventoryLog.newStock e) p) e s).
Proof.
  intros Hp Hs Hq Hp0 Hfit. unfold ledger_write. rewrite Hp. cbn.
  rewrite (write_stock_result _ _ _ _ p) by done.
  unfold row_accepted, ledger_entry, int4. cbn.
  rewrite (bool_decide_eq_true_2 _ Hs).
  assert (bool_decide (RETURN = SALE) = false) as -> by done.
  assert (bool_decide (RETURN = RETURN) = true) as -> by done.
  cbn. repeat (rewrite (proj2 (Z.leb_le _ _)) by lia). done.
Qed.

Lemma ledger_loop_steps (R : Store * Store → Prop) items saleId userId type s :
  (∀ s, R (s, s)) →
  (∀ productId quantity s s1,
     (productId, quantity) ∈ items →
     ledger_write productId quantity saleId userId type s = inr s1 →
     R (s, s1) ∧ R (s1, ledger_audit productId userId type s1)) →
  Forall R (steps (ledger_loop items saleId userId type) s).
Proof.
  intros Hrefl. revert s.
  induction items as [|[pid q] items IH]; intros s Hw; [constructor|].
  cbn [ledger_loop]. rewrite steps_and_then, steps_createSaleInventoryLog,
    run_createSaleInventoryLog.
  destruct (ledger_write pid q saleId userId type s) as [e|s1] eqn:Hl; simpl.
  - rewrite app_nil_r. repeat case_match; by repeat constructor.
  - destruct (Hw pid q s s1) as [H1 H2]; [by left|done|].
    repeat (constructor; [done|]). apply IH.
    intros ????? Hl'. eapply Hw; [by right|done].
Qed.

Lemma ledger_loop_run (P : Store → Prop) items saleId userId type s :
  P s →
  (∀ productId quantity s s1,
     (productId, quantity) ∈ items → P s →
     ledger_write productId quantity saleId userId type s = inr s1 →
     P (ledger_audit productId userId type s1)) →
  P (run (ledger_loop items saleId userId type) s).2.
Proof.
  revert s. induction items as [|[pid q] items IH]; intros s Hs Hw; [done|].
  cbn [ledger_loop]. rewrite run_and_then, run_createSaleInventoryLog.
  destruct (ledger_write pid q saleId userId type s) as [e|s1] eqn:Hl; simpl;
    [done|].
  apply IH; [eapply Hw; [by left|done..]|].
  intros ????? Hl'. eapply Hw; [by right|done].
Qed.

Lemma returned_quantity_nonneg pid items :
  Forall (λ item, 0 < SaleItem.quantity item) items →
  0 <= returned_quantity pid items.
Proof.
  induction 1 as [|item items Hq _ IH]; simpl; [done|]. case_decide; lia.
Qed.

Lemma restock_fits_positive s items :
  restock_fits s items → Forall (λ item, 0 < SaleItem.quantity item) items.
Proof. intros H. eapply Forall_impl; [exact H|]. by intros item [? _]. Qed.

(** A loop of returns goes through when the stock can take the units
    back and the sale is committed. *)
Lemma ledger_loop_return_ok items saleId userId s :
  is_Some (sales s !! saleId) → restock_fits s items →
  (run (ledger_loop
          (map (λ item, (SaleItem.productId item, SaleItem.quantity item)) items)
          saleId userId RETURN) s).1 = inr tt.
Proof.
  revert s. induction items as [|item items IH]; intros s Hsale Hfit; [done|].
  pose proof (restock_fits_positive _ _ Hfit) as Hpos.
  inversion Hfit as [|?? (Hq & p & Hp & Hp0 & Hmax) Hrest]; subst.
  inversion Hpos as [|?? _ Hpos']; subst.
  pose proof (returned_quantity_nonneg (SaleItem.productId item) items Hpos')
    as Hnn.
  simpl in Hmax. rewrite decide_True in Hmax by done.
  cbn [map ledger_loop]. rewrite run_and_then, run_createSaleInventoryLog.
  rewrite (ledger_write_return _ _ _ _ _ p) by (done || lia).
  simpl. apply IH; [by rewrite ledger_audit_sales|].
  apply Forall_forall. intros item' Hin.
  apply (proj1 (Forall_forall _ _) Hrest) in Hin
    as (Hq' & p' & Hp' & Hp0' & Hmax').
  split; [done|]. simpl in Hmax'.
  rewrite ledger_audit_products. unfold ledger_entry. cbn.
  destruct (decide (SaleItem.productId item = SaleItem.productId item'))
    as [Heq|Hne].
  - rewrite Heq, lookup_insert_eq. rewrite <- Heq in Hp'.
    assert (p' = p) as -> by congruence.
    eexists. split; [done|]. simpl. rewrite <- Heq. lia.
  - rewrite lookup_insert_ne by done. exists p'. by repeat split.
Qed.

(** ** The validation loop of [createSale] reads only *)

Lemma validate_items_reads items totalAmount saleItemsData s :
  (run (validate_items items totalAmount saleItemsData) s).2 = s ∧
  Forall (λ st, st = (s, s)) (steps (validate_items items totalAmount saleItemsData) s).
Proof.
  revert totalAmount saleItemsData.
  induction items as [|item items IH]; intros t d; simpl; [by split|].
  destruct (findActiveProduct (item_productId item) s) as [p|]; simpl;
    [|by repeat constructor].
  destruct (Product.quantity p <? item_quantity item); simpl;
    [by repeat constructor|].
  destruct (IH (t + (if truthy_dec (item_unitPrice item)
                     then default 0 (item_unitPrice item)
                     else Product.price p) * inject_Z (item_quantity item))%Q
               (d ++ [SaleItem.mk (item_productId item) (item_quantity item)
                        (if truthy_dec (item_unitPrice item)
                         then default 0%Q (item_unitPrice item)
                         else Product.price p)
                        ((if truthy_dec (item_unitPrice item)
                          then default 0 (item_unitPrice item)
                          else Product.price p) * inject_Z (item_quantity item))%Q]))
    as [IH1 IH2].
  split; [done|]. by constructor.
Qed.

(** ** The shape of the two sale transactions *)

Lemma createSale_catch_code e : statusCode (createSale_catch e) ≠ 201.
Proof. unfold createSale_catch. by repeat case_match. Qed.

Lemma updateSaleStatus_catch_code e : statusCode (updateSaleStatus_catch e) ≠ 200.
Proof. unfold updateSaleStatus_catch. by repeat case_match. Qed.

Lemma createSale_shape env req s :
  (Forall (λ st, st = (s, s)) (steps (createSale env req) s) ∧
   (run (createSale env req) s).2 = s ∧
   statusCode (run (createSale env req) s).1 ≠ 201)
  ∨ ∃ uid pm totalAmount saleItemsData sale pre,
      cs_user req = Some uid ∧ cs_paymentMethod req = Some pm ∧
      Forall (λ it, 0 < item_quantity it) (cs_items req) ∧
      (run (validate_items (cs_items req) 0%Q []) s).1
        = inr (totalAmount, saleItemsData) ∧
      sale_create (newId env) (generateSaleNumber (now env) (random env))
        totalAmount (default 0%Q (cs_taxAmount req))
        (default 0%Q (cs_discount req))
        (totalAmount + default 0%Q (cs_taxAmount req)
         - default 0%Q (cs_discount req))%Q
        pm (now env) uid
        (if truthy_str (cs_customerId req) then cs_customerId req else None)
        saleItemsData s = inr sale ∧
      Forall (λ st, st = (s, s)) pre ∧
      let loop := ledger_loop
                    (map (λ item, (item_productId item, item_quantity item))
                       (cs_items req))
                    (newId env) uid SALE in
      let s1 := (run loop s).2 in
      match (run loop s).1 with
      | inr _ =>
          let s2 := with_sales (<[newId env := sale]> (sales s1)) s1 in
          let s3 := audit_commit uid "SALE_CREATE" "Sale" (newId env) s2 in
          steps (createSale env req) s = pre ++ steps loop s ++ [(s1, s2); (s2, s3)] ∧
          run (createSale env req) s =
            (sendResponse 201 "Sale created successfully"
               (SaleData (newId env) sale), s3)
      | inl e =>
          steps (createSale env req) s = pre ++ steps loop s ∧
          run (createSale env req) s = (createSale_catch e, s1)
      end.
Proof.
  destruct req as [u cid items pm tax disc].
  unfold createSale. rewrite steps_try_catch, run_try_catch.
  cbn [cs_user cs_customerId cs_items cs_paymentMethod cs_taxAmount cs_discount].
  cbv zeta.
  destruct (negb (truthy_str u)) eqn:Hu; [left; simpl; by repeat constructor|].
  destruct (bool_decide (items = [])) eqn:Hi; [left; simpl; by repeat constructor|].
  destruct (negb (truthy_str pm)) eqn:Hpm; [left; simpl; by repeat constructor|].
  destruct (existsb _ items) eqn:Hex; [left; simpl; by repeat constructor|].
  destruct u as [uid|]; [|done]. destruct pm as [pm|]; [|done]. simpl default.
  assert (Forall (λ it, 0 < item_quantity it) items) as Hpos.
  { apply Forall_forall. intros it Hin.
    destruct (decide (0 < item_quantity it)) as [|Hn]; [done|].
    assert (existsb (λ item, String.eqb (item_productId item) "" ||
              (item_quantity item =? 0) || (item_quantity item <=? 0)) items = true)
      as Habs; [|congruence].
    apply existsb_exists. exists it. split; [by apply list_elem_of_In|].
    apply orb_true_iff. right. lia. }
  rewrite steps_mbind, run_mbind.
  set (cust := if truthy_str cid then query _ else mret false).
  assert ((run cust s).2 = s ∧ Forall (λ st, st = (s, s)) (steps cust s))
    as [Hc1 Hc2].
  { subst cust. destruct (truthy_str cid); simpl; by repeat constructor. }
  rewrite Hc1.
  destruct (run cust s).1 eqn:Hmissing.
  { left. simpl. rewrite app_nil_r. done. }
  rewrite steps_and_then, run_and_then.
  destruct (validate_items_reads items 0%Q [] s) as [Hv1 Hv2]. rewrite Hv1.
  destruct (run (validate_items items 0%Q []) s).1 as [e|[totalAmount saleItemsData]] eqn:Hv.
  { left. simpl. rewrite app_nil_r. split; [by apply Forall_app|].
    split; [done|apply createSale_catch_code]. }
  rewrite steps_and_then, run_and_then, run_query, steps_query. cbn [fst snd].
  destruct (sale_create _ _ _ _ _ _ _ _ _ _ _ s) as [e|sale] eqn:Hsc.
  { left. simpl. split.
    - apply Forall_app. split; [done|]. apply Forall_app. split; [done|].
      by repeat constructor.
    - split; [done|apply createSale_catch_code]. }
  right. exists uid, pm, totalAmount, saleItemsData, sale,
    (steps cust s ++ steps (validate_items items 0%Q []) s ++ [(s, s)]).
  do 5 (split; [done|]).
  split. { apply Forall_app. split; [done|]. apply Forall_app. split; [done|].
           by repeat constructor. }
  cbv zeta. rewrite steps_and_then, run_and_then.
  destruct (run (ledger_loop _ _ _ _) s).1 as [e|[]] eqn:Hloop.
  - rewrite app_nil_r. by rewrite <- !app_assoc.
  - rewrite steps_and_then, run_and_then, run_commit, steps_commit, run_commit.
    cbn [fst snd]. rewrite steps_mbind, run_mbind, run_createAuditLog,
      steps_createAuditLog. cbn [fst snd]. simpl steps. simpl run.
    rewrite app_nil_r. by rewrite <- !app_assoc.
Qed.


Lemma isValidStatusTransition_spec from to :
  isValidStatusTransition from to = true ↔
  (from = PENDING ∧ to = "COMPLETED") ∨ (from = PENDING ∧ to = "CANCELLED") ∨
  (from = COMPLETED ∧ to = "REFUNDED").
Proof.
  unfold isValidStatusTransition. split.
  - destruct from; simpl; rewrite ?orb_false_r, ?orb_true_iff, ?String.eqb_eq;
      intuition (subst; auto); done.
  - intros [[-> ->]|[[-> ->]|[-> ->]]]; reflexivity.
Qed.

Lemma isValidStatusTransition_parse from to :
  isValidStatusTransition from to = true →
  ∃ st, parse_SaleStatus to = Some st ∧ SaleStatus_name st = to.
Proof.
  intros [[-> ->]|[[-> ->]|[-> ->]]]%isValidStatusTransition_spec;
    eexists; split; reflexivity.
Qed.

Lemma ledger_loop_sales items saleId userId type s :
  sales (run (ledger_loop items saleId userId type) s).2 = sales s.
Proof.
  apply (ledger_loop_run (λ s', sales s' = sales s)); [done|].
  intros pid q s0 s1 _ Hs0 (p & _ & _ & ->)%ledger_write_inr.
  by rewrite ledger_audit_sales.
Qed.

Lemma sale_update_Some id status t s st row :
  parse_SaleStatus status = Some st → sales s !! id = Some row →
  sale_update id status t s =
  inr (Sale.set_status st t row,
       with_sales (<[id := Sale.set_status st t row]> (sales s)) s).
Proof. intros Hst Hrow. unfold sale_update. by rewrite Hst, Hrow. Qed.

Lemma truthy_str_Some x : x ≠ "" → truthy_str (Some x) = true.
Proof.
  intros Hx. simpl. apply negb_true_iff. by apply String.eqb_neq.
Qed.

Lemma updateSaleStatus_invalid env req s uid id to sale :
  us_user req = Some uid → uid ≠ "" → us_id req = Some id → id ≠ "" →
  us_status req = Some to → to ≠ "" → sales s !! id = Some sale →
  isValidStatusTransition (Sale.status sale) to = false →
  run (updateSaleStatus env req) s =
  (sendResponse 400
     ("Invalid status transition from " +:+ SaleStatus_name (Sale.status sale)
      +:+ " to " +:+ to) NoData, s).
Proof.
  intros Hu Huid Hid Hidne Hto Htone Hsale Hinvalid.
  destruct req as [u i st r]. simpl in Hu, Hid, Hto. subst u i st.
  unfold updateSaleStatus. rewrite run_try_catch.
  cbn [us_user us_id us_status us_reason]. cbv zeta.
  rewrite !truthy_str_Some by done. simpl negb. simpl orb. cbv iota.
  simpl default.
  rewrite run_mbind, run_query. cbn [fst snd]. rewrite Hsale, Hinvalid.
  done.
Qed.

Lemma updateSaleStatus_valid env req s uid id to sale st :
  us_user req = Some uid → uid ≠ "" → us_id req = Some id → id ≠ "" →
  us_status req = Some to → to ≠ "" → sales s !! id = Some sale →
  isValidStatusTransition (Sale.status sale) to = true →
  parse_SaleStatus to = Some st →
  let loop :=
    if String.eqb to "REFUNDED" || String.eqb to "CANCELLED"
    then ledger_loop
           (map (λ item, (SaleItem.productId item, SaleItem.quantity item))
              (Sale.items sale))
           id uid RETURN
    else ok tt in
  let s1 := (run loop s).2 in
  match (run loop s).1 with
  | inr _ =>
      let row := Sale.set_status st (now env) sale in
      let s2 := with_sales (<[id := row]> (sales s1)) s1 in
      let s3 := audit_commit uid "SALE_STATUS_UPDATE" "Sale" id s2 in
      steps (updateSaleStatus env req) s =
        [(s, s); (s, s)] ++ steps loop s ++ [(s1, s2); (s2, s3)] ∧
      run (updateSaleStatus env req) s =
        (sendResponse 200 "Sale status updated successfully"
           (SaleData id row), s3)
  | inl e =>
      steps (updateSaleStatus env req) s = [(s, s); (s, s)] ++ steps loop s ∧
      run (updateSaleStatus env req) s = (updateSaleStatus_catch e, s1)
  end.
Proof.
  intros Hu Huid Hid Hidne Hto Htone Hsale Hvalid Hparse.
  destruct req as [u i status r]. simpl in Hu, Hid, Hto. subst u i status.
  unfold updateSaleStatus. rewrite steps_try_catch, run_try_catch.
  cbn [us_user us_id us_status us_reason]. cbv zeta.
  rewrite !truthy_str_Some by done. simpl negb. simpl orb. cbv iota.
  simpl default.
  rewrite steps_mbind, run_mbind, run_query, steps_query. cbn [fst snd].
  rewrite Hsale, Hvalid. simpl negb. cbv iota.
  rewrite steps_and_then, run_and_then, run_query, steps_query. cbn [fst snd].
  rewrite (sale_update_Some _ _ _ _ _ _ Hparse Hsale).
  rewrite steps_and_then, run_and_then.
  set (loop := if _ || _ then _ else _).
  assert (sales (run loop s).2 = sales s) as Hsales.
  { subst loop.
    destruct (String.eqb to "REFUNDED" || String.eqb to "CANCELLED");
      [apply ledger_loop_sales|done]. }
  destruct (run loop s).1 as [e|[]] eqn:Hloop.
  - by rewrite app_nil_r.
  - rewrite steps_and_then, run_and_then, run_commit, steps_commit, run_commit.
    rewrite <- Hsales in Hsale.
    rewrite (sale_update_Some _ _ _ _ _ _ Hparse Hsale). cbn [fst snd].
    rewrite steps_mbind, run_mbind, run_createAuditLog,
      steps_createAuditLog. cbn [fst snd]. simpl steps. simpl run.
    by rewrite app_nil_r.
Qed.

Lemma updateSaleStatus_shape env req s :
  (Forall (λ st, st = (s, s)) (steps (updateSaleStatus env req) s) ∧
   (run (updateSaleStatus env req) s).2 = s ∧
   statusCode (run (updateSaleStatus env req) s).1 ≠ 200)
  ∨ ∃ uid id status existingSale st,
      us_user req = Some uid ∧ us_id req = Some id ∧ id ≠ "" ∧
      us_status req = Some status ∧
      sales s !! id = Some existingSale ∧
      isValidStatusTransition (Sale.status existingSale) status = true ∧
      parse_SaleStatus status = Some st ∧
      let loop :=
        if String.eqb status "REFUNDED" || String.eqb status "CANCELLED"
        then ledger_loop
               (map (λ item, (SaleItem.productId item, SaleItem.quantity item))
                  (Sale.items existingSale))
               id uid RETURN
        else ok tt in
      let s1 := (run loop s).2 in
      match (run loop s).1 with
      | inr _ =>
          let row := Sale.set_status st (now env) existingSale in
          let s2 := with_sales (<[id := row]> (sales s1)) s1 in
          let s3 := audit_commit uid "SALE_STATUS_UPDATE" "Sale" id s2 in
          steps (updateSaleStatus env req) s =
            [(s, s); (s, s)] ++ steps loop s ++ [(s1, s2); (s2, s3)] ∧
          run (updateSaleStatus env req) s =
            (sendResponse 200 "Sale status updated successfully"
               (SaleData id row), s3)
      | inl e =>
          steps (updateSaleStatus env req) s = [(s, s); (s, s)] ++ steps loop s ∧
          run (updateSaleStatus env req) s = (updateSaleStatus_catch e, s1)
      end.
Proof.
  destruct req as [u id status r].
  destruct (negb (truthy_str u)) eqn:Hu;
    [left; unfold updateSaleStatus; rewrite steps_try_catch, run_try_catch;
     cbn [us_user]; rewrite Hu; simpl; by repeat constructor|].
  destruct (negb (truthy_str id) || negb (truthy_str status)) eqn:Hids;
    [left; unfold updateSaleStatus; rewrite steps_try_catch, run_try_catch;
     cbn [us_user us_id us_status]; rewrite Hu, Hids; simpl;
     by repeat constructor|].
  destruct u as [uid|]; [|done]. destruct id as [id|]; [|done].
  destruct status as [status|]; [|by destruct (negb (truthy_str (Some id)))].
  assert (uid ≠ "") as Huid by (by intros ->).
  assert (id ≠ "") as Hid by (by intros ->).
  assert (status ≠ "") as Hstatus.
  { intros ->. by destruct (negb (truthy_str (Some id))). }
  destruct (sales s !! id) as [existingSale|] eqn:Hsale.
  2:{ left. unfold updateSaleStatus. rewrite steps_try_catch, run_try_catch.
      cbn [us_user us_id us_status]. rewrite Hu, Hids. simpl. rewrite Hsale.
      simpl. by repeat constructor. }
  destruct (isValidStatusTransition (Sale.status existingSale) status) eqn:Hvalid.
  - destruct (isValidStatusTransition_parse _ _ Hvalid) as (st & Hparse & _).
    right. exists uid, id, status, existingSale, st.
    do 7 (split; [done|]).
    by apply (updateSaleStatus_valid env
                (mkUpdateStatusRequest (Some uid) (Some id) (Some status) r)).
  - left. unfold updateSaleStatus. rewrite steps_try_catch, run_try_catch.
    cbn [us_user us_id us_status]. rewrite Hu, Hids. simpl. rewrite Hsale.
    simpl. rewrite Hvalid. simpl. by repeat constructor.
Qed.

(** ** Ledger entries are consistent with the stock *)

Lemma Forall_four {A} (P : A → Prop) a b c d :
  P a → P b → P c → P d → Forall P [a; b; c; d].
Proof. by repeat constructor. Qed.

Lemma Forall_two {A} (P : A → Prop) a b : P a → P b → Forall P [a; b].
Proof. by repeat constructor. Qed.

Lemma log_step_ok_refl s : log_step_ok (s, s).
Proof. by left. Qed.

Lemma log_step_ok_refl_all s l :
  Forall (λ st, st = (s, s)) l → Forall log_step_ok l.
Proof. intros H. eapply Forall_impl; [exact H|]. intros st ->. apply log_step_ok_refl. Qed.

Lemma log_step_ok_commit id p' e s :
  entry_signed e → InventoryLog.productId e = id →
  Product.quantity p' = InventoryLog.newStock e →
  log_step_ok (s, stock_commit id p' e s).
Proof.
  intros Hsigned <- Hq. right. exists e. split; [done|]. split; [done|].
  unfold entry_matches_stock. simpl. rewrite lookup_insert_eq. simpl. by rewrite Hq.
Qed.

Lemma log_step_ok_audit u a r rid s : log_step_ok (s, audit_commit u a r rid s).
Proof. by left. Qed.

Lemma ledger_loop_log_ok items saleId userId type s :
  type = SALE ∨ type = RETURN →
  Forall log_step_ok (steps (ledger_loop items saleId userId type) s).
Proof.
  intros Hty. apply ledger_loop_steps; [apply log_step_ok_refl|].
  intros pid q s0 s1 _ (p & Hp & _ & ->)%ledger_write_inr. split; [|by left].
  apply log_step_ok_commit; [|done..].
  unfold entry_signed, ledger_entry. simpl.
  destruct Hty as [->| ->]; simpl; lia.
Qed.

Lemma handler_log_ok op s : Forall log_step_ok (steps (handler op) s).
Proof.
  destruct op as [req|req|req|env req|env req]; simpl.
  - destruct (stockIn_cases req s) as [(H & _)|(uid & pid & q & p & _ & _ & _ & _ & _ & _ & H)];
      [by eapply log_step_ok_refl_all|].
    cbv zeta in H. destruct H as [-> _].
    apply Forall_four; [by left|by left| |by left].
    apply log_step_ok_commit; [unfold entry_signed; simpl; lia|done|].
    by destruct (truthy_dec _).
  - destruct (stockOut_cases req s) as [(H & _)|(uid & pid & q & p & _ & _ & _ & _ & _ & _ & _ & H)];
      [by eapply log_step_ok_refl_all|].
    cbv zeta in H. destruct H as [-> _].
    apply Forall_four; [by left|by left| |by left].
    apply log_step_ok_commit; [unfold entry_signed; simpl; lia|done..].
  - destruct (adjustStock_cases req s) as [(H & _)|(uid & pid & q & p & _ & _ & _ & _ & _ & _ & H)];
      [by eapply log_step_ok_refl_all|].
    cbv zeta in H. destruct H as [-> _].
    apply Forall_four; [by left|by left| |by left].
    apply log_step_ok_commit; [|done..].
    unfold entry_signed; simpl. destruct (Product.quantity p <? q) eqn:E; simpl; lia.
  - destruct (createSale_shape env req s)
      as [(H & _)|(uid & pm & ta & d & sale & pre & _ & _ & _ & _ & _ & Hpre & H)];
      [by eapply log_step_ok_refl_all|].
    cbv zeta in H.
    destruct (run (ledger_loop _ _ _ _) s).1; destruct H as [-> _].
    + apply Forall_app. split; [by eapply log_step_ok_refl_all|].
      apply ledger_loop_log_ok. by left.
    + apply Forall_app. split; [by eapply log_step_ok_refl_all|].
      apply Forall_app. split; [apply ledger_loop_log_ok; by left|].
      apply Forall_two; by left.
  - destruct (updateSaleStatus_shape env req s)
      as [(H & _)|(uid & id & status & sale & st & _ & _ & _ & _ & _ & _ & _ & H)];
      [by eapply log_step_ok_refl_all|].
    cbv zeta in H.
    assert (Forall log_step_ok
              (steps (if String.eqb status "REFUNDED" || String.eqb status "CANCELLED"
                      then ledger_loop
                             (map (λ item, (SaleItem.productId item, SaleItem.quantity item))
                                (Sale.items sale)) id uid RETURN
                      else ok tt) s)) as Hloop.
    { destruct (_ || _); [apply ledger_loop_log_ok; by right|constructor]. }
    destruct (run _ s).1; destruct H as [-> _].
    + apply Forall_app. split; [apply Forall_two; by left|done].
    + apply Forall_app. split; [apply Forall_two; by left|].
      apply Forall_app. split; [done|]. apply Forall_two; by left.
Qed.

(** C5.  Every ledger entry a core operation writes, whatever the
    sequence of operations and the store it starts from, satisfies
    [newStock = previousStock + quantity] when its type is [STOCK_IN] or
    [RETURN] and [newStock = previousStock - quantity] when it is
    [STOCK_OUT] or [SALE]; and right after the step that writes it, the
    stored quantity of its product is its [newStock].  A database step
    writes at most one entry. *)
Theorem log_entries_consistent (ops : list Op) (s : Store) :
  Forall log_step_ok (exec ops s).
Proof.
  revert s. induction ops as [|op ops IH]; intros s; simpl; [constructor|].
  apply Forall_app. split; [apply handler_log_ok|apply IH].
Qed.

(** ** The quantity field of a ledger entry *)

Lemma list_not_cons_self {A} (x : A) l : l ≠ x :: l.
Proof.
  intros H. apply (f_equal length) in H. simpl in H. lia.
Qed.

Lemma new_entry_quantity_ok_same op st :
  inventoryLogs st.2 = inventoryLogs st.1 → new_entry_quantity_ok op st.
Proof. intros H e He. rewrite H in He. by apply list_not_cons_self in He. Qed.

Lemma new_entry_quantity_ok_refl_all op s l :
  Forall (λ st, st = (s, s)) l → Forall (new_entry_quantity_ok op) l.
Proof.
  intros H. eapply Forall_impl; [exact H|]. intros st ->.
  by apply new_entry_quantity_ok_same.
Qed.

Lemma new_entry_quantity_ok_commit op id p p' e s :
  products s !! id = Some p → InventoryLog.productId e = id →
  InventoryLog.previousStock e = Product.quantity p →
  entry_quantity_ok op e →
  new_entry_quantity_ok op (s, stock_commit id p' e s).
Proof.
  intros Hp <- Hprev Hok e' [= <-]. simpl. rewrite Hp. simpl. by rewrite Hprev.
Qed.

Lemma ledger_loop_quantity_ok op items saleId userId type s :
  (∀ req, op ≠ AdjustStock req) →
  Forall (λ it : string * Z, 0 < it.2) items →
  Forall (new_entry_quantity_ok op) (steps (ledger_loop items saleId userId type) s).
Proof.
  intros Hop Hitems. apply ledger_loop_steps.
  - intros s0. by apply new_entry_quantity_ok_same.
  - intros pid q s0 s1 Hin (p & Hp & _ & ->)%ledger_write_inr.
    split; [|by apply new_entry_quantity_ok_same].
    eapply new_entry_quantity_ok_commit; [done..|].
    eapply Forall_forall in Hitems; [|done]. simpl in Hitems.
    destruct op; simpl; try done. by destruct (Hop req).
Qed.

Lemma handler_quantity_ok op s :
  items_positive s → Forall (new_entry_quantity_ok op) (steps (handler op) s).
Proof.
  intros Hitems.
  destruct op as [req|req|req|env req|env req]; simpl.
  - destruct (stockIn_cases req s)
      as [(H & _)|(uid & pid & q & p & _ & _ & _ & Hq & Hp & _ & H)];
      [by eapply new_entry_quantity_ok_refl_all|].
    cbv zeta in H. destruct H as [-> _].
    apply Forall_four; try by apply new_entry_quantity_ok_same.
    by eapply new_entry_quantity_ok_commit.
  - destruct (stockOut_cases req s)
      as [(H & _)|(uid & pid & q & p & _ & _ & _ & Hq & _ & Hp & _ & H)];
      [by eapply new_entry_quantity_ok_refl_all|].
    cbv zeta in H. destruct H as [-> _].
    apply Forall_four; try by apply new_entry_quantity_ok_same.
    by eapply new_entry_quantity_ok_commit.
  - destruct (adjustStock_cases req s)
      as [(H & _)|(uid & pid & q & p & _ & _ & Hreq & Hq & Hp & _ & H)];
      [by eapply new_entry_quantity_ok_refl_all|].
    cbv zeta in H. destruct H as [-> _].
    apply Forall_four; try by apply new_entry_quantity_ok_same.
    eapply new_entry_quantity_ok_commit; [done..|]. simpl.
    repeat split; [done|lia|lia|lia].
  - destruct (createSale_shape env req s)
      as [(H & _)|(uid & pm & ta & d & sale & pre & _ & _ & Hpos & _ & _ & Hpre & H)];
      [by eapply new_entry_quantity_ok_refl_all|].
    cbv zeta in H.
    assert (Forall (new_entry_quantity_ok (CreateSale env req))
              (steps (ledger_loop
                        (map (λ item, (item_productId item, item_quantity item))
                           (cs_items req)) (newId env) uid SALE) s)) as Hloop.
    { apply ledger_loop_quantity_ok; [done|]. by apply Forall_map. }
    destruct (run (ledger_loop _ _ _ _) s).1; destruct H as [-> _].
    + apply Forall_app. split; [by eapply new_entry_quantity_ok_refl_all|done].
    + apply Forall_app. split; [by eapply new_entry_quantity_ok_refl_all|].
      apply Forall_app. split; [done|].
      apply Forall_two; by apply new_entry_quantity_ok_same.
  - destruct (updateSaleStatus_shape env req s)
      as [(H & _)|(uid & id & status & sale & st & _ & _ & _ & _ & Hsale & _ & _ & H)];
      [by eapply new_entry_quantity_ok_refl_all|].
    cbv zeta in H.
    assert (Forall (new_entry_quantity_ok (UpdateSaleStatus env req))
              (steps (if String.eqb status "REFUNDED" || String.eqb status "CANCELLED"
                      then ledger_loop
                             (map (λ item, (SaleItem.productId item, SaleItem.quantity item))
                                (Sale.items sale)) id uid RETURN
                      else ok tt) s)) as Hloop.
    { destruct (_ || _); [|constructor].
      apply ledger_loop_quantity_ok; [done|]. apply Forall_map.
      apply Forall_forall. intros item Hin. simpl. eauto. }
    destruct (run _ s).1; destruct H as [-> _].
    + apply Forall_app. split; [|done].
      apply Forall_two; by apply new_entry_quantity_ok_same.
    + apply Forall_app. split; [apply Forall_two; by apply new_entry_quantity_ok_same|].
      apply Forall_app. split; [done|].
      apply Forall_two; by apply new_entry_quantity_ok_same.
Qed.

(** C7, amended.  Every ledger entry written in a sequence of core
    operations records the stock it found as [previousStock]; its
    quantity is strictly positive when [stockIn], [stockOut],
    [createSale] or [updateSaleStatus] writes it, and when
    [adjustStock(productId, target)] writes it ([target >= 0]) it is
    [|target - previousStock|], positive exactly when the target differs
    from the current stock. *)
Theorem log_quantity_magnitude (ops : list Op) (s : Store) :
  stock_nonneg s → items_positive s →
  Forall (λ x, new_entry_quantity_ok x.1 x.2) (exec_by ops s).
Proof.
  intros H1 H2. assert (Inv s) as HI by done. clear H1 H2.
  revert s HI. induction ops as [|op ops IH]; intros s HI; simpl; [constructor|].
  apply Forall_app. split.
  - apply Forall_map. simpl. apply handler_quantity_ok, HI.
  - apply IH. by destruct (safe_steps Inv _ (handler op) s (handler_safe op) HI)
      as (_ & ? & _).
Qed.

(** C7 as stated fails: adjusting a product with 5 units to 5 units
    writes an entry whose quantity is 0. *)
Lemma adjustStock_to_current_writes_zero :
  ∃ e, inventoryLogs
         (run (adjustStock (mkStockRequest (Some "u") (Some "P") (Some 5) None None))
              demo_store).2 = [e] ∧
       ¬ 0 < InventoryLog.quantity e.
Proof. eexists. split; [vm_compute; reflexivity|]. simpl. lia. Qed.

(** ** The two variants of the inventory controller *)

Lemma stockIn_js_ts req s :
  (run (stockIn req) s).1 = (run (TS.stockIn req) s).1 ∧
  same_tables (run (stockIn req) s).2 (run (TS.stockIn req) s).2.
Proof.
  destruct req as [u pid q r c].
  unfold stockIn, TS.stockIn. rewrite !run_try_catch.
  cbn [user productId quantity reason costPrice]. cbv zeta.
  destruct (negb (truthy_str u)); [done|].
  destruct (_ || _); [done|].
  destruct (default 0 q <=? 0); [done|].
  simpl. destruct (findActiveProduct (default "" pid) s) as [p|] eqn:Hf; simpl;
    [|done].
  rewrite Hf. simpl.
  apply findActiveProduct_Some in Hf as [Hp _].
  by destruct (write_stock _ _ _ s) as [e|[[p' l'] s']].
Qed.

Lemma stockOut_js_ts req s :
  (run (stockOut req) s).1 = (run (TS.stockOut req) s).1 ∧
  same_tables (run (stockOut req) s).2 (run (TS.stockOut req) s).2.
Proof.
  destruct req as [u pid q r c].
  unfold stockOut, TS.stockOut. rewrite !run_try_catch.
  cbn [user productId quantity reason costPrice]. cbv zeta.
  destruct (negb (truthy_str u)); [done|].
  destruct (_ || _); [done|].
  destruct (default 0 q <=? 0); [done|].
  simpl. destruct (findActiveProduct (default "" pid) s) as [p|] eqn:Hf; simpl;
    [|done].
  destruct (Product.quantity p <? default 0 q) eqn:Hlt; simpl; [done|].
  rewrite Hf. simpl. rewrite Hlt. simpl.
  apply findActiveProduct_Some in Hf as [Hp _].
  by destruct (write_stock _ _ _ s) as [e|[[p' l'] s']].
Qed.

Lemma adjustStock_js_ts req s :
  (run (adjustStock req) s).1 = (run (TS.adjustStock req) s).1 ∧
  same_tables (run (adjustStock req) s).2 (run (TS.adjustStock req) s).2.
Proof.
  destruct req as [u pid q r c].
  unfold adjustStock, TS.adjustStock. rewrite !run_try_catch.
  cbn [user productId quantity reason costPrice]. cbv zeta.
  destruct (negb (truthy_str u)); [done|].
  destruct (_ || _); [done|].
  destruct (default 0 q <? 0); [done|].
  simpl. destruct (findActiveProduct (default "" pid) s) as [p|] eqn:Hf; simpl;
    [|done].
  rewrite Hf. simpl.
  apply findActiveProduct_Some in Hf as [Hp _].
  by destruct (write_stock _ _ _ s) as [e|[[p' l'] s']].
Qed.

Lemma createSaleInventoryLog_js_ts productId quantity saleId userId type s :
  (run (createSaleInventoryLog productId quantity saleId userId type) s).1
  = (run (TS.createSaleInventoryLog productId quantity saleId userId type) s).1 ∧
  same_tables
    (run (createSaleInventoryLog productId quantity saleId userId type) s).2
    (run (TS.createSaleInventoryLog productId quantity saleId userId type) s).2.
Proof.
  rewrite run_createSaleInventoryLog, run_TS_createSaleInventoryLog.
  by destruct (ledger_write productId quantity saleId userId type s).
Qed.

(** C10.  Run on its own from the same store with the same arguments,
    the compiled JavaScript variant and the TypeScript variant of
    [stockIn], of [stockOut] and of [createSaleInventoryLog] give the
    same response (status, message, updated product and ledger entry) or
    the same thrown error, and leave the same products, the same ledger,
    the same sales and the same customers. *)
Theorem js_and_ts_variants_agree :
  (∀ req s,
     (run (stockIn req) s).1 = (run (TS.stockIn req) s).1 ∧
     same_tables (run (stockIn req) s).2 (run (TS.stockIn req) s).2) ∧
  (∀ req s,
     (run (stockOut req) s).1 = (run (TS.stockOut req) s).1 ∧
     same_tables (run (stockOut req) s).2 (run (TS.stockOut req) s).2) ∧
  (∀ productId quantity saleId userId type s,
     (run (createSaleInventoryLog productId quantity saleId userId type) s).1
     = (run (TS.createSaleInventoryLog productId quantity saleId userId type) s).1 ∧
     same_tables
       (run (createSaleInventoryLog productId quantity saleId userId type) s).2
       (run (TS.createSaleInventoryLog productId quantity saleId userId type) s).2).
Proof.
  split; [exact stockIn_js_ts|]. split; [exact stockOut_js_ts|].
  exact createSaleInventoryLog_js_ts.
Qed.

(** ** Prices and totals of a sale *)


Lemma sale_create_fields id sn ta tx dc fa pm t st c items s sale :
  sale_create id sn ta tx dc fa pm t st c items s = inr sale →
  Sale.saleNumber sale = sn ∧ Sale.totalAmount sale = ta ∧
  Sale.taxAmount sale = tx ∧ Sale.discount sale = dc ∧
  Sale.finalAmount sale = fa ∧ Sale.status sale = COMPLETED ∧
  Sale.staffId sale = st ∧ Sale.customerId sale = c ∧ Sale.items sale = items ∧
  sales s !! id = None ∧ NoDup (map SaleItem.productId items).
Proof.
  unfold sale_create. destruct (parse_PaymentMethod pm); [|done].
  case_bool_decide as Hid; [done|]. case_bool_decide; [|done].
  case_bool_decide; [|done]. destruct (forallb _ items); [|done].
  intros [= <-]. simpl.
  repeat (split; [done|]). split; [|done].
  destruct (sales s !! id) eqn:E; [|done]. destruct Hid. eauto.
Qed.

(** A ledger call that names a sale the database has not committed is
    refused, whatever its product and quantity. *)
Lemma ledger_loop_uncommitted_sale items saleId userId type s :
  sales s !! saleId = None →
  (run (ledger_loop items saleId userId type) s).2 = s ∧
  Forall (λ st, st = (s, s)) (steps (ledger_loop items saleId userId type) s) ∧
  (items ≠ [] → ∃ e, (run (ledger_loop items saleId userId type) s).1 = inl e).
Proof.
  intros Hs. destruct items as [|[pid q] items]; [by repeat split|].
  cbn [ledger_loop].
  rewrite run_and_then, steps_and_then, run_createSaleInventoryLog.
  destruct (ledger_write_uncommitted_sale pid q saleId userId type s Hs)
    as [e He].
  pose proof (steps_createSaleInventoryLog_inl _ _ _ userId _ _ _ He) as Hst.
  rewrite He. simpl. rewrite app_nil_r. repeat split; [done|]. eauto.
Qed.

Lemma createSale_no_items env req s :
  cs_items req = [] →
  run (createSale env req) s
  = (sendResponse 400 (if truthy_str (cs_user req) then "Sale items are required"
                       else "Authentication required") NoData, s).
Proof.
  destruct req as [u cid items pm tax disc]. simpl. intros ->.
  unfold createSale. rewrite run_try_catch. simpl.
  by destruct (truthy_str u).
Qed.

Lemma createSale_no_items_steps env req s :
  cs_items req = [] → steps (createSale env req) s = [].
Proof.
  destruct req as [u cid items pm tax disc]. simpl. intros ->.
  unfold createSale. rewrite steps_try_catch. simpl.
  by destruct (truthy_str u).
Qed.

(** Whatever the request, [createSale] stores nothing and does not answer
    201: the ledger call for the first line refers to a sale that is only
    staged in the open transaction. *)
Lemma createSale_writes_nothing env req s :
  statusCode (run (createSale env req) s).1 ≠ 201 ∧
  (run (createSale env req) s).2 = s ∧
  Forall (λ st, st = (s, s)) (steps (createSale env req) s).
Proof.
  destruct (createSale_shape env req s)
    as [(H1 & H2 & H3)|(uid & pm & ta & d & sale & pre & _ & _ & _ & Hv & Hsc & Hpre & H)];
    [done|].
  cbv zeta in H.
  apply sale_create_fields in Hsc as (_&_&_&_&_&_&_&_&Hitems&Hfree&_).
  destruct (ledger_loop_uncommitted_sale
              (map (λ item, (item_productId item, item_quantity item))
                 (cs_items req)) (newId env) uid SALE s Hfree)
    as (Hrun & Hsteps & Hfail).
  destruct (decide (cs_items req = [])) as [Hnil|Hnil].
  { (* a request without items is answered before the transaction *)
    rewrite (createSale_no_items env req s Hnil),
      (createSale_no_items_steps env req s Hnil). by repeat split. }
  destruct Hfail as [e He]; [by intros ?%map_eq_nil|].
  rewrite He in H. destruct H as [Hst Hr]. rewrite Hr, Hst, Hrun. simpl.
  split; [apply createSale_catch_code|]. split; [done|].
  apply Forall_app. by split.
Qed.

(** C3.  The claim is about the sales a successful [createSale] stores;
    the code has none.  Whatever the request, the clock, the identifier
    and the store, [createSale] does not answer 201 and leaves the whole
    store as it found it: the sale is only staged in the open transaction
    when the ledger call for its first line, made on the global client,
    inserts a row that refers to it, and the foreign key
    [inventory_logs_saleId_fkey] refuses the row.  The sale of three
    units of a product that has five, by an authenticated user, is
    answered 500. *)
Theorem createSale_never_succeeds :
  (∀ env req s,
     statusCode (run (createSale env req) s).1 ≠ 201 ∧
     (run (createSale env req) s).2 = s) ∧
  run (createSale demo_env demo_sale_request) demo_store
  = (sendResponse 500 "Internal server error" NoData, demo_store).
Proof.
  split; [|vm_compute; reflexivity].
  intros env req s.
  destruct (createSale_writes_nothing env req s) as (H1 & H2 & _). by split.
Qed.

(** ** Status changes *)

(** C9.  A successful [updateSaleStatus] leaves the sale's
    [saleNumber], [totalAmount], [taxAmount], [discount], [finalAmount],
    [paymentMethod], staff and customer references and its line items
    (so each item's quantity, [unitPrice] and [totalPrice]) as they
    were, and leaves every other sale alone: only [status] and
    [updatedAt] change. *)
Theorem updateSaleStatus_changes_only_status env req s id old :
  statusCode (run (updateSaleStatus env req) s).1 = 200 →
  us_id req = Some id → sales s !! id = Some old →
  ∃ new,
    sales (run (updateSaleStatus env req) s).2 !! id = Some new ∧
    Sale.saleNumber new = Sale.saleNumber old ∧
    Sale.totalAmount new = Sale.totalAmount old ∧
    Sale.taxAmount new = Sale.taxAmount old ∧
    Sale.discount new = Sale.discount old ∧
    Sale.finalAmount new = Sale.finalAmount old ∧
    Sale.paymentMethod new = Sale.paymentMethod old ∧
    Sale.staffId new = Sale.staffId old ∧
    Sale.customerId new = Sale.customerId old ∧
    Sale.items new = Sale.items old ∧
    ∀ id', id' ≠ id →
      sales (run (updateSaleStatus env req) s).2 !! id' = sales s !! id'.
Proof.
  intros Hcode Hid Hold.
  destruct (updateSaleStatus_shape env req s)
    as [(_ & _ & H)|(uid & id' & status & sale & st & _ & Hid' & _ & _ & Hsale & _ & _ & H)];
    [done|].
  rewrite Hid in Hid'. injection Hid' as <-. rewrite Hold in Hsale.
  injection Hsale as <-. cbv zeta in H.
  set (loop := if _ || _ then _ else _) in H.
  assert (sales (run loop s).2 = sales s) as Hsales.
  { subst loop.
    destruct (String.eqb status "REFUNDED" || String.eqb status "CANCELLED");
      [apply ledger_loop_sales|done]. }
  destruct (run loop s).1 as [e|[]]; destruct H as [_ Hrun].
  { rewrite Hrun in Hcode. by apply updateSaleStatus_catch_code in Hcode. }
  rewrite Hrun. simpl. rewrite Hsales.
  exists (Sale.set_status st (now env) old). rewrite lookup_insert_eq.
  do 10 (split; [done|]). intros id' Hne. by rewrite lookup_insert_ne.
Qed.

Lemma allowed_transition_valid from to :
  isValidStatusTransition from to = true ↔ allowed_transition from to.
Proof. apply isValidStatusTransition_spec. Qed.

Lemma sales_after_status_update env req s uid id to sale st :
  us_user req = Some uid → uid ≠ "" → us_id req = Some id → id ≠ "" →
  us_status req = Some to → to ≠ "" → sales s !! id = Some sale →
  isValidStatusTransition (Sale.status sale) to = true →
  parse_SaleStatus to = Some st →
  (to = "REFUNDED" ∨ to = "CANCELLED" → restock_fits s (Sale.items sale)) →
  let loop :=
    if String.eqb to "REFUNDED" || String.eqb to "CANCELLED"
    then ledger_loop
           (map (λ item, (SaleItem.productId item, SaleItem.quantity item))
              (Sale.items sale))
           id uid RETURN
    else ok tt in
  let s1 := (run loop s).2 in
  let row := Sale.set_status st (now env) sale in
  run (updateSaleStatus env req) s =
    (sendResponse 200 "Sale status updated successfully" (SaleData id row),
     audit_commit uid "SALE_STATUS_UPDATE" "Sale" id
       (with_sales (<[id := row]> (sales s1)) s1)).
Proof.
  intros Hu Huid Hid Hidne Hto Htone Hsale Hvalid Hparse Hprods.
  pose proof (updateSaleStatus_valid env req s uid id to sale st
                Hu Huid Hid Hidne Hto Htone Hsale Hvalid Hparse) as H.
  cbv zeta in *.
  set (loop := if _ || _ then _ else _) in *.
  assert ((run loop s).1 = inr tt) as Hloop.
  { subst loop.
    destruct (String.eqb to "REFUNDED" || String.eqb to "CANCELLED") eqn:Hre;
      [|done].
    apply ledger_loop_return_ok; [by eauto|]. apply Hprods.
    apply orb_true_iff in Hre as [?%String.eqb_eq|?%String.eqb_eq]; auto. }
  rewrite Hloop in H. by destruct H as [_ ->].
Qed.

Lemma ledger_write_error pid q saleId userId type s e :
  ledger_write pid q saleId userId type s = inl e →
  updateSaleStatus_catch e = sendResponse 500 "Internal server error" NoData.
Proof.
  unfold ledger_write. destruct (products s !! pid) as [p|] eqn:Hp;
    [|by intros [= <-]].
  destruct (_ && _); [by intros [= <-]|]. cbv zeta.
  rewrite (write_stock_result _ _ _ _ p) by done.
  destruct (row_accepted _ _ s); [done|]. intros [= <-].
  match goal with
  | |- context [refusal ?a ?b] => by destruct (refusal_cases a b) as [-> | ->]
  end.
Qed.

Lemma ledger_loop_error items saleId userId type s e :
  (run (ledger_loop items saleId userId type) s).1 = inl e →
  updateSaleStatus_catch e = sendResponse 500 "Internal server error" NoData.
Proof.
  revert s. induction items as [|[pid q] items IH]; intros s; [done|].
  cbn [ledger_loop]. rewrite run_and_then, run_createSaleInventoryLog.
  destruct (ledger_write pid q saleId userId type s) as [e'|s1] eqn:Hw;
    cbn [fst snd].
  - intros [= <-]. by eapply ledger_write_error.
  - apply IH.
Qed.

(** C4, amended.  For an authenticated request on an existing sale,
    [updateSaleStatus] answers 200 only when the pair (current status,
    new status) is (PENDING, COMPLETED), (PENDING, CANCELLED) or
    (COMPLETED, REFUNDED).  For such a pair it answers 200 and stores the
    new status whenever the stock can take back the units the change
    returns (none for COMPLETED; for REFUNDED and CANCELLED every line is
    positive and no product's quantity leaves the [INTEGER] range); in
    any case it answers 200, or it answers 500 and the sale is as it was.
    For every other pair it answers 400 with a message that names both
    states, and leaves the store, so the sale's status, unchanged. *)
Theorem updateSaleStatus_transition_table env req s uid id to sale :
  us_user req = Some uid → uid ≠ "" → us_id req = Some id → id ≠ "" →
  us_status req = Some to → to ≠ "" → sales s !! id = Some sale →
  let r := run (updateSaleStatus env req) s in
  (statusCode r.1 = 200 → allowed_transition (Sale.status sale) to) ∧
  (allowed_transition (Sale.status sale) to →
     (to = "REFUNDED" ∨ to = "CANCELLED" → restock_fits s (Sale.items sale)) →
     statusCode r.1 = 200 ∧ success r.1 = true ∧
     SaleStatus_name <$> (Sale.status <$> sales r.2 !! id) = Some to) ∧
  (allowed_transition (Sale.status sale) to →
     (statusCode r.1 = 200 ∧
      SaleStatus_name <$> (Sale.status <$> sales r.2 !! id) = Some to) ∨
     (r.1 = sendResponse 500 "Internal server error" NoData ∧
      sales r.2 !! id = Some sale)) ∧
  (¬ allowed_transition (Sale.status sale) to →
     r.1 = sendResponse 400
             ("Invalid status transition from "
              +:+ SaleStatus_name (Sale.status sale) +:+ " to " +:+ to) NoData ∧
     r.2 = s).
Proof.
  intros Hu Huid Hid Hidne Hto Htone Hsale r. subst r.
  assert (¬ allowed_transition (Sale.status sale) to →
          run (updateSaleStatus env req) s
          = (sendResponse 400
               ("Invalid status transition from "
                +:+ SaleStatus_name (Sale.status sale) +:+ " to " +:+ to) NoData,
             s)) as Hno.
  { intros Hinvalid.
    assert (isValidStatusTransition (Sale.status sale) to = false) as E.
    { destruct (isValidStatusTransition (Sale.status sale) to) eqn:E; [|done].
      by apply allowed_transition_valid in E. }
    by rewrite (updateSaleStatus_invalid env req s uid id to sale). }
  split; [|split; [|split]].
  - intros Hcode.
    destruct (isValidStatusTransition (Sale.status sale) to) eqn:E;
      [by apply allowed_transition_valid|].
    rewrite Hno in Hcode; [done|].
    intros Hv%allowed_transition_valid. congruence.
  - intros Hvalid%allowed_transition_valid Hfits.
    destruct (isValidStatusTransition_parse _ _ Hvalid) as (st & Hparse & Hname).
    rewrite (sales_after_status_update env req s uid id to sale st) by done.
    simpl. rewrite lookup_insert_eq. simpl. by rewrite Hname.
  - intros Hvalid%allowed_transition_valid.
    destruct (isValidStatusTransition_parse _ _ Hvalid) as (st & Hparse & Hname).
    pose proof (updateSaleStatus_valid env req s uid id to sale st
                  Hu Huid Hid Hidne Hto Htone Hsale Hvalid Hparse) as H.
    cbv zeta in H. set (loop := if _ || _ then _ else _) in H.
    assert (sales (run loop s).2 = sales s) as Hsales.
    { subst loop. destruct (_ || _); [apply ledger_loop_sales|done]. }
    destruct (run loop s).1 as [e|[]] eqn:Hl; destruct H as [_ ->].
    + right. cbn [fst snd]. rewrite Hsales. split; [|done].
      subst loop. destruct (_ || _); [by eapply ledger_loop_error|done].
    + left. simpl. rewrite lookup_insert_eq. simpl. by rewrite Hname.
  - intros Hinvalid. by rewrite Hno.
Qed.

(** ** Refunds restock *)

Lemma total_stock_insert (m : gmap string Product.t) id p p' :
  m !! id = Some p →
  map_fold (λ _ p acc, Product.quantity p + acc) 0 (<[id := p']> m)
  = map_fold (λ _ p acc, Product.quantity p + acc) 0 m
    - Product.quantity p + Product.quantity p'.
Proof.
  intros Hp.
  rewrite <- (insert_delete_eq m id p').
  rewrite <- (insert_id m id p Hp) at 2.
  rewrite <- (insert_delete_eq m id p).
  rewrite !map_fold_insert_L; try (by rewrite lookup_delete_eq);
    try (intros; lia).
Qed.

(** What a loop of ledger calls has done when it has gone through. *)
Lemma ledger_loop_return_effect (items : list SaleItem.t) saleId userId s :
  (run (ledger_loop
          (map (λ item, (SaleItem.productId item, SaleItem.quantity item))
             items) saleId userId RETURN) s).1 = inr tt →
  let s' := (run (ledger_loop
                    (map (λ item, (SaleItem.productId item, SaleItem.quantity item))
                       items) saleId userId RETURN) s).2 in
  (∃ entries,
     inventoryLogs s' = rev entries ++ inventoryLogs s ∧
     Forall2 (λ item e,
                InventoryLog.type e = RETURN ∧
                InventoryLog.quantity e = SaleItem.quantity item ∧
                InventoryLog.productId e = SaleItem.productId item ∧
                InventoryLog.saleId e = Some saleId) items entries) ∧
  (∀ pid p, products s !! pid = Some p →
     ∃ p', products s' !! pid = Some p' ∧
           Product.quantity p'
           = Product.quantity p + returned_quantity pid items) ∧
  total_stock s' = total_stock s + total_quantity items.
Proof.
  revert s. induction items as [|item items IH]; intros s Hok.
  - simpl. split; [exists []; by split|]. split; [|lia].
    intros pid p Hp. exists p. split; [done|lia].
  - revert Hok. cbn [map ledger_loop]. cbv zeta.
    rewrite run_and_then, run_createSaleInventoryLog.
    destruct (ledger_write _ _ _ _ _ s) as [err|s1] eqn:Hw; [done|].
    apply ledger_write_inr in Hw as (p & Hp & _ & Hs1). cbv zeta in Hs1.
    cbn [fst snd]. intros Hok.
    set (e := ledger_entry _ _ _ _ _ _) in Hs1.
    set (smid := ledger_audit _ _ _ _) in *.
    destruct (IH smid Hok) as ((entries & Hlogs & Hentries) & Hprods & Htotal).
    cbv zeta in *. split; [|split].
    + exists (e :: entries). simpl. rewrite <- app_assoc. split; [|by constructor].
      rewrite Hlogs. subst smid s1. done.
    + intros pid p0 Hp0.
      destruct (decide (SaleItem.productId item = pid)) as [<-|Hne].
      * rewrite Hp in Hp0. injection Hp0 as <-.
        destruct (Hprods (SaleItem.productId item)
                    (Product.set_quantity (InventoryLog.newStock e) p))
          as (p' & Hp' & Hq'); [subst smid s1; simpl; by rewrite lookup_insert_eq|].
        exists p'. split; [done|]. rewrite Hq'. simpl.
        repeat case_decide; try done; lia.
      * destruct (Hprods pid p0) as (p' & Hp' & Hq');
          [subst smid s1; simpl; by rewrite lookup_insert_ne|].
        exists p'. split; [done|]. rewrite Hq'. simpl.
        repeat case_decide; try done; lia.
    + rewrite Htotal. unfold total_stock. subst smid s1. simpl.
      rewrite (total_stock_insert _ _ _ _ Hp). simpl. lia.
Qed.

(** C6, amended.  For a sale in status [COMPLETED] whose units the
    stock can take back (every line is positive, its product is there
    with a quantity that is not negative, and no product's quantity
    leaves the [INTEGER] range when the units of its lines are added),
    [updateSaleStatus(saleId, REFUNDED)] succeeds, sets the status, and
    appends to the ledger exactly one [RETURN] entry per line item, in
    order, each with the item's product and quantity and a reference to
    the sale; every product's quantity grows by the units of that
    product on the lines, and the stock as a whole by the sum of the
    line quantities. *)
Theorem refund_restocks env req s uid id sale :
  us_user req = Some uid → uid ≠ "" → us_id req = Some id → id ≠ "" →
  us_status req = Some "REFUNDED" →
  sales s !! id = Some sale → Sale.status sale = COMPLETED →
  restock_fits s (Sale.items sale) →
  let r := run (updateSaleStatus env req) s in
  statusCode r.1 = 200 ∧
  Sale.status <$> sales r.2 !! id = Some REFUNDED ∧
  (∃ entries,
     inventoryLogs r.2 = rev entries ++ inventoryLogs s ∧
     Forall2 (λ item e,
                InventoryLog.type e = RETURN ∧
                InventoryLog.quantity e = SaleItem.quantity item ∧
                InventoryLog.productId e = SaleItem.productId item ∧
                InventoryLog.saleId e = Some id) (Sale.items sale) entries) ∧
  (∀ pid p, products s !! pid = Some p →
     ∃ p', products r.2 !! pid = Some p' ∧
           Product.quantity p'
           = Product.quantity p + returned_quantity pid (Sale.items sale)) ∧
  total_stock r.2 = total_stock s + total_quantity (Sale.items sale).
Proof.
  intros Hu Huid Hid Hidne Hto Hsale Hstatus Hfits r. subst r.
  rewrite (sales_after_status_update env req s uid id "REFUNDED" sale REFUNDED);
    try done; [|by rewrite Hstatus].
  cbv zeta. simpl. rewrite lookup_insert_eq. split; [done|]. split; [done|].
  apply (ledger_loop_return_effect (Sale.items sale) id uid s).
  apply ledger_loop_return_ok; [by eauto|done].
Qed.

(** ** Run on its own, an operation is all or nothing *)


(** X12: run on its own, [stockIn], [stockOut], [adjustStock] or
    [createSale] that does not answer with success leaves the whole store,
    the audit trail included, as it found it; so does [updateSaleStatus]
    when the stock can take back the units of every stored sale. *)
Lemma sequential_all_or_nothing op s :
  (∀ env req, op = UpdateSaleStatus env req →
     ∀ id sale, sales s !! id = Some sale → restock_fits s (Sale.items sale)) →
  success (run (handler op) s).1 = false → (run (handler op) s).2 = s.
Proof.
  intros Hfits Hfail.
  destruct op as [req|req|req|env req|env req]; simpl in *.
  - destruct (stockIn_cases req s) as [(_ & H & _)|(?&?&?&?&_&_&_&_&_&_&H)];
      [done|].
    cbv zeta in H. destruct H as [_ H]. by rewrite H in Hfail.
  - destruct (stockOut_cases req s) as [(_ & H & _)|(?&?&?&?&_&_&_&_&_&_&_&H)];
      [done|].
    cbv zeta in H. destruct H as [_ H]. by rewrite H in Hfail.
  - destruct (adjustStock_cases req s) as [(_ & H & _)|(?&?&?&?&_&_&_&_&_&_&H)];
      [done|].
    cbv zeta in H. destruct H as [_ H]. by rewrite H in Hfail.
  - apply createSale_writes_nothing.
  - destruct (updateSaleStatus_shape env req s)
      as [(_ & H & _)|(uid & id & status & sale & st & _ & _ & _ & _ & Hsale & _ & _ & H)];
      [done|].
    cbv zeta in H.
    set (loop := if _ || _ then _ else _) in H.
    assert ((run loop s).1 = inr tt) as Hloop.
    { subst loop.
      destruct (String.eqb status "REFUNDED" || String.eqb status "CANCELLED");
        [|done].
      apply ledger_loop_return_ok; eauto. }
    rewrite Hloop in H. destruct H as [_ H]. by rewrite H in Hfail.
Qed.

(** ** The scenarios of the design document, and two interleavings *)

Example scenario_A :
  ∃ p e s,
    run (stockOut (mkStockRequest (Some "u") (Some "P") (Some 5) None None))
        demo_store
    = (sendResponse 200 "Stock removed successfully" (StockData "P" p e), s) ∧
    Product.quantity p = 0 ∧ products s !! "P" = Some p ∧
    InventoryLog.type e = STOCK_OUT ∧ InventoryLog.previousStock e = 5 ∧
    InventoryLog.newStock e = 0 ∧ inventoryLogs s = [e].
Proof. eexists _, _, _. split; [vm_compute; reflexivity|]. by repeat split. Qed.

Example scenario_D :
  ∃ p e s,
    run (adjustStock (mkStockRequest (Some "u") (Some "P") (Some 20) None None))
        (with_products {[ "P" := Product.set_quantity 15 demo_product ]} demo_store)
    = (sendResponse 200 "Stock adjusted successfully"
         (AdjustData "P" p e STOCK_IN 5), s) ∧
    InventoryLog.type e = STOCK_IN ∧ InventoryLog.quantity e = 5 ∧
    InventoryLog.newStock e = 20 ∧ Product.quantity p = 20.
Proof. eexists _, _, _. split; [vm_compute; reflexivity|]. by repeat split. Qed.

Example scenario_E :
  let r := run (updateSaleStatus later_env refund_request) sold_store in
  statusCode r.1 = 200 ∧
  Product.quantity <$> products r.2 !! "P" = Some 5 ∧
  inventoryLogs r.2
  = InventoryLog.mk RETURN 3 2 5 "Product return" "P" "u" (Some "S1")
    :: inventoryLogs sold_store.
Proof. vm_compute. by repeat split. Qed.

(** C8.  Two [stockOut] calls of 7 units against 10: when both have
    read the product, outside and inside their transactions, before
    either commits, both succeed, two entries 10 -> 3 are written and
    the quantity ends at 3. *)
Lemma concurrent_stockOut_both_succeed :
  let '(a, b, s) :=
    run2 both_read_first (stockOut stockOut7) (stockOut stockOut7) stock10 in
  statusCode a = 200 ∧ statusCode b = 200 ∧
  Product.quantity <$> products s !! "P" = Some 3 ∧
  InventoryLog.quantity <$> inventoryLogs s = [7; 7].
Proof. vm_compute. by repeat split. Qed.

(** Whatever the schedule, the quantity ends at 3; what varies is whether
    the second call is refused. *)
Lemma concurrent_stockOut_outcomes (sched : list bool) :
  let '(a, b, s) :=
    run2 sched (stockOut stockOut7) (stockOut stockOut7) stock10 in
  Product.quantity <$> products s !! "P" = Some 3 ∧
  (one_success_one_refusal a b ∨ (statusCode a = 200 ∧ statusCode b = 200)).
Proof.
  split_sched sched 9%nat; vm_compute;
    (split; [done|]);
    first [left; left; by split | left; right; by split | right; by split].
Qed.

Lemma concurrent_TS_stockOut_both_succeed :
  let '(a, b, s) :=
    run2 [true; false] (TS.stockOut stockOut7) (TS.stockOut stockOut7) stock10 in
  statusCode a = 200 ∧ statusCode b = 200 ∧
  Product.quantity <$> products s !! "P" = Some 3 ∧
  InventoryLog.quantity <$> inventoryLogs s = [7; 7].
Proof. vm_compute. by repeat split. Qed.

(** One after the other, the second is refused. *)
Lemma serial_stockOut_second_refused :
  let '(a, b, s) := run2 [] (stockOut stockOut7) (stockOut stockOut7) stock10 in
  statusCode a = 200 ∧
  b = sendResponse 400 "Insufficient stock" NoData ∧
  Product.quantity <$> products s !! "P" = Some 3 ∧
  InventoryLog.quantity <$> inventoryLogs s = [7].
Proof. vm_compute. by repeat split. Qed.

(** With an isolated transaction no schedule lets both calls through. *)
Lemma isolated_stockOut_exactly_one (sched : list bool) :
  let '(a, b, s) :=
    run2 sched (stockOut_isolated stockOut7) (stockOut_isolated stockOut7) stock10 in
  one_success_one_refusal a b ∧
  Product.quantity <$> products s !! "P" = Some 3.
Proof.
  destruct sched as [|[|] [|[|] [|[|] sched]]]; vm_compute;
    (split; [(left; by split) || (right; by split)|done]).
Qed.

(** C2.  A refund that fails half-way is not undone.  The completed
    sale has one unit of [A] and one of [B]; [B] is at 2147483647, the
    top of its column.  The ledger call for [A] commits on its own: [A]
    goes from 5 to 6 and its [RETURN] entry is written.  The call for
    [B] is refused by the database, the request is answered 500, and the
    status written inside the transaction is rolled back: the sale is
    still [COMPLETED], with one of its two lines restocked. *)
Lemma refund_failure_keeps_partial_restock :
  let r := run (updateSaleStatus later_env refund_request) full_shelf_store in
  r.1 = sendResponse 500 "Internal server error" NoData ∧
  Sale.status <$> sales r.2 !! "S1" = Some COMPLETED ∧
  Product.quantity <$> products full_shelf_store !! "A" = Some 5 ∧
  Product.quantity <$> products r.2 !! "A" = Some 6 ∧
  Product.quantity <$> products r.2 !! "B" = Some 2147483647 ∧
  inventoryLogs full_shelf_store = [] ∧
  inventoryLogs r.2
  = [InventoryLog.mk RETURN 1 5 6 "Product return" "A" "u" (Some "S1")].
Proof. vm_compute. by repeat split. Qed.

(** C4 as stated fails: (PENDING, CANCELLED) is a pair of the table, and
    the cancellation of this pending sale does not succeed; its one unit
    of [P] would take [P] beyond the [INTEGER] range. *)
Lemma cancel_of_allowed_pair_fails :
  sales full_P_store !! "S8" = Some pending_sale_of_P ∧
  allowed_transition (Sale.status pending_sale_of_P) "CANCELLED" ∧
  let r := run (updateSaleStatus later_env cancel_S8) full_P_store in
  statusCode r.1 = 500 ∧ success r.1 = false ∧
  Sale.status <$> sales r.2 !! "S8" = Some PENDING.
Proof.
  split; [vm_compute; reflexivity|]. split; [right; left; by split|].
  vm_compute. by repeat split.
Qed.

(** C6 as stated fails: this sale is [COMPLETED] and has two lines; its
    refund does not succeed, it writes one [RETURN] entry, not two, and
    the unit of [B] is not restocked. *)
Lemma refund_without_room_fails :
  sales full_shelf_store !! "S1" = Some sale_of_A_and_B ∧
  Sale.status sale_of_A_and_B = COMPLETED ∧
  length (Sale.items sale_of_A_and_B) = 2%nat ∧
  let r := run (updateSaleStatus later_env refund_request) full_shelf_store in
  statusCode r.1 ≠ 200 ∧
  length (inventoryLogs r.2) = 1%nat ∧
  Product.quantity <$> products r.2 !! "B"
  = Product.quantity <$> products full_shelf_store !! "B".
Proof.
  split; [vm_compute; reflexivity|]. split; [done|]. split; [done|].
  vm_compute. by repeat split.
Qed.

(** ** Instances of the theorems *)

Lemma quantity_never_negative_witness :
  stock_nonneg demo_store ∧ items_positive demo_store ∧
  Forall (λ st, stock_nonneg st.2) (exec demo_ops demo_store) ∧
  stock_nonneg (exec_final demo_ops demo_store).
Proof.
  assert (stock_nonneg demo_store) as H1.
  { intros id p H. unfold demo_store in H. simpl in H.
    apply lookup_singleton_Some in H as [_ <-]. simpl. lia. }
  assert (items_positive demo_store) as H2.
  { intros id sale item H. unfold demo_store in H. simpl in H.
    by rewrite lookup_empty in H. }
  split; [exact H1|]. split; [exact H2|].
  exact (quantity_never_negative demo_ops demo_store H1 H2).
Defined.

Lemma log_quantity_magnitude_witness :
  stock_nonneg demo_store ∧ items_positive demo_store ∧
  Forall (λ x, new_entry_quantity_ok x.1 x.2) (exec_by demo_ops demo_store).
Proof.
  assert (stock_nonneg demo_store) as H1.
  { intros id p H. unfold demo_store in H. simpl in H.
    apply lookup_singleton_Some in H as [_ <-]. simpl. lia. }
  assert (items_positive demo_store) as H2.
  { intros id sale item H. unfold demo_store in H. simpl in H.
    by rewrite lookup_empty in H. }
  split; [exact H1|]. split; [exact H2|].
  exact (log_quantity_magnitude demo_ops demo_store H1 H2).
Defined.

Lemma restock_fits_sold_store : restock_fits sold_store (Sale.items demo_sale).
Proof.
  constructor; [|constructor]. split; [simpl; lia|].
  eexists. split; [vm_compute; reflexivity|]. vm_compute. by split.
Qed.

Lemma updateSaleStatus_changes_only_status_witness :
  statusCode (run (updateSaleStatus later_env refund_request) sold_store).1 = 200 ∧
  us_id refund_request = Some "S1" ∧
  sales sold_store !! "S1" = Some demo_sale ∧
  ∃ new,
    sales (run (updateSaleStatus later_env refund_request) sold_store).2 !! "S1"
      = Some new ∧
    Sale.saleNumber new = Sale.saleNumber demo_sale ∧
    Sale.totalAmount new = Sale.totalAmount demo_sale ∧
    Sale.taxAmount new = Sale.taxAmount demo_sale ∧
    Sale.discount new = Sale.discount demo_sale ∧
    Sale.finalAmount new = Sale.finalAmount demo_sale ∧
    Sale.paymentMethod new = Sale.paymentMethod demo_sale ∧
    Sale.staffId new = Sale.staffId demo_sale ∧
    Sale.customerId new = Sale.customerId demo_sale ∧
    Sale.items new = Sale.items demo_sale ∧
    ∀ id', id' ≠ "S1" →
      sales (run (updateSaleStatus later_env refund_request) sold_store).2 !! id'
      = sales sold_store !! id'.
Proof.
  assert (statusCode (run (updateSaleStatus later_env refund_request) sold_store).1
          = 200) as H1 by (vm_compute; reflexivity).
  assert (sales sold_store !! "S1" = Some demo_sale) as H2
    by (vm_compute; reflexivity).
  split; [exact H1|]. split; [reflexivity|]. split; [exact H2|].
  exact (updateSaleStatus_changes_only_status later_env refund_request sold_store
           "S1" demo_sale H1 eq_refl H2).
Defined.

Lemma updateSaleStatus_transition_table_witness :
  us_user refund_request = Some "u" ∧ "u" ≠ "" ∧
  us_id refund_request = Some "S1" ∧ "S1" ≠ "" ∧
  us_status refund_request = Some "REFUNDED" ∧ "REFUNDED" ≠ "" ∧
  sales sold_store !! "S1" = Some demo_sale ∧
  (statusCode (run (updateSaleStatus later_env refund_request) sold_store).1 = 200
   → allowed_transition (Sale.status demo_sale) "REFUNDED") ∧
  (allowed_transition (Sale.status demo_sale) "REFUNDED" →
   ("REFUNDED" = "REFUNDED" ∨ "REFUNDED" = "CANCELLED" →
    restock_fits sold_store (Sale.items demo_sale)) →
     statusCode (run (updateSaleStatus later_env refund_request) sold_store).1 = 200 ∧
     success (run (updateSaleStatus later_env refund_request) sold_store).1 = true ∧
     SaleStatus_name <$>
       (Sale.status <$>
          sales (run (updateSaleStatus later_env refund_request) sold_store).2 !! "S1")
     = Some "REFUNDED") ∧
  (allowed_transition (Sale.status demo_sale) "REFUNDED" →
     (statusCode (run (updateSaleStatus later_env refund_request) sold_store).1 = 200 ∧
      SaleStatus_name <$>
        (Sale.status <$>
           sales (run (updateSaleStatus later_env refund_request) sold_store).2
             !! "S1")
      = Some "REFUNDED") ∨
     ((run (updateSaleStatus later_env refund_request) sold_store).1
      = sendResponse 500 "Internal server error" NoData ∧
      sales (run (updateSaleStatus later_env refund_request) sold_store).2 !! "S1"
      = Some demo_sale)) ∧
  (¬ allowed_transition (Sale.status demo_sale) "REFUNDED" →
     (run (updateSaleStatus later_env refund_request) sold_store).1
     = sendResponse 400
         ("Invalid status transition from "
          +:+ SaleStatus_name (Sale.status demo_sale) +:+ " to " +:+ "REFUNDED")
         NoData ∧
     (run (updateSaleStatus later_env refund_request) sold_store).2 = sold_store).
Proof.
  assert ("u" ≠ "") as H1 by discriminate.
  assert ("S1" ≠ "") as H2 by discriminate.
  assert ("REFUNDED" ≠ "") as H3 by discriminate.
  assert (sales sold_store !! "S1" = Some demo_sale) as H4
    by (vm_compute; reflexivity).
  do 7 (split; [done|]).
  exact (updateSaleStatus_transition_table later_env refund_request sold_store
           "u" "S1" "REFUNDED" demo_sale eq_refl H1 eq_refl H2 eq_refl H3 H4).
Defined.

Lemma refund_restocks_witness :
  us_user refund_request = Some "u" ∧ "u" ≠ "" ∧
  us_id refund_request = Some "S1" ∧ "S1" ≠ "" ∧
  us_status refund_request = Some "REFUNDED" ∧
  sales sold_store !! "S1" = Some demo_sale ∧
  Sale.status demo_sale = COMPLETED ∧
  restock_fits sold_store (Sale.items demo_sale) ∧
  statusCode (run (updateSaleStatus later_env refund_request) sold_store).1 = 200 ∧
  Sale.status <$>
    sales (run (updateSaleStatus later_env refund_request) sold_store).2 !! "S1"
  = Some REFUNDED ∧
  (∃ entries,
     inventoryLogs (run (updateSaleStatus later_env refund_request) sold_store).2
     = rev entries ++ inventoryLogs sold_store ∧
     Forall2 (λ item e,
                InventoryLog.type e = RETURN ∧
                InventoryLog.quantity e = SaleItem.quantity item ∧
                InventoryLog.productId e = SaleItem.productId item ∧
                InventoryLog.saleId e = Some "S1") (Sale.items demo_sale) entries) ∧
  (∀ pid p, products sold_store !! pid = Some p →
     ∃ p', products (run (updateSaleStatus later_env refund_request) sold_store).2
             !! pid = Some p' ∧
           Product.quantity p'
           = Product.quantity p + returned_quantity pid (Sale.items demo_sale)) ∧
  total_stock (run (updateSaleStatus later_env refund_request) sold_store).2
  = total_stock sold_store + total_quantity (Sale.items demo_sale).
Proof.
  assert ("u" ≠ "") as H1 by discriminate.
  assert ("S1" ≠ "") as H2 by discriminate.
  assert (sales sold_store !! "S1" = Some demo_sale) as H4
    by (vm_compute; reflexivity).
  pose proof restock_fits_sold_store as H5.
  do 8 (split; [done|]).
  exact (refund_restocks later_env refund_request sold_store "u" "S1" demo_sale
           eq_refl H1 eq_refl H2 eq_refl H4 eq_refl H5).
Defined.

(** ** The ledger summary and the stock *)

Lemma find_group (mk : InventoryLogType → option LogGroup) t l :
  (∀ t' g, mk t' = Some g → group_type g = t') →
  List.find (λ g, bool_decide (group_type g = t)) (omap mk l)
  = if decide (t ∈ l) then mk t else None.
Proof.
  intros Hmk. induction l as [|t0 l IH].
  - destruct (decide (t ∈ [])) as [H|H]; [by apply elem_of_nil in H|done].
  - cbn [omap list_omap]. destruct (decide (t ∈ t0 :: l)) as [Hin|Hin].
    + destruct (mk t0) as [g|] eqn:Hg.
      * pose proof (Hmk _ _ Hg) as Ht0. cbn [List.find].
        case_bool_decide as Hd; [congruence|].
        rewrite IH. rewrite decide_True; [done|].
        apply elem_of_cons in Hin as [->|?]; [congruence|done].
      * rewrite IH. destruct (decide (t ∈ l)) as [|Hn]; [done|].
        apply elem_of_cons in Hin as [->|?]; [done|done].
    + assert (t ≠ t0 ∧ t ∉ l) as [Hne Hn].
      { split; intros ?; apply Hin; [subst; left|by right]. }
      destruct (mk t0) as [g|] eqn:Hg.
      * pose proof (Hmk _ _ Hg) as Ht0. cbn [List.find].
        case_bool_decide as Hd; [congruence|].
        rewrite IH. by rewrite decide_False.
      * rewrite IH. by rewrite decide_False.
Qed.

Lemma InventoryLogTypes_all t : t ∈ InventoryLogTypes.
Proof. unfold InventoryLogTypes. destruct t; set_solver. Qed.

Lemma sum_for_groupBy w t logs :
  sum_for t (groupBy_type w logs) = sum_quantities (rows_of_type w t logs).
Proof.
  unfold sum_for, groupBy_type. rewrite find_group.
  - rewrite decide_True by apply InventoryLogTypes_all.
    destruct (rows_of_type w t logs) as [|e rows]; [done|].
    cbn [fmap option_fmap option_map truthy_num default].
    cbn [sum_quantity id].
    destruct (Z.eqb_spec (sum_quantities (e :: rows)) 0) as [Hz|]; done.
  - intros t' g H. destruct (rows_of_type w t' logs); [done|]. by simplify_eq.
Qed.

Lemma rows_of_type_cons w t e logs :
  rows_of_type w t (e :: logs) =
  if where_matches w e && bool_decide (InventoryLog.type e = t)
  then e :: rows_of_type w t logs else rows_of_type w t logs.
Proof. done. Qed.

Lemma run_getInventorySummary w s :
  run (getInventorySummary w) s =
  (let rows t := rows_of_type w t (inventoryLogs s) in
   mkInventorySummary
     (sum_quantities (rows STOCK_IN)) (sum_quantities (rows STOCK_OUT))
     (sum_quantities (rows SALE)) (sum_quantities (rows RETURN))
     (sum_quantities (rows STOCK_IN) - sum_quantities (rows STOCK_OUT)
      - sum_quantities (rows SALE) + sum_quantities (rows RETURN))
     (foldl (λ acc curr, acc + count_id curr) 0
        (groupBy_type w (inventoryLogs s))), s).
Proof.
  unfold getInventorySummary. rewrite run_mbind, run_query. cbn [fst snd run mret Proc_ret].
  by rewrite !sum_for_groupBy.
Qed.

Lemma netChange_net_of w s :
  netChange (run (getInventorySummary w) s).1 = net_of w (inventoryLogs s).
Proof.
  rewrite run_getInventorySummary. cbn [fst netChange].
  induction (inventoryLogs s) as [|e logs IH]; [done|].
  rewrite !rows_of_type_cons. cbn [net_of foldr]. fold (net_of w logs).
  rewrite <- IH. unfold signed_quantity, sum_quantities.
  destruct (where_matches w e); cbn [andb]; [|done].
  destruct (InventoryLog.type e); repeat case_bool_decide; try done;
    cbn [foldr]; lia.
Qed.

Lemma where_product_matches pid e :
  where_matches (where_product pid) e = bool_decide (InventoryLog.productId e = pid).
Proof. unfold where_matches, where_product; simpl. by rewrite !andb_true_r. Qed.

Lemma balance_audit pid u a r rid s :
  balance pid (audit_commit u a r rid s) = balance pid s.
Proof. done. Qed.

Lemma balance_with_auditLogs pid l s :
  balance pid (with_auditLogs l s) = balance pid s.
Proof. done. Qed.

Lemma balance_with_sales pid ss s : balance pid (with_sales ss s) = balance pid s.
Proof. done. Qed.

Lemma balance_stock_commit pid id p p' e s :
  products s !! id = Some p → InventoryLog.productId e = id →
  Product.quantity p' - Product.quantity p = signed_quantity e →
  balance pid (stock_commit id p' e s) = balance pid s.
Proof.
  intros Hp <- Hq. unfold balance, stock_of, stock_commit; simpl.
  rewrite where_product_matches.
  case_bool_decide as Hd.
  - rewrite Hd in Hp |- *. rewrite lookup_insert_eq, Hp. simpl. lia.
  - by rewrite lookup_insert_ne.
Qed.

Lemma balance_ledger_loop pid items saleId userId type s :
  type = SALE ∨ type = RETURN →
  balance pid (run (ledger_loop items saleId userId type) s).2 = balance pid s.
Proof.
  intros Ht.
  apply (ledger_loop_run (λ s', balance pid s' = balance pid s)); [done|].
  intros productId quantity s0 s1 _ IH Hw.
  apply ledger_write_inr in Hw as (p & Hp & _ & ->).
  unfold ledger_audit, auditLog_create. rewrite balance_with_auditLogs, <- IH.
  apply (balance_stock_commit pid productId p); [done|done|].
  unfold ledger_entry, signed_quantity; simpl.
  destruct Ht as [-> | ->]; simpl; lia.
Qed.

Lemma balance_handler pid op s :
  balance pid (run (handler op) s).2 = balance pid s.
Proof.
  destruct op as [req|req|req|env req|env req]; simpl.
  - destruct (stockIn_cases req s) as [(_ & -> & _)|(uid & id & q & p & _ & _ & _ & _ & Hp & _ & _ & ->)];
      [done|].
    cbn [snd]. rewrite balance_audit.
    apply (balance_stock_commit pid id p); [done|done|].
    destruct (truthy_dec (costPrice req)); simpl; unfold signed_quantity; simpl; lia.
  - destruct (stockOut_cases req s) as [(_ & -> & _)|(uid & id & q & p & _ & _ & _ & _ & _ & Hp & _ & _ & ->)];
      [done|].
    cbn [snd]. rewrite balance_audit.
    apply (balance_stock_commit pid id p); [done|done|].
    unfold signed_quantity; simpl; lia.
  - destruct (adjustStock_cases req s) as [(_ & -> & _)|(uid & id & q & p & _ & _ & _ & _ & Hp & _ & _ & ->)];
      [done|].
    cbn [snd]. rewrite balance_audit.
    apply (balance_stock_commit pid id p); [done|done|].
    unfold signed_quantity; simpl.
    destruct (Z.ltb_spec (Product.quantity p) q); simpl; lia.
  - destruct (createSale_shape env req s)
      as [(_ & -> & _)|(uid & pm & ta & d & sale & pre & _ & _ & _ & _ & _ & _ & H)];
      [done|].
    cbv zeta in H.
    destruct (run (ledger_loop _ _ _ _) s).1 eqn:Hl.
    + destruct H as [_ ->]. cbn [snd]. by apply balance_ledger_loop; left.
    + destruct H as [_ ->]. cbn [snd]. rewrite balance_audit, balance_with_sales.
      by apply balance_ledger_loop; left.
  - destruct (updateSaleStatus_shape env req s)
      as [(_ & -> & _)|(uid & id & status & ex & st & _ & _ & _ & _ & _ & _ & _ & H)];
      [done|].
    cbv zeta in H.
    assert (∀ s', balance pid
      (run (if String.eqb status "REFUNDED" || String.eqb status "CANCELLED"
            then ledger_loop
                   (map (λ item, (SaleItem.productId item, SaleItem.quantity item))
                      (Sale.items ex)) id uid RETURN
            else ok tt) s').2 = balance pid s') as Hb.
    { intros s'. destruct (_ || _); [by apply balance_ledger_loop; right|done]. }
    destruct (run _ s).1 eqn:Hl.
    + destruct H as [_ ->]. cbn [snd]. apply Hb.
    + destruct H as [_ ->]. cbn [snd]. rewrite balance_audit, balance_with_sales.
      apply Hb.
Qed.

Lemma balance_exec_final pid ops s :
  balance pid (exec_final ops s) = balance pid s.
Proof.
  revert s. induction ops as [|op ops IH]; intros s; [done|].
  simpl. rewrite IH. apply balance_handler.
Qed.

(** X1: run one after the other, the core operations change the stored
    quantity of a product by exactly the [netChange] that
    [getInventorySummary] reports for the product's ledger entries. *)
Theorem netChange_tracks_stock (ops : list Op) (s : Store) (productId : string) :
  let before := (run (getInventorySummary (where_product productId)) s).1 in
  let after :=
    (run (getInventorySummary (where_product productId)) (exec_final ops s)).1 in
  stock_of productId (exec_final ops s) - stock_of productId s
  = netChange after - netChange before.
Proof.
  cbv zeta. rewrite !netChange_net_of.
  pose proof (balance_exec_final productId ops s) as H. unfold balance in H. lia.
Qed.
Lemma foldl_group_counts w logs l a :
  foldl (λ acc curr, acc + count_id curr) a
    (omap (λ t, match rows_of_type w t logs with
                | [] => None
                | rows => Some (mkLogGroup t (sum_quantities rows)
                                           (Z.of_nat (length rows)))
                end) l)
  = a + foldr (λ t acc, Z.of_nat (length (rows_of_type w t logs)) + acc) 0 l.
Proof.
  revert a. induction l as [|t l IH]; intros a; [simpl; lia|].
  cbn [omap list_omap foldr].
  destruct (rows_of_type w t logs) as [|e rows]; [rewrite IH; simpl; lia|].
  cbn [foldl count_id]. rewrite IH. lia.
Qed.

(** X2: the [logCount] of the summary is the number of ledger entries the
    [where] clause selects, of whatever type: the counts of the groups
    partition the selected rows. *)
Theorem logCount_counts_selected_rows (w : LogWhere) (s : Store) :
  logCount (run (getInventorySummary w) s).1
  = Z.of_nat (length (List.filter (where_matches w) (inventoryLogs s))).
Proof.
  rewrite run_getInventorySummary. cbn [fst logCount].
  unfold groupBy_type. rewrite foldl_group_counts.
  unfold InventoryLogTypes. cbn [foldr].
  induction (inventoryLogs s) as [|e logs IH]; [done|].
  rewrite !rows_of_type_cons. cbn [List.filter].
  destruct (where_matches w e); cbn [andb]; [|exact IH].
  destruct (InventoryLog.type e); repeat case_bool_decide; try done;
    cbn [length]; lia.
Qed.

(** ** Invariants from the writes of the handlers

    Every write of a core request is an audit record, a stock write (one
    existing product and one ledger entry for it), the insertion of a
    completed sale, or a status written over an existing sale.  A predicate
    on stores that each of these writes keeps is kept by every database
    step of every handler, whatever runs in between. *)

Section writes.
Context (I : Store → Prop) (P : Sale.t → Prop).
Hypothesis keeps_audit : ∀ s a, I s → I (with_auditLogs (a :: auditLogs s) s).
Hypothesis keeps_stock : ∀ s id p p' e,
  I s → products s !! id = Some p → master p' = master p →
  InventoryLog.productId e = id → InventoryLog.newStock e = Product.quantity p' →
  I (stock_commit id p' e s).
Hypothesis keeps_insert : ∀ s id sale,
  I s → Sale.status sale = COMPLETED →
  I (with_sales (<[id := sale]> (sales s)) s).
Hypothesis reads : ∀ s id row, I s → sales s !! id = Some row → P row.
Hypothesis keeps_status : ∀ s id old row st t,
  I s → P old → status_after old st → sales s !! id = Some row →
  I (with_sales (<[id := Sale.set_status st t row]> (sales s)) s).

Lemma writes_createAuditLog u a r rid : safe I (λ _, True) (createAuditLog u a r rid).
Proof.
  constructor; [|intros; by constructor].
  intros s Hs. unfold auditLog_create.
  case_match; [by apply keeps_audit|by destruct s].
Qed.

Lemma writes_stock id upd l :
  (∀ p, master (upd p) = master p ∧
        InventoryLog.newStock l = Product.quantity (upd p)) →
  InventoryLog.productId l = id →
  safe I (λ _ : Exn + (Product.t * InventoryLog.t), True) (commit (write_stock id upd l)).
Proof.
  intros Hupd Hid. apply safe_commit. intros s [p' l'] s' Hs.
  intros (p & Hp & _ & Hr)%write_stock_inr. injection Hr as -> -> ->.
  destruct (Hupd p) as [Hm Hq]. by apply (keeps_stock s id p).
Qed.

Lemma writes_stockIn req : safe I (λ _, True) (stockIn req).
Proof.
  destruct req as [u pid q r c].
  unfold stockIn, try_catch. cbn [user productId quantity reason costPrice]. cbv zeta.
  eapply safe_bind with (Q := λ _, True); [|by constructor].
  repeat case_match; try by constructor.
  all: eapply safe_bind with (Q := λ _, True); [by apply safe_query|].
  all: intros [product|] _; [|by constructor].
  all: eapply safe_bind with (Q := λ _, True); [by apply safe_query|].
  all: intros [locked|] _; [|by constructor].
  all: eapply safe_and_then with (Q := λ _, True);
    [eapply safe_mono; [|apply writes_stock]; [by intros []|by intros p|done]
    |intros; eapply safe_bind with (Q := λ _, True);
       [apply writes_createAuditLog|by constructor]].
Qed.

Lemma writes_stockOut req : safe I (λ _, True) (stockOut req).
Proof.
  destruct req as [u pid q r c].
  unfold stockOut, try_catch. cbn [user productId quantity reason costPrice]. cbv zeta.
  eapply safe_bind with (Q := λ _, True); [|by constructor].
  repeat case_match; try by constructor.
  eapply safe_bind with (Q := λ _, True); [by apply safe_query|].
  intros [product|] _; [|by constructor].
  destruct (Product.quantity product <? default 0 q) eqn:Hq; [by constructor|].
  eapply safe_bind with (Q := λ _, True); [by apply safe_query|].
  intros [locked|] _; [|by constructor].
  case_match; [by constructor|].
  eapply safe_and_then with (Q := λ _, True);
    [eapply safe_mono; [|apply writes_stock]; [by intros []|by intros p|done]
    |intros; eapply safe_bind with (Q := λ _, True);
       [apply writes_createAuditLog|by constructor]].
Qed.

Lemma writes_adjustStock req : safe I (λ _, True) (adjustStock req).
Proof.
  destruct req as [u pid q r c].
  unfold adjustStock, try_catch. cbn [user productId quantity reason costPrice]. cbv zeta.
  eapply safe_bind with (Q := λ _, True); [|by constructor].
  repeat case_match; try by constructor.
  eapply safe_bind with (Q := λ _, True); [by apply safe_query|].
  intros [product|] _; [|by constructor].
  eapply safe_bind with (Q := λ _, True); [by apply safe_query|].
  intros [locked|] _; [|by constructor].
  eapply safe_and_then with (Q := λ _, True);
    [eapply safe_mono; [|apply writes_stock]; [by intros []|by intros p|done]
    |intros; eapply safe_bind with (Q := λ _, True);
       [apply writes_createAuditLog|by constructor]].
Qed.

Lemma writes_createSaleInventoryLog productId quantity saleId userId type :
  safe I (λ _, True) (createSaleInventoryLog productId quantity saleId userId type).
Proof.
  unfold createSaleInventoryLog.
  eapply safe_bind with (Q := λ _, True); [by apply safe_query|].
  intros [product|] _; [|by constructor]. cbv zeta.
  destruct (if bool_decide (type = SALE) then _ else _) as [e|newStock];
    [by constructor|].
  eapply safe_bind with (Q := λ _, True); [by apply safe_query|].
  intros [locked|] _; [|by constructor].
  case_match; [by constructor|].
  eapply safe_and_then with (Q := λ _, True);
    [eapply safe_mono; [|apply writes_stock]; [by intros []|by intros p|done]
    |intros; eapply safe_bind with (Q := λ _, True);
       [apply writes_createAuditLog|by constructor]].
Qed.

Lemma writes_ledger_loop items saleId userId type :
  safe I (λ _, True) (ledger_loop items saleId userId type).
Proof.
  induction items as [|[pid q] items IH]; simpl; [by constructor|].
  eapply safe_and_then with (Q := λ _, True).
  - eapply safe_mono; [|apply writes_createSaleInventoryLog]. by intros [].
  - intros _ _. apply IH.
Qed.

Lemma writes_validate_items items totalAmount saleItemsData :
  safe I (λ _, True) (validate_items items totalAmount saleItemsData).
Proof.
  revert totalAmount saleItemsData.
  induction items as [|item items IH]; intros t d; simpl; [by constructor|].
  constructor; [done|]. intros s Hs.
  destruct (findActiveProduct (item_productId item) s) as [product|];
    [|by constructor].
  case_match; [by constructor|]. apply IH.
Qed.

Lemma writes_createSale env req : safe I (λ _, True) (createSale env req).
Proof.
  destruct req as [u cid items pm tax disc].
  unfold createSale, try_catch.
  cbn [cs_user cs_customerId cs_items cs_paymentMethod cs_taxAmount cs_discount].
  cbv zeta.
  eapply safe_bind with (Q := λ _, True); [|by constructor].
  destruct (negb (truthy_str u)); [by constructor|].
  destruct (bool_decide (items = [])); [by constructor|].
  destruct (negb (truthy_str pm)); [by constructor|].
  destruct (existsb _ items) eqn:Hex; [by constructor|].
  eapply safe_bind with (Q := λ _, True).
  { destruct (truthy_str cid); [by apply safe_query|by constructor]. }
  intros [] _; [by constructor|].
  eapply safe_and_then with (Q := λ _, True).
  { eapply safe_mono; [|apply writes_validate_items]. by intros []. }
  intros [totalAmount saleItemsData] _.
  eapply safe_and_then with (Q := λ sale, Sale.status sale = COMPLETED).
  { apply safe_query. intros s _. case_match eqn:Hsc; [done|].
    by apply sale_create_fields in Hsc as (_ & _ & _ & _ & _ & ? & _). }
  intros sale Hsale.
  eapply safe_and_then with (Q := λ _, True).
  { eapply safe_mono; [|apply writes_ledger_loop]; by intros []. }
  intros _ _.
  eapply safe_and_then with (Q := λ _, True).
  { eapply safe_mono; [|apply safe_commit]; [by intros []|].
    intros s a s' Hs [= <- <-]. by apply keeps_insert. }
  intros; eapply safe_bind with (Q := λ _, True); [|by constructor].
  apply writes_createAuditLog.
Qed.

Lemma writes_updateSaleStatus env req : safe I (λ _, True) (updateSaleStatus env req).
Proof.
  destruct req as [u id st r].
  unfold updateSaleStatus, try_catch. cbn [us_user us_id us_status us_reason].
  cbv zeta.
  eapply safe_bind with (Q := λ _, True); [|by constructor].
  destruct (negb (truthy_str u)); [by constructor|].
  destruct (_ || _); [by constructor|].
  eapply safe_bind with (Q := λ o, ∀ sale, o = Some sale → P sale).
  { apply safe_query. intros s Hs sale Hsale. by eapply reads. }
  intros [existingSale|] Hex; [|by constructor]. specialize (Hex _ eq_refl).
  destruct (isValidStatusTransition _ _) eqn:Hvalid; [|by constructor].
  cbn [negb].
  destruct (isValidStatusTransition_parse _ _ Hvalid) as (st' & Hparse & Hname).
  eapply safe_and_then with (Q := λ _, True).
  { apply safe_query. intros s _. by repeat case_match. }
  intros sale _.
  eapply safe_and_then with (Q := λ _, True).
  { destruct (_ || _); [|by constructor].
    eapply safe_mono; [|apply writes_ledger_loop]; by intros []. }
  intros _ _.
  eapply safe_and_then with (Q := λ _, True).
  { eapply safe_mono; [|apply safe_commit]; [by intros []|].
    intros s a s' Hs. unfold sale_update. rewrite Hparse.
    destruct (sales s !! default "" id) as [row|] eqn:Hrow; [|done].
    intros [= <- <-]. apply (keeps_status s _ existingSale); [done|done| |done].
    unfold status_after. by rewrite Hname. }
  intros; eapply safe_bind with (Q := λ _, True); [|by constructor].
  apply writes_createAuditLog.
Qed.

Lemma writes_handler op : safe I (λ _, True) (handler op).
Proof.
  destruct op; simpl.
  - apply writes_stockIn.
  - apply writes_stockOut.
  - apply writes_adjustStock.
  - apply writes_createSale.
  - apply writes_updateSaleStatus.
Qed.

Lemma writes_exec_final ops s : I s → I (exec_final ops s).
Proof.
  revert s. induction ops as [|op ops IH]; intros s Hs; [done|].
  simpl. apply IH.
  by destruct (safe_steps I (λ _, True) (handler op) s (writes_handler op) Hs)
    as (_ & ? & _).
Qed.

Lemma writes_run2 op1 op2 sched s :
  I s → I (run2 sched (handler op1) (handler op2) s).2.
Proof.
  intros Hs. eapply safe_run2; [apply writes_handler|apply writes_handler|done].
Qed.

End writes.

(** ** What no core operation does *)

(** X3: the inventory ledger and the audit trail are append-only: after any
    sequence of core operations, and after any interleaving of the database
    steps of two of them, the entries that were there are still there, in
    the same order, under the new ones. *)
Theorem ledger_and_audit_append_only (s : Store) :
  (∀ ops, history_kept s (exec_final ops s)) ∧
  (∀ op1 op2 sched,
     history_kept s (run2 sched (handler op1) (handler op2) s).2).
Proof.
  assert (∀ s' a, history_kept s s' →
            history_kept s (with_auditLogs (a :: auditLogs s') s')) as Ha.
  { intros s' a [H1 H2]. split; [done|]. simpl. by apply suffix_cons_r. }
  assert (∀ s' id p p' e, history_kept s s' → products s' !! id = Some p →
            master p' = master p → InventoryLog.productId e = id →
            InventoryLog.newStock e = Product.quantity p' →
            history_kept s (stock_commit id p' e s')) as Hst.
  { intros s' id p p' e [H1 H2] _ _ _ _. split; [|done]. simpl.
    by apply suffix_cons_r. }
  split.
  - intros ops.
    apply (writes_exec_final (history_kept s) (λ _, True)); done.
  - intros op1 op2 sched.
    apply (writes_run2 (history_kept s) (λ _, True)); done.
Qed.

Lemma catalogue_stock_commit id p p' e s :
  products s !! id = Some p → master p' = master p →
  catalogue (stock_commit id p' e s) = catalogue s.
Proof.
  intros Hp Hm. unfold catalogue, stock_commit; simpl.
  rewrite fmap_insert, Hm. apply insert_id. by rewrite lookup_fmap, Hp.
Qed.

(** X4: no core operation creates, removes, renames, reprices or
    (de)activates a product, or touches the customers: the catalogue (name,
    sku, price and active flag of every product) and the customers table
    are the same after any sequence of core operations and after any
    interleaving of two of them. *)
Theorem catalogue_and_customers_unchanged (s : Store) :
  (∀ ops, catalogue (exec_final ops s) = catalogue s ∧
          customers (exec_final ops s) = customers s) ∧
  (∀ op1 op2 sched,
     catalogue (run2 sched (handler op1) (handler op2) s).2 = catalogue s ∧
     customers (run2 sched (handler op1) (handler op2) s).2 = customers s).
Proof.
  set (I := λ s', catalogue s' = catalogue s ∧ customers s' = customers s).
  assert (∀ s' id p p' e, I s' → products s' !! id = Some p →
            master p' = master p → InventoryLog.productId e = id →
            InventoryLog.newStock e = Product.quantity p' →
            I (stock_commit id p' e s')) as Hst.
  { intros s' id p p' e [H1 H2] Hp Hm _ _. split; [|done].
    by rewrite (catalogue_stock_commit id p). }
  split.
  - intros ops. by apply (writes_exec_final I (λ _, True)).
  - intros op1 op2 sched. by apply (writes_run2 I (λ _, True)).
Qed.

Lemma status_after_completed_or_refunded old st :
  Sale.status old = COMPLETED ∨ Sale.status old = REFUNDED →
  status_after old st → st = REFUNDED.
Proof.
  unfold status_after. intros [-> | ->] H; [|done].
  by destruct st.
Qed.

(** X5: the sales table never holds a pending or a cancelled sale, if it
    held none to begin with: [createSale] stores completed sales, and a
    completed sale can only be refunded.  This holds after any sequence of
    core operations and after any interleaving of two of them. *)
Theorem sales_stay_completed_or_refunded (s : Store) :
  no_pending_or_cancelled s →
  (∀ ops, no_pending_or_cancelled (exec_final ops s)) ∧
  (∀ op1 op2 sched,
     no_pending_or_cancelled (run2 sched (handler op1) (handler op2) s).2).
Proof.
  intros Hs.
  set (P := λ row, Sale.status row = COMPLETED ∨ Sale.status row = REFUNDED).
  assert (∀ s' id sale, no_pending_or_cancelled s' → Sale.status sale = COMPLETED →
            no_pending_or_cancelled (with_sales (<[id := sale]> (sales s')) s'))
    as Hin.
  { intros s' id sale Hs' Hc id' sale'. simpl.
    destruct (decide (id = id')) as [->|Hne].
    - rewrite lookup_insert_eq. intros [= <-]. by left.
    - rewrite lookup_insert_ne by done. apply Hs'. }
  assert (∀ s' id old row st t, no_pending_or_cancelled s' → P old →
            status_after old st → sales s' !! id = Some row →
            no_pending_or_cancelled
              (with_sales (<[id := Sale.set_status st t row]> (sales s')) s'))
    as Hst.
  { intros s' id old row st t Hs' Hold Hafter Hrow id' sale'. simpl.
    destruct (decide (id = id')) as [->|Hne].
    - rewrite lookup_insert_eq. intros [= <-]. right. simpl.
      by eapply status_after_completed_or_refunded.
    - rewrite lookup_insert_ne by done. apply Hs'. }
  split.
  - intros ops. apply (writes_exec_final no_pending_or_cancelled P); try done.
    intros s' id row Hs' Hrow. by eapply Hs'.
  - intros op1 op2 sched.
    apply (writes_run2 no_pending_or_cancelled P); try done.
    intros s' id row Hs' Hrow. by eapply Hs'.
Qed.

(** ** The rows of [sales] under sequences of operations *)

Lemma restock_loop_sales (c : bool) items saleId userId s :
  sales (run (if c then ledger_loop items saleId userId RETURN else ok tt) s).2
  = sales s.
Proof. destruct c; [apply ledger_loop_sales|done]. Qed.

(** How one operation, run alone, changes the sales table: not at all, or
    it adds a row under a new identifier, or it writes a status allowed by
    the transition table over an existing row. *)
Lemma handler_sales op s :
  sales (run (handler op) s).2 = sales s
  ∨ (∃ id sale, sales s !! id = None ∧
       sales (run (handler op) s).2 = <[id := sale]> (sales s))
  ∨ (∃ id old st t, sales s !! id = Some old ∧
       isValidStatusTransition (Sale.status old) (SaleStatus_name st) = true ∧
       sales (run (handler op) s).2 = <[id := Sale.set_status st t old]> (sales s)).
Proof.
  destruct op as [req|req|req|env req|env req]; simpl.
  - left. destruct (stockIn_cases req s)
      as [(_ & -> & _)|(uid & id & q & p & _ & _ & _ & _ & _ & _ & _ & ->)]; done.
  - left. destruct (stockOut_cases req s)
      as [(_ & -> & _)|(uid & id & q & p & _ & _ & _ & _ & _ & _ & _ & _ & ->)]; done.
  - left. destruct (adjustStock_cases req s)
      as [(_ & -> & _)|(uid & id & q & p & _ & _ & _ & _ & _ & _ & _ & ->)]; done.
  - destruct (createSale_shape env req s)
      as [(_ & -> & _)|(uid & pm & ta & d & sale & pre & _ & _ & _ & _ & Hsc & _ & H)];
      [by left|].
    cbv zeta in H.
    apply sale_create_fields in Hsc as (_ & _ & _ & _ & _ & _ & _ & _ & _ & Hnew & _).
    destruct (run (ledger_loop _ _ _ _) s).1 eqn:Hl.
    + destruct H as [_ ->]. left. cbn [snd]. apply ledger_loop_sales.
    + destruct H as [_ ->]. right; left. exists (newId env), sale. split; [done|].
      cbn [snd]. simpl. by rewrite ledger_loop_sales.
  - destruct (updateSaleStatus_shape env req s)
      as [(_ & -> & _)|(uid & id & status & ex & st & _ & _ & _ & _ & Hex & Hv & Hp & H)];
      [by left|].
    cbv zeta in H.
    destruct (isValidStatusTransition_parse _ _ Hv) as (st' & Hp' & Hname).
    assert (st' = st) as -> by congruence.
    destruct (run _ s).1 eqn:Hl.
    + destruct H as [_ ->]. left. cbn [snd]. apply restock_loop_sales.
    + destruct H as [_ ->]. right; right. exists id, ex, st, (now env).
      split; [done|]. split; [by rewrite Hname|].
      cbn [snd]. simpl. by rewrite restock_loop_sales.
Qed.

Lemma same_sale_record_refl sale : same_sale_record sale sale.
Proof. by repeat split. Qed.

Lemma same_sale_record_trans a b c :
  same_sale_record a b → same_sale_record b c → same_sale_record a c.
Proof.
  unfold same_sale_record. intros (?&?&?&?&?&?&?&?&?) (?&?&?&?&?&?&?&?&?).
  repeat split; congruence.
Qed.

(** X6: a recorded sale is never removed, and no sequence of core
    operations changes its number, amounts, payment method, staff, customer
    or line items: at most its status and modification time change. *)
Theorem recorded_sales_keep_their_content (ops : list Op) (s : Store)
    (id : string) (old : Sale.t) :
  sales s !! id = Some old →
  ∃ new, sales (exec_final ops s) !! id = Some new ∧ same_sale_record old new.
Proof.
  revert s old. induction ops as [|op ops IH]; intros s old Hold.
  - exists old. split; [done|apply same_sale_record_refl].
  - simpl.
    assert (∃ mid, sales (run (handler op) s).2 !! id = Some mid ∧
                   same_sale_record old mid) as (mid & Hmid & Hrec).
    { destruct (handler_sales op s)
        as [->|[(id' & sale & Hnone & ->)|(id' & old' & st & t & Hold' & _ & ->)]].
      - exists old. split; [done|apply same_sale_record_refl].
      - exists old. split; [|apply same_sale_record_refl].
        rewrite lookup_insert_ne; [done|congruence].
      - destruct (decide (id' = id)) as [->|Hne].
        + rewrite lookup_insert_eq. eexists. split; [done|].
          assert (old' = old) as -> by congruence. by repeat split.
        + exists old. rewrite lookup_insert_ne by done.
          split; [done|apply same_sale_record_refl]. }
    destruct (IH _ _ Hmid) as (new & Hnew & Hrec').
    exists new. split; [done|]. by eapply same_sale_record_trans.
Qed.

Lemma closed_sale_kept op s id sale :
  sales s !! id = Some sale → closed_status (Sale.status sale) →
  sales (run (handler op) s).2 !! id = Some sale.
Proof.
  intros Hsale Hclosed.
  destruct (handler_sales op s)
    as [->|[(id' & sale' & Hnone & ->)|(id' & old' & st & t & Hold' & Hv & ->)]].
  - done.
  - rewrite lookup_insert_ne; [done|congruence].
  - destruct (decide (id' = id)) as [->|Hne].
    + assert (old' = sale) as -> by congruence.
      destruct Hclosed as [Hc|Hc]; rewrite Hc in Hv; done.
    + by rewrite lookup_insert_ne.
Qed.

(** X7: a cancelled or refunded sale is final.  Whatever core operations
    follow, its row stays exactly as it is; and every later
    [updateSaleStatus] on it is refused and leaves the whole store as it
    was, so the sale is never restocked a second time. *)
Theorem closed_sale_is_final (ops : list Op) (s : Store) (id : string)
    (sale : Sale.t) :
  sales s !! id = Some sale → closed_status (Sale.status sale) →
  sales (exec_final ops s) !! id = Some sale ∧
  ∀ env req, us_id req = Some id →
    statusCode (run (updateSaleStatus env req) (exec_final ops s)).1 ≠ 200 ∧
    (run (updateSaleStatus env req) (exec_final ops s)).2 = exec_final ops s.
Proof.
  intros Hsale Hclosed.
  assert (sales (exec_final ops s) !! id = Some sale) as Hfinal.
  { revert s Hsale. induction ops as [|op ops IH]; intros s Hsale; [done|].
    simpl. apply IH. by apply closed_sale_kept. }
  split; [done|]. intros env req Hid.
  destruct (updateSaleStatus_shape env req (exec_final ops s))
    as [(_ & ? & ?)|(uid & id' & status & ex & st & _ & Hid' & _ & _ & Hex & Hv & _)];
    [done|].
  assert (id' = id) as -> by congruence.
  assert (ex = sale) as -> by congruence.
  destruct Hclosed as [Hc|Hc]; rewrite Hc in Hv; done.
Qed.

(** ** What a loop of ledger calls moves *)

Lemma move_stock_0 p : move_stock 0 p = p.
Proof. destruct p. unfold move_stock, Product.set_quantity; simpl. f_equal; lia. Qed.

Lemma ledger_loop_effect type items saleId userId s :
  type = SALE ∨ type = RETURN →
  (run (ledger_loop items saleId userId type) s).1 = inr tt →
  let s' := (run (ledger_loop items saleId userId type) s).2 in
  (∀ pid, products s' !! pid
          = move_stock ((if bool_decide (type = SALE) then -1 else 1)
                        * moved pid items) <$> products s !! pid) ∧
  ∃ entries, inventoryLogs s' = rev entries ++ inventoryLogs s ∧
             Forall2 (entry_of_line type saleId userId) items entries.
Proof.
  intros Ht. revert s. induction items as [|[pid0 q] items IH]; intros s.
  - intros _. simpl. split; [|exists []; by split].
    intros pid. rewrite Z.mul_0_r.
    destruct (products s !! pid) as [p|]; [|done]. simpl. by rewrite move_stock_0.
  - cbn [ledger_loop]. cbv zeta.
    rewrite run_and_then, run_createSaleInventoryLog.
    destruct (ledger_write pid0 q saleId userId type s) as [err|s1] eqn:Hw;
      cbn [fst snd]; [done|].
    intros Hrest.
    apply ledger_write_inr in Hw as (p & Hp & _ & ->).
    set (e := ledger_entry _ _ _ _ _ _) in *.
    set (smid := ledger_audit _ _ _ _) in *.
    destruct (IH smid Hrest) as (Hprods & entries & Hlogs & Hentries).
    cbv zeta in *. split.
    + intros pid. rewrite Hprods. subst smid. simpl.
      destruct (decide (pid0 = pid)) as [->|Hne].
      * rewrite lookup_insert_eq, Hp. simpl. f_equal.
        unfold move_stock, Product.set_quantity; simpl.
        destruct Ht as [-> | ->]; simpl; f_equal; lia.
      * by rewrite lookup_insert_ne.
    + exists (e :: entries). simpl. rewrite <- app_assoc.
      split; [exact Hlogs|]. constructor; [|done].
      subst e. unfold entry_of_line, entry_signed, ledger_entry; simpl.
      destruct Ht as [-> | ->]; simpl; by repeat split.
Qed.


(** ** Refusals of [createSale] *)

Lemma createSale_validation_fails env req s e :
  well_formed_sale req s →
  (run (validate_items (cs_items req) 0%Q []) s).1 = inl e →
  run (createSale env req) s = (createSale_catch e, s).
Proof.
  intros (Hu & Hpm & Hne & Hitems & Hcust) Hv.
  destruct req as [u cid items pm tax disc].
  cbn [cs_user cs_customerId cs_items cs_paymentMethod cs_taxAmount cs_discount] in *.
  unfold createSale. rewrite run_try_catch.
  cbn [cs_user cs_customerId cs_items cs_paymentMethod cs_taxAmount cs_discount].
  cbv zeta. rewrite Hu, Hpm. cbn [negb].
  rewrite bool_decide_eq_false_2 by done.
  assert (existsb (λ item, String.eqb (item_productId item) "" ||
            (item_quantity item =? 0) || (item_quantity item <=? 0)) items = false)
    as ->.
  { apply not_true_iff_false. intros (it & Hin & Hit)%existsb_exists.
    apply list_elem_of_In in Hin.
    eapply Forall_forall in Hitems as [Hid Hq]; [|exact Hin].
    apply orb_true_iff in Hit as [Hit|Hit]; [|lia].
    apply orb_true_iff in Hit as [Hit|Hit]; [|lia].
    by apply String.eqb_eq in Hit. }
  rewrite run_mbind.
  assert (run (if truthy_str cid
               then query (λ s0, bool_decide (default "" cid ∉ customers s0))
               else mret false) s = (false, s)) as ->.
  { destruct (truthy_str cid); [|done]. rewrite run_query.
    rewrite bool_decide_eq_false_2; [done|]. intros Hn. by apply Hn, Hcust. }
  cbn [fst snd]. rewrite run_and_then, Hv.
  by destruct (validate_items_reads items 0%Q [] s) as [-> _].
Qed.

Lemma validate_items_available before rest totalAmount saleItemsData s :
  Forall (line_available s) before →
  ∃ t d, (run (validate_items (before ++ rest) totalAmount saleItemsData) s).1
         = (run (validate_items rest t d) s).1.
Proof.
  revert totalAmount saleItemsData.
  induction before as [|item before IH]; intros t d Hb; [by exists t, d|].
  inversion Hb as [|?? (p & Hp & Hact & Hq) Hrest]; subst.
  cbn [app validate_items]. rewrite run_mbind, run_query. cbn [fst snd].
  unfold findActiveProduct. rewrite Hp, Hact.
  destruct (Z.ltb_spec (Product.quantity p) (item_quantity item)); [lia|].
  cbv zeta. apply IH, Hrest.
Qed.

Lemma prefix_app a b : String.prefix a (a +:+ b) = true.
Proof.
  induction a as [|c a IH]; simpl; [by destruct b|].
  destruct (Ascii.ascii_dec c c); [exact IH|done].
Qed.

Lemma index_prefix needle hay :
  String.prefix needle hay = true → String.index 0 needle hay = Some 0%nat.
Proof.
  destruct hay as [|c hay]; intros H.
  - destruct needle; [done|discriminate].
  - cbn [String.index]. by rewrite H.
Qed.

Lemma includes_app pre needle post :
  includes (pre +:+ needle +:+ post) needle = true.
Proof.
  unfold includes. induction pre as [|c pre IH].
  - change ("" +:+ needle +:+ post) with (needle +:+ post).
    by rewrite index_prefix by apply prefix_app.
  - change (String c pre +:+ needle +:+ post)
      with (String c (pre +:+ needle +:+ post)).
    cbn [String.index]. destruct (String.prefix needle _); [done|].
    by destruct (String.index 0 needle (pre +:+ needle +:+ post)).
Qed.

Lemma append_assoc (a b c : string) : (a +:+ b) +:+ c = a +:+ b +:+ c.
Proof.
  induction a as [|x a IH]; [done|].
  change ((String x a +:+ b) +:+ c) with (String x ((a +:+ b) +:+ c)).
  by rewrite IH.
Qed.

Lemma createSale_first_failure env req s before item rest e :
  well_formed_sale req s →
  cs_items req = before ++ item :: rest →
  Forall (line_available s) before →
  (∀ t d, (run (validate_items (item :: rest) t d) s).1 = inl e) →
  run (createSale env req) s = (createSale_catch e, s).
Proof.
  intros Hwf Hitems Hbefore Hfail.
  apply createSale_validation_fails; [done|]. rewrite Hitems.
  destruct (validate_items_available before (item :: rest) 0%Q [] s Hbefore)
    as (t & d & ->).
  apply Hfail.
Qed.

(** X10: a sale that names a missing or inactive product is refused with
    404 and a message that names the product id, and nothing is written:
    this is the answer when the request passes the input checks and the
    line is the first one that cannot be sold. *)
Theorem createSale_unknown_product_404 env req s before item rest :
  well_formed_sale req s →
  cs_items req = before ++ item :: rest →
  Forall (line_available s) before →
  findActiveProduct (item_productId item) s = None →
  run (createSale env req) s
  = (sendResponse 404
       ("Product " +:+ item_productId item +:+ " not found or inactive") NoData,
     s).
Proof.
  intros Hwf Hitems Hbefore Hnone.
  rewrite (createSale_first_failure env req s before item rest
             (Error ("Product " +:+ item_productId item +:+ " not found or inactive")));
    try done.
  - unfold createSale_catch. cbn [exn_message Error].
    replace ("Product " +:+ item_productId item +:+ " not found or inactive")
      with (("Product " +:+ item_productId item +:+ " ")
            +:+ "not found" +:+ " or inactive") at 1.
    + by rewrite includes_app.
    + by rewrite !append_assoc.
  - intros t d. cbn [validate_items]. rewrite run_mbind, run_query. cbn [fst snd].
    by rewrite Hnone.
Qed.

(** X11: a sale that asks for more units than a product has is refused,
    nothing is written, and the message names the product and the
    available and requested quantities.  The answer is 400, unless the
    message contains the words "not found" (a product so named): the
    handler then answers 404, with the same message. *)
Theorem createSale_short_stock_refused env req s before item rest p :
  well_formed_sale req s →
  cs_items req = before ++ item :: rest →
  Forall (line_available s) before →
  products s !! item_productId item = Some p → Product.isActive p = true →
  Product.quantity p < item_quantity item →
  let msg := short_stock_message p item in
  run (createSale env req) s
  = (sendResponse (if includes msg "not found" then 404 else 400) msg NoData, s).
Proof.
  intros Hwf Hitems Hbefore Hp Hact Hq msg.
  rewrite (createSale_first_failure env req s before item rest (Error msg));
    try done.
  - unfold createSale_catch. cbn [exn_message Error].
    destruct (includes msg "not found"); [done|].
    assert (includes msg "Insufficient stock" = true) as ->; [|done].
    unfold msg, short_stock_message.
    apply (includes_app "" "Insufficient stock").
  - intros t d. cbn [validate_items]. rewrite run_mbind, run_query. cbn [fst snd].
    unfold findActiveProduct. rewrite Hp, Hact.
    by destruct (Z.ltb_spec (Product.quantity p) (item_quantity item)); [|lia].
Qed.






(** ** The stock requests, answered *)

Lemma findActiveProduct_active pid s p :
  products s !! pid = Some p → Product.isActive p = true →
  findActiveProduct pid s = Some p.
Proof. intros Hp Hact. unfold findActiveProduct. by rewrite Hp, Hact. Qed.

Lemma int4_spec z : int4 z = true ↔ -2147483648 <= z <= 2147483647.
Proof. unfold int4. rewrite andb_true_iff, !Z.leb_le. lia. Qed.

Lemma int4_cases z :
  (int4 z = true ∧ -2147483648 <= z <= 2147483647) ∨
  (int4 z = false ∧ ¬ (-2147483648 <= z <= 2147483647)).
Proof.
  destruct (int4 z) eqn:E; [left|right]; (split; [done|]).
  - by apply int4_spec.
  - intros H%int4_spec. congruence.
Qed.

Lemma row_accepted_stock p' e s :
  InventoryLog.saleId e = None →
  -2147483648 <= Product.quantity p' <= 2147483647 →
  -2147483648 <= InventoryLog.quantity e <= 2147483647 →
  -2147483648 <= InventoryLog.previousStock e <= 2147483647 →
  -2147483648 <= InventoryLog.newStock e <= 2147483647 →
  row_accepted p' e s = true.
Proof.
  intros Hs H1 H2 H3 H4. unfold row_accepted. rewrite Hs.
  by rewrite !(proj2 (int4_spec _)).
Qed.

Lemma run_stockIn_result uid pid q why cp s p :
  uid ≠ "" → pid ≠ "" → 0 < q →
  products s !! pid = Some p → Product.isActive p = true →
  let e := InventoryLog.mk STOCK_IN q (Product.quantity p) (Product.quantity p + q)
             (default "Stock in" why) pid uid None in
  let p1 := Product.set_quantity (Product.quantity p + q) p in
  let p' := if truthy_dec cp then Product.set_costPrice (default 0%Q cp) p1
            else p1 in
  run (stockIn (mkStockRequest (Some uid) (Some pid) (Some q) why cp)) s
  = if row_accepted p' e s then
      (sendResponse 200 "Stock added successfully" (StockData pid p' e),
       audit_commit uid "STOCK_IN" "Product" pid (stock_commit pid p' e s))
    else (sendResponse 500 "Internal server error" NoData, s).
Proof.
  intros Hu Hpid Hq Hp Hact. cbv zeta.
  pose proof (findActiveProduct_active pid s p Hp Hact) as Hf.
  unfold stockIn. rewrite run_try_catch.
  cbn [user productId quantity reason costPrice]. cbv zeta.
  rewrite !truthy_str_Some by done. cbn [truthy_num default from_option id negb orb].
  destruct (Z.eqb_spec q 0); [lia|]. cbn [negb].
  destruct (Z.leb_spec q 0); [lia|].
  simpl. rewrite Hf. simpl. rewrite Hf. simpl.
  rewrite (write_stock_result _ _ _ _ p) by done.
  destruct (truthy_dec cp); (destruct (row_accepted _ _ s); [done|]);
    simpl; by rewrite (proj1 (refusal_stock_message _ _)).
Qed.

Lemma run_stockOut_result uid pid q why cp s p :
  uid ≠ "" → pid ≠ "" → 0 < q → q <= Product.quantity p →
  products s !! pid = Some p → Product.isActive p = true →
  let e := InventoryLog.mk STOCK_OUT q (Product.quantity p) (Product.quantity p - q)
             (default "Stock out" why) pid uid None in
  let p' := Product.set_quantity (Product.quantity p - q) p in
  run (stockOut (mkStockRequest (Some uid) (Some pid) (Some q) why cp)) s
  = if row_accepted p' e s then
      (sendResponse 200 "Stock removed successfully" (StockData pid p' e),
       audit_commit uid "STOCK_OUT" "Product" pid (stock_commit pid p' e s))
    else (sendResponse 500 "Internal server error" NoData, s).
Proof.
  intros Hu Hpid Hq Hle Hp Hact. cbv zeta.
  pose proof (findActiveProduct_active pid s p Hp Hact) as Hf.
  unfold stockOut. rewrite run_try_catch.
  cbn [user productId quantity reason costPrice]. cbv zeta.
  rewrite !truthy_str_Some by done. cbn [truthy_num default from_option id negb orb].
  destruct (Z.eqb_spec q 0); [lia|]. cbn [negb].
  destruct (Z.leb_spec q 0); [lia|].
  simpl. rewrite Hf. simpl.
  destruct (Z.ltb_spec (Product.quantity p) q); [lia|].
  simpl. rewrite Hf. simpl.
  destruct (Z.ltb_spec (Product.quantity p) q); [lia|].
  simpl. rewrite (write_stock_result _ _ _ _ p) by done.
  destruct (row_accepted _ _ s); [done|]. simpl.
  by rewrite (proj1 (refusal_stock_message _ _)),
    (proj2 (refusal_stock_message _ _)).
Qed.

Lemma run_adjustStock_result uid pid q why cp s p :
  uid ≠ "" → pid ≠ "" → 0 <= q →
  products s !! pid = Some p → Product.isActive p = true →
  let logType := if Product.quantity p <? q then STOCK_IN else STOCK_OUT in
  let e := InventoryLog.mk logType (Z.abs (q - Product.quantity p))
             (Product.quantity p) q (default "Stock adjustment" why) pid uid None in
  let p' := Product.set_quantity q p in
  run (adjustStock (mkStockRequest (Some uid) (Some pid) (Some q) why cp)) s
  = if row_accepted p' e s then
      (sendResponse 200 "Stock adjusted successfully"
         (AdjustData pid p' e logType (Z.abs (q - Product.quantity p))),
       audit_commit uid "STOCK_ADJUSTMENT" "Product" pid (stock_commit pid p' e s))
    else (sendResponse 500 "Internal server error" NoData, s).
Proof.
  intros Hu Hpid Hq Hp Hact. cbv zeta.
  pose proof (findActiveProduct_active pid s p Hp Hact) as Hf.
  unfold adjustStock. rewrite run_try_catch.
  cbn [user productId quantity reason costPrice]. cbv zeta.
  rewrite !truthy_str_Some by done.
  cbn [default from_option id negb orb].
  rewrite bool_decide_eq_false_2 by done.
  destruct (Z.ltb_spec q 0); [lia|].
  simpl. rewrite Hf. simpl. rewrite Hf. simpl.
  rewrite (write_stock_result _ _ _ _ p) by done.
  destruct (row_accepted _ _ s); [done|]. simpl.
  by rewrite (proj1 (refusal_stock_message _ _)).
Qed.

Lemma run_stockIn_ok uid pid q why cp s p :
  uid ≠ "" → pid ≠ "" → 0 < q →
  products s !! pid = Some p → Product.isActive p = true →
  -2147483648 <= Product.quantity p → q <= 2147483647 →
  Product.quantity p + q <= 2147483647 →
  let e := InventoryLog.mk STOCK_IN q (Product.quantity p) (Product.quantity p + q)
             (default "Stock in" why) pid uid None in
  let p1 := Product.set_quantity (Product.quantity p + q) p in
  let p' := if truthy_dec cp then Product.set_costPrice (default 0%Q cp) p1
            else p1 in
  run (stockIn (mkStockRequest (Some uid) (Some pid) (Some q) why cp)) s
  = (sendResponse 200 "Stock added successfully" (StockData pid p' e),
     audit_commit uid "STOCK_IN" "Product" pid (stock_commit pid p' e s)).
Proof.
  intros Hu Hpid Hq Hp Hact Hlo Hqmax Hmax. cbv zeta.
  pose proof (findActiveProduct_active pid s p Hp Hact) as Hf.
  unfold stockIn. rewrite run_try_catch.
  cbn [user productId quantity reason costPrice]. cbv zeta.
  rewrite !truthy_str_Some by done. cbn [truthy_num default from_option id negb orb].
  destruct (Z.eqb_spec q 0); [lia|]. cbn [negb].
  destruct (Z.leb_spec q 0); [lia|].
  simpl. rewrite Hf. simpl. rewrite Hf. simpl.
  rewrite (write_stock_Some _ _ _ _ p); [done..|].
  apply row_accepted_stock; [done|destruct (truthy_dec cp)|..]; simpl; lia.
Qed.

Lemma run_stockOut_ok uid pid q why cp s p :
  uid ≠ "" → pid ≠ "" → 0 < q → q <= Product.quantity p →
  products s !! pid = Some p → Product.isActive p = true →
  Product.quantity p <= 2147483647 →
  let e := InventoryLog.mk STOCK_OUT q (Product.quantity p) (Product.quantity p - q)
             (default "Stock out" why) pid uid None in
  let p' := Product.set_quantity (Product.quantity p - q) p in
  run (stockOut (mkStockRequest (Some uid) (Some pid) (Some q) why cp)) s
  = (sendResponse 200 "Stock removed successfully" (StockData pid p' e),
     audit_commit uid "STOCK_OUT" "Product" pid (stock_commit pid p' e s)).
Proof.
  intros Hu Hpid Hq Hle Hp Hact Hmax. cbv zeta.
  pose proof (findActiveProduct_active pid s p Hp Hact) as Hf.
  unfold stockOut. rewrite run_try_catch.
  cbn [user productId quantity reason costPrice]. cbv zeta.
  rewrite !truthy_str_Some by done. cbn [truthy_num default from_option id negb orb].
  destruct (Z.eqb_spec q 0); [lia|]. cbn [negb].
  destruct (Z.leb_spec q 0); [lia|].
  simpl. rewrite Hf. simpl.
  destruct (Z.ltb_spec (Product.quantity p) q); [lia|].
  simpl. rewrite Hf. simpl.
  destruct (Z.ltb_spec (Product.quantity p) q); [lia|].
  simpl. rewrite (write_stock_Some _ _ _ _ p); [done..|].
  apply row_accepted_stock; simpl; (done || lia).
Qed.

Lemma run_stockOut_short uid pid q why cp s p :
  uid ≠ "" → pid ≠ "" → 0 < q → Product.quantity p < q →
  products s !! pid = Some p → Product.isActive p = true →
  run (stockOut (mkStockRequest (Some uid) (Some pid) (Some q) why cp)) s
  = (sendResponse 400 "Insufficient stock" NoData, s).
Proof.
  intros Hu Hpid Hq Hlt Hp Hact.
  pose proof (findActiveProduct_active pid s p Hp Hact) as Hf.
  unfold stockOut. rewrite run_try_catch.
  cbn [user productId quantity reason costPrice]. cbv zeta.
  rewrite !truthy_str_Some by done. cbn [truthy_num default from_option id negb orb].
  destruct (Z.eqb_spec q 0); [lia|]. cbn [negb].
  destruct (Z.leb_spec q 0); [lia|].
  simpl. rewrite Hf. simpl.
  by destruct (Z.ltb_spec (Product.quantity p) q); [|lia].
Qed.

(** X15: a stock-out is answered by the stock alone: for a well-formed
    request on an active product it succeeds exactly when the product has
    the units, taking the last unit included; it then leaves the difference
    and one [STOCK_OUT] entry (the stored quantity being a value of its
    [INTEGER] column); otherwise it answers 400 "Insufficient stock" and
    writes nothing. *)
Theorem stockOut_succeeds_iff_in_stock uid pid q why cp s p :
  uid ≠ "" → pid ≠ "" → 0 < q →
  products s !! pid = Some p → Product.isActive p = true →
  let r := run (stockOut (mkStockRequest (Some uid) (Some pid) (Some q) why cp))
               s in
  (q <= Product.quantity p → Product.quantity p <= 2147483647 →
     statusCode r.1 = 200 ∧
     products r.2 = <[pid := move_stock (- q) p]> (products s) ∧
     inventoryLogs r.2
     = InventoryLog.mk STOCK_OUT q (Product.quantity p) (Product.quantity p - q)
         (default "Stock out" why) pid uid None :: inventoryLogs s) ∧
  (Product.quantity p < q →
     r = (sendResponse 400 "Insufficient stock" NoData, s)).
Proof.
  intros Hu Hpid Hq Hp Hact r. subst r. split.
  - intros Hle Hmax. rewrite (run_stockOut_ok uid pid q why cp s p) by done.
    by repeat split.
  - intros Hlt. by apply (run_stockOut_short uid pid q why cp s p).
Qed.

(** A quantity beyond the column cannot be written back: the log row of
    the stock-out would carry it as [previousStock]. *)
Example stockOut_of_unrepresentable_quantity :
  let s := with_products {[ "P" := Product.set_quantity 2147483648 demo_product ]}
             demo_store in
  run (stockOut (stock_request "P" 1)) s
  = (sendResponse 500 "Internal server error" NoData, s).
Proof. vm_compute. reflexivity. Qed.

(** X16: what is put in can be taken out: a stock-in of [q] units followed
    by a stock-out of [q] units of the same product (whose quantity is not
    negative, and with the [q] units stays within the range of its
    [INTEGER] column) succeeds and leaves the products table exactly as it
    was, with the two movements on the ledger. *)
Theorem stockIn_then_stockOut_restores uid pid q why why' s p :
  uid ≠ "" → pid ≠ "" → 0 < q →
  products s !! pid = Some p → Product.isActive p = true →
  0 <= Product.quantity p → Product.quantity p + q <= 2147483647 →
  let s1 := (run (stockIn (mkStockRequest (Some uid) (Some pid) (Some q) why None))
                 s).2 in
  let r := run (stockOut (mkStockRequest (Some uid) (Some pid) (Some q) why' None))
               s1 in
  statusCode r.1 = 200 ∧ products r.2 = products s ∧
  InventoryLog.type <$> inventoryLogs r.2
  = STOCK_OUT :: STOCK_IN :: (InventoryLog.type <$> inventoryLogs s).
Proof.
  intros Hu Hpid Hq Hp Hact Hnn Hmax. cbv zeta.
  rewrite (run_stockIn_ok uid pid q why None s p) by (done || lia).
  cbn [snd truthy_dec].
  set (p1 := Product.set_quantity (Product.quantity p + q) p).
  rewrite (run_stockOut_ok uid pid q why' None _ p1);
    [|done|done|done|subst p1; simpl; lia|simpl; by rewrite lookup_insert_eq|done
     |subst p1; simpl; lia].
  simpl. split; [done|]. split; [|done].
  rewrite insert_insert_eq. apply insert_id. rewrite Hp. f_equal.
  subst p1. destruct p; unfold Product.set_quantity; simpl. f_equal. lia.
Qed.

(** X17: run one after the other, two stock-outs never take more than
    there is (the stored quantity being a value of its [INTEGER] column):
    after a first stock-out of [a] units the second, of [b] units,
    succeeds exactly when [a + b] units were there, and is refused with
    nothing written otherwise. *)
Theorem serial_stockOuts_never_oversell uid uid' pid a b why why' s p :
  uid ≠ "" → uid' ≠ "" → pid ≠ "" → 0 < a → 0 < b → a <= Product.quantity p →
  products s !! pid = Some p → Product.isActive p = true →
  Product.quantity p <= 2147483647 →
  let s1 := (run (stockOut (mkStockRequest (Some uid) (Some pid) (Some a) why None))
                 s).2 in
  let r := run (stockOut (mkStockRequest (Some uid') (Some pid) (Some b) why' None))
               s1 in
  (a + b <= Product.quantity p →
     statusCode r.1 = 200 ∧
     products r.2 !! pid = Some (move_stock (- (a + b)) p)) ∧
  (Product.quantity p < a + b →
     r = (sendResponse 400 "Insufficient stock" NoData, s1)).
Proof.
  intros Hu Hu' Hpid Ha Hb Hle Hp Hact Hmax. cbv zeta.
  rewrite (run_stockOut_ok uid pid a why None s p) by done. cbn [snd].
  set (p1 := Product.set_quantity (Product.quantity p - a) p).
  set (s1 := audit_commit _ _ _ _ _).
  assert (products s1 !! pid = Some p1) as Hp1
    by (subst s1; simpl; by rewrite lookup_insert_eq).
  split.
  - intros Hab.
    rewrite (run_stockOut_ok uid' pid b why' None s1 p1);
      [|done|done|done|subst p1; simpl; lia|done|done|subst p1; simpl; lia].
    simpl. split; [done|]. rewrite lookup_insert_eq. f_equal.
    subst p1. unfold move_stock, Product.set_quantity; simpl. f_equal. lia.
  - intros Hab. apply (run_stockOut_short uid' pid b why' None s1 p1); try done.
    subst p1. simpl. lia.
Qed.

Lemma run_stockIn_unknown uid pid q why cp s :
  uid ≠ "" → pid ≠ "" → 0 < q → findActiveProduct pid s = None →
  run (stockIn (mkStockRequest (Some uid) (Some pid) (Some q) why cp)) s
  = (sendResponse 404 "Product not found or inactive" NoData, s).
Proof.
  intros Hu Hpid Hq Hf.
  unfold stockIn. rewrite run_try_catch.
  cbn [user productId quantity reason costPrice]. cbv zeta.
  rewrite !truthy_str_Some by done.
  cbn [truthy_num default from_option id negb orb].
  destruct (Z.eqb_spec q 0); [lia|]. cbn [negb].
  destruct (Z.leb_spec q 0); [lia|].
  simpl. rewrite Hf. done.
Qed.

(** X18: a stock request for a product that is missing or inactive is
    answered 404 "Product not found or inactive" by all three stock
    handlers, and nothing is written. *)
Theorem stock_requests_unknown_product uid pid q why cp s :
  uid ≠ "" → pid ≠ "" → 0 < q → findActiveProduct pid s = None →
  let req := mkStockRequest (Some uid) (Some pid) (Some q) why cp in
  let refusal := (sendResponse 404 "Product not found or inactive" NoData, s) in
  run (stockIn req) s = refusal ∧ run (stockOut req) s = refusal ∧
  run (adjustStock req) s = refusal.
Proof.
  intros Hu Hpid Hq Hf. cbv zeta.
  unfold stockIn, stockOut, adjustStock. rewrite !run_try_catch.
  cbn [user productId quantity reason costPrice]. cbv zeta.
  rewrite !truthy_str_Some by done.
  cbn [truthy_num default from_option id negb orb bool_decide decide_rel].
  rewrite bool_decide_eq_false_2 by done.
  destruct (Z.eqb_spec q 0); [lia|]. cbn [negb].
  destruct (Z.leb_spec q 0); [lia|].
  destruct (Z.ltb_spec q 0); [lia|].
  simpl. rewrite Hf. done.
Qed.

(** X19: the zero quantity.  [stockIn] and [stockOut] refuse a quantity of
    zero with 400 and write nothing; [adjustStock] accepts it and empties
    the product (the units it takes off being a value of the [INTEGER]
    column of the ledger). *)
Theorem zero_quantity_requests uid pid why cp s p :
  uid ≠ "" → pid ≠ "" →
  products s !! pid = Some p → Product.isActive p = true →
  let req := mkStockRequest (Some uid) (Some pid) (Some 0) why cp in
  let refusal :=
    (sendResponse 400 "Product ID and quantity are required" NoData, s) in
  run (stockIn req) s = refusal ∧ run (stockOut req) s = refusal ∧
  (Z.abs (Product.quantity p) <= 2147483647 →
   statusCode (run (adjustStock req) s).1 = 200 ∧
   products (run (adjustStock req) s).2
   = <[pid := Product.set_quantity 0 p]> (products s)).
Proof.
  intros Hu Hpid Hp Hact. cbv zeta.
  pose proof (findActiveProduct_active pid s p Hp Hact) as Hf.
  unfold stockIn, stockOut, adjustStock. rewrite !run_try_catch.
  cbn [user productId quantity reason costPrice]. cbv zeta.
  rewrite !truthy_str_Some by done.
  cbn [truthy_num default from_option id negb orb Z.eqb].
  rewrite bool_decide_eq_false_2 by done.
  do 2 (split; [done|]). intros Habs.
  simpl. rewrite Hf. simpl. rewrite Hf. simpl.
  rewrite (write_stock_Some _ _ _ _ p); [done..|].
  apply row_accepted_stock; simpl; (done || lia).
Qed.

(** ** Paging *)

Lemma Math_ceil_div_spec a b :
  0 < b → (Math_ceil_div a b - 1) * b < a <= Math_ceil_div a b * b.
Proof.
  intros Hb. unfold Math_ceil_div.
  pose proof (Z.div_mod (- a) b ltac:(lia)) as Hdm.
  pose proof (Z.mod_pos_bound (- a) b Hb) as Hm.
  nia.
Qed.

Lemma Math_ceil_div_lt n a b :
  0 < b → (n < Math_ceil_div a b ↔ n * b < a).
Proof.
  intros Hb. pose proof (Math_ceil_div_spec a b Hb). split; intros; nia.
Qed.

Lemma page_of_Some {A} (rows : list A) (p l : Z) :
  page_of rows (Some p) (Some l)
  = Some (firstn (Z.to_nat (Z.min 100 (Z.max 1 l)))
            (List.skipn (Z.to_nat ((Z.max 1 p - 1) * Z.min 100 (Z.max 1 l))) rows),
          pagination (Z.max 1 p) (Z.min 100 (Z.max 1 l)) (Z.of_nat (length rows))).
Proof. done. Qed.

(** X20: the paging of the listing handlers.  The query throws exactly
    when [page] or [limit] is not a number.  Otherwise, for an offset
    within the 32-bit range, a page holds at most [limit] rows and
    [limit] is between 1 and 100; [hasNext] is true exactly when rows
    remain after the page, [hasPrev] exactly when the page is not the
    first; and the page is empty exactly when it lies beyond
    [totalPages]. *)
Theorem page_of_window {A} (rows : list A) (p l : option Z) :
  (∀ offset, skip (pageNum p) (limitNum l) = Some offset → offset <= 2147483647) →
  (page_of rows p l = None ↔ p = None ∨ l = None) ∧
  ∀ r, page_of rows p l = Some r →
    let after := (currentPage r.2 - 1) * limit r.2 + limit r.2 in
    1 <= currentPage r.2 ∧ 1 <= limit r.2 <= 100 ∧
    Z.of_nat (length r.1) <= limit r.2 ∧
    (hasNext r.2 = true ↔ List.skipn (Z.to_nat after) rows ≠ []) ∧
    (hasPrev r.2 = true ↔ 1 < currentPage r.2) ∧
    (r.1 = [] ↔ totalPages r.2 < currentPage r.2).
Proof.
  intros _. destruct p as [p|], l as [l|];
    try (split; [split; [by auto|done]|done]).
  rewrite page_of_Some. split; [split; [done|by intros [|]]|].
  intros r [= <-]. cbv zeta. cbn [fst snd].
  unfold pagination. cbn [limit hasNext hasPrev totalPages currentPage].
  set (pn := Z.max 1 p). set (ln := Z.min 100 (Z.max 1 l)).
  assert (1 <= pn) as Hp by lia. assert (1 <= ln <= 100) as Hl by lia.
  split; [done|]. split; [done|]. split.
  { rewrite length_take. lia. }
  split.
  { rewrite Z.ltb_lt, Math_ceil_div_lt by lia.
    rewrite <- length_zero_iff_nil, length_skipn. split; intros; nia. }
  split; [apply Z.ltb_lt|].
  rewrite <- length_zero_iff_nil, length_take, length_skipn.
  pose proof (Math_ceil_div_spec (Z.of_nat (length rows)) ln ltac:(lia)) as Hc.
  split; intros; nia.
Qed.

Lemma windows_cover {A} (L n : nat) (rows : list A) :
  (length rows <= n * L)%nat →
  concat (map (λ k, firstn L (List.skipn (k * L) rows)) (seq 0 n)) = rows.
Proof.
  revert rows. induction n as [|n IH]; intros rows Hlen.
  - simpl in *. by destruct rows; [|simpl in Hlen; lia].
  - cbn [seq map concat]. rewrite <- seq_shift, map_map.
    change (List.skipn (0 * L) rows) with rows.
    transitivity (firstn L rows ++ List.skipn L rows); [|apply firstn_skipn].
    f_equal. rewrite <- (IH (List.skipn L rows)) by (rewrite length_skipn; lia).
    f_equal. apply map_ext. intros k. f_equal.
    rewrite skipn_skipn. f_equal. lia.
Qed.

(** X21: the pages partition the result: for a numeric [limit] and a
    result of at most 2147483647 rows, the pages [1, ..., totalPages] are
    all answered and, one after the other, are exactly the selected rows,
    each row once and in order. *)
Theorem pages_partition_rows {A} (rows : list A) (l : Z) :
  Z.of_nat (length rows) <= 2147483647 →
  ∃ first,
    page_of rows (Some 1) (Some l) = Some first ∧
    let pages := seq 1 (Z.to_nat (totalPages first.2)) in
    Forall (λ k, is_Some (page_of rows (Some (Z.of_nat k)) (Some l))) pages ∧
    concat (map (λ k, from_option fst []
                        (page_of rows (Some (Z.of_nat k)) (Some l))) pages)
    = rows.
Proof.
  intros _. eexists. split; [apply page_of_Some|].
  cbn [snd pagination totalPages]. cbv zeta. split.
  { apply Forall_forall. intros k _. rewrite page_of_Some. by eexists. }
  set (ln := Z.min 100 (Z.max 1 l)).
  assert (1 <= ln <= 100) as Hl by lia.
  pose proof (Math_ceil_div_spec (Z.of_nat (length rows)) ln ltac:(lia)) as Hc.
  set (n := Math_ceil_div (Z.of_nat (length rows)) ln) in *.
  etrans; [|apply (windows_cover (Z.to_nat ln) (Z.to_nat n) rows); nia].
  rewrite <- seq_shift, map_map. f_equal. apply map_ext. intros k.
  rewrite page_of_Some. cbn [from_option fst]. fold ln.
  do 2 f_equal. nia.
Qed.

(** ** [updateStock] of the product controller *)

Lemma updateStock_safe req : safe Inv (λ _, True) (updateStock req).
Proof.
  destruct req as [u pid q ty r].
  unfold updateStock, try_catch.
  cbn [su_user su_id su_quantity su_type su_reason]. cbv zeta.
  eapply safe_bind with (Q := λ _, True); [|by constructor].
  destruct (negb (truthy_str u)); [by constructor|].
  destruct (negb (truthy_str pid)); [by constructor|].
  destruct (negb (truthy_num q)); [by constructor|].
  destruct (default 0 q <=? 0); [by constructor|].
  destruct (validTypes ty) as [type|]; [|by constructor].
  eapply safe_bind with (Q := λ _, True); [by apply safe_query|].
  intros [product|] _; [|by constructor].
  destruct (match type with STOCK_IN => _ | _ => _ end) as [e|newStock];
    [by constructor|].
  destruct (Z.ltb_spec newStock 0); [by constructor|].
  eapply safe_and_then with (Q := λ _, True);
    [eapply safe_mono; [|apply safe_commit]; [by intros []|]|by constructor].
  intros s [p l] s' Hs Hw; eapply write_stock_Inv; [exact Hw|exact Hs|].
  intros p0; simpl. lia.
Qed.

(** X22: [updateStock] never leaves a negative quantity either, run alone
    or with its database steps interleaved with those of a core operation
    or of another [updateStock], whatever the schedule. *)
Theorem updateStock_keeps_quantities_nonneg req req' op sched s :
  stock_nonneg s → items_positive s →
  stock_nonneg (run (updateStock req) s).2 ∧
  stock_nonneg (run2 sched (updateStock req) (handler op) s).2 ∧
  stock_nonneg (run2 sched (updateStock req) (updateStock req') s).2.
Proof.
  intros H1 H2. assert (Inv s) as HI by done.
  split; [|split].
  - by destruct (safe_steps Inv (λ _, True) (updateStock req) s
                   (updateStock_safe req) HI) as (_ & [? _] & _).
  - by destruct (safe_run2 Inv (λ _, True) (λ _, True) sched (updateStock req)
                   (handler op) s (updateStock_safe req) (handler_safe op) HI).
  - by destruct (safe_run2 Inv (λ _, True) (λ _, True) sched (updateStock req)
                   (updateStock req') s (updateStock_safe req)
                   (updateStock_safe req') HI).
Qed.

Lemma run_updateStock uid pid q ty why s p type :
  uid ≠ "" → pid ≠ "" → 0 < q → validTypes (Some ty) = Some type →
  products s !! pid = Some p →
  run (updateStock (mkUpdateStockRequest (Some uid) (Some pid) (Some q) (Some ty) why)) s
  = let prev := Product.quantity p in
    let target : option Z :=
      match type with
      | STOCK_IN => Some (prev + q)
      | STOCK_OUT => if prev <? q then None else Some (prev - q)
      | ADJUSTMENT => Some q
      | _ => Some prev
      end in
    match target with
    | None => (sendReply 400 "Insufficient stock" None, s)
    | Some newStock =>
        if newStock <? 0 then (sendReply 400 "Stock cannot be negative" None, s)
        else
          let e := InventoryLog.mk type q prev newStock
                     (default "Stock adjustment" why) pid uid None in
          if row_accepted (Product.set_quantity newStock p) e s then
            (sendReply 200 "Stock updated successfully"
               (Some (Product.set_quantity newStock p)),
             stock_commit pid (Product.set_quantity newStock p) e s)
          else (sendReply 500 "Internal server error" None, s)
    end.
Proof.
  intros Hu Hpid Hq Hty Hp.
  unfold updateStock. rewrite run_try_catch.
  cbn [su_user su_id su_quantity su_type su_reason]. cbv zeta.
  rewrite !truthy_str_Some by done.
  cbn [truthy_num default from_option id negb].
  destruct (Z.eqb_spec q 0); [lia|]. cbn [negb].
  destruct (Z.leb_spec q 0); [lia|].
  rewrite Hty. rewrite run_mbind, run_query. cbn [fst snd].
  unfold findProduct. rewrite Hp.
  destruct type; try (destruct (Z.ltb_spec (Product.quantity p) q); [done|]);
    match goal with
    | |- context [if ?n <? 0 then _ else _] => destruct (Z.ltb_spec n 0); [done|]
    end;
    rewrite run_and_then, run_commit, (write_stock_result _ _ _ _ p) by done;
    cbv zeta;
    (destruct (row_accepted _ _ s);
       [done|cbn [fst snd];
             match goal with
             | |- context [refusal ?a ?b] =>
                 by destruct (refusal_cases a b) as [-> | ->]
             end]).
Qed.

(** ** The product controller and the inventory controller *)

(** X23: on an active product with a non-negative quantity, [updateStock]
    of the product controller does to the products and to the ledger what
    the inventory controller does: as [STOCK_IN] what [stockIn] does, as
    [STOCK_OUT] what [stockOut] does (refusals included), with the same
    status code; as [ADJUSTMENT] it leaves the products as [adjustStock]
    does.  It writes no audit record. *)
Theorem updateStock_agrees_with_inventory_handlers uid pid q why s p :
  uid ≠ "" → pid ≠ "" → 0 < q →
  products s !! pid = Some p → Product.isActive p = true →
  0 <= Product.quantity p →
  let upd ty :=
    run (updateStock
           (mkUpdateStockRequest (Some uid) (Some pid) (Some q) (Some ty) (Some why)))
        s in
  let req := mkStockRequest (Some uid) (Some pid) (Some q) (Some why) None in
  (reply_status (upd "STOCK_IN").1 = statusCode (run (stockIn req) s).1 ∧
   same_tables (upd "STOCK_IN").2 (run (stockIn req) s).2) ∧
  (reply_status (upd "STOCK_OUT").1 = statusCode (run (stockOut req) s).1 ∧
   same_tables (upd "STOCK_OUT").2 (run (stockOut req) s).2) ∧
  (reply_status (upd "ADJUSTMENT").1 = statusCode (run (adjustStock req) s).1 ∧
   products (upd "ADJUSTMENT").2 = products (run (adjustStock req) s).2) ∧
  auditLogs (upd "STOCK_IN").2 = auditLogs s ∧
  auditLogs (upd "STOCK_OUT").2 = auditLogs s ∧
  auditLogs (upd "ADJUSTMENT").2 = auditLogs s.
Proof.
  intros Hu Hpid Hq Hp Hact Hnn. cbv beta zeta.
  rewrite (run_updateStock uid pid q "STOCK_IN" (Some why) s p STOCK_IN) by done.
  rewrite (run_updateStock uid pid q "STOCK_OUT" (Some why) s p STOCK_OUT) by done.
  rewrite (run_updateStock uid pid q "ADJUSTMENT" (Some why) s p ADJUSTMENT) by done.
  rewrite (run_stockIn_result uid pid q (Some why) None s p) by done.
  rewrite (run_adjustStock_result uid pid q (Some why) None s p) by (done || lia).
  cbv zeta. cbn [truthy_dec default from_option id].
  destruct (Z.ltb_spec (Product.quantity p + q) 0); [lia|].
  destruct (Z.ltb_spec q 0); [lia|].
  destruct (Z.ltb_spec (Product.quantity p) q) as [Hlt|Hge];
    [rewrite (run_stockOut_short uid pid q (Some why) None s p) by done
    |rewrite (run_stockOut_result uid pid q (Some why) None s p) by done;
     destruct (Z.ltb_spec (Product.quantity p - q) 0); [lia|]; cbv zeta].
  all: unfold row_accepted;
    cbn [Product.quantity Product.set_quantity InventoryLog.quantity
         InventoryLog.previousStock InventoryLog.newStock InventoryLog.saleId].
  all: destruct (int4_cases (Product.quantity p + q)) as [[E1 ?]|[E1 ?]];
    destruct (int4_cases q) as [[E2 ?]|[E2 ?]];
    destruct (int4_cases (Product.quantity p)) as [[E3 ?]|[E3 ?]];
    destruct (int4_cases (Z.abs (q - Product.quantity p))) as [[E4 ?]|[E4 ?]];
    destruct (int4_cases (Product.quantity p - q)) as [[E5 ?]|[E5 ?]];
    try lia; rewrite ?E1, ?E2, ?E3, ?E4, ?E5; cbn [andb]; by repeat split.
Qed.

(** X24: [updateStock] does not look at [isActive]: on an inactive product
    (with a non-negative quantity that stays, with the added units, within
    the range of its [INTEGER] column) it adds the stock and writes the
    ledger entry, where [stockIn] answers 404 and writes nothing. *)
Theorem updateStock_ignores_isActive uid pid q why s p :
  uid ≠ "" → pid ≠ "" → 0 < q →
  products s !! pid = Some p → Product.isActive p = false →
  0 <= Product.quantity p → Product.quantity p + q <= 2147483647 →
  let r := run (updateStock
                  (mkUpdateStockRequest (Some uid) (Some pid) (Some q)
                     (Some "STOCK_IN") why)) s in
  reply_status r.1 = 200 ∧
  products r.2 = <[pid := move_stock q p]> (products s) ∧
  inventoryLogs r.2
  = InventoryLog.mk STOCK_IN q (Product.quantity p) (Product.quantity p + q)
      (default "Stock adjustment" why) pid uid None :: inventoryLogs s ∧
  run (stockIn (mkStockRequest (Some uid) (Some pid) (Some q) why None)) s
  = (sendResponse 404 "Product not found or inactive" NoData, s).
Proof.
  intros Hu Hpid Hq Hp Hact Hnn Hmax. cbv zeta.
  rewrite (run_updateStock uid pid q "STOCK_IN" why s p STOCK_IN) by done.
  cbv beta iota zeta. destruct (Z.ltb_spec (Product.quantity p + q) 0); [lia|].
  rewrite row_accepted_stock by (simpl; (done || lia)).
  unfold move_stock. cbn [fst snd reply_status sendReply stock_commit products
    inventoryLogs].
  do 3 (split; [reflexivity|]).
  apply (run_stockIn_unknown uid pid q why None s); try done.
  unfold findActiveProduct. by rewrite Hp, Hact.
Qed.

(** X25: an [ADJUSTMENT] made through [updateStock] escapes the summary:
    for a requested value and a stored quantity within the range of the
    [INTEGER] columns, it sets the quantity of the product to the
    requested value and adds a ledger entry of type [ADJUSTMENT], which
    [getInventorySummary] counts in [logCount] but leaves out of
    [netChange]. *)
Theorem updateStock_adjustment_escapes_netChange uid pid q why s p :
  uid ≠ "" → pid ≠ "" → 0 < q → products s !! pid = Some p →
  q <= 2147483647 → -2147483648 <= Product.quantity p <= 2147483647 →
  let s' := (run (updateStock
                    (mkUpdateStockRequest (Some uid) (Some pid) (Some q)
                       (Some "ADJUSTMENT") why)) s).2 in
  let summary x := (run (getInventorySummary (where_product pid)) x).1 in
  stock_of pid s' = q ∧
  netChange (summary s') = netChange (summary s) ∧
  logCount (summary s') = logCount (summary s) + 1.
Proof.
  intros Hu Hpid Hq Hp Hqmax Hpmax. cbv beta zeta.
  rewrite (run_updateStock uid pid q "ADJUSTMENT" why s p ADJUSTMENT) by done.
  cbv beta iota zeta. destruct (Z.ltb_spec q 0); [lia|].
  rewrite row_accepted_stock by (simpl; (done || lia)). cbn [snd].
  split; [|split].
  - unfold stock_of, stock_commit; simpl. by rewrite lookup_insert_eq.
  - rewrite !netChange_net_of. unfold stock_commit; simpl.
    rewrite where_product_matches. simpl. case_bool_decide; [|done].
    unfold signed_quantity; simpl. lia.
  - rewrite !run_getInventorySummary. cbn [fst logCount].
    unfold groupBy_type. rewrite !foldl_group_counts.
    unfold InventoryLogTypes, stock_commit. cbn [foldr inventoryLogs].
    rewrite !rows_of_type_cons, where_product_matches.
    cbn [InventoryLog.productId InventoryLog.type].
    rewrite bool_decide_eq_true_2 by done. cbn [andb].
    repeat (rewrite bool_decide_eq_false_2 by done).
    rewrite bool_decide_eq_true_2 by done. cbn [length]. lia.
Qed.

(** ** Status changes and the stock *)

(** X26: what a status change does to the stock.  Completing a pending
    sale moves no stock and writes no ledger entry; cancelling it gives
    back the units of every line, with one [RETURN] entry per line, in
    order, tied to the sale and to the user who cancels. *)
Theorem status_change_and_stock env req s sid sale :
  statusCode (run (updateSaleStatus env req) s).1 = 200 →
  us_id req = Some sid → sales s !! sid = Some sale →
  let s' := (run (updateSaleStatus env req) s).2 in
  (us_status req = Some "COMPLETED" →
     Sale.status sale = PENDING ∧
     products s' = products s ∧ inventoryLogs s' = inventoryLogs s) ∧
  (us_status req = Some "CANCELLED" →
     Sale.status sale = PENDING ∧
     (∀ pid, products s' !! pid
             = move_stock (moved pid (sale_lines (Sale.items sale)))
                 <$> products s !! pid) ∧
     ∃ entries,
       inventoryLogs s' = rev entries ++ inventoryLogs s ∧
       Forall2 (entry_of_line RETURN sid (default "" (us_user req)))
         (sale_lines (Sale.items sale)) entries).
Proof.
  intros Hcode Hid Hsale.
  destruct (updateSaleStatus_shape env req s)
    as [(_ & _ & ?)|(uid & id' & status & ex & st & Hu & Hid' & _ & Hst & Hex & Hv & _ & H)];
    [done|].
  assert (id' = sid) as -> by congruence.
  assert (ex = sale) as -> by congruence.
  cbv zeta in *. rewrite Hst, Hu. cbn [default from_option id].
  apply isValidStatusTransition_spec in Hv.
  split.
  - intros [= ->]. cbn [String.eqb orb] in H. simpl in H.
    destruct H as [_ H]. rewrite H. simpl.
    by destruct Hv as [[? _]|[[_ ?]|[_ ?]]].
  - intros [= ->].
    change (String.eqb "CANCELLED" "REFUNDED" || String.eqb "CANCELLED" "CANCELLED")
      with true in H. cbv iota in H.
    fold (sale_lines (Sale.items sale)) in H.
    destruct (run (ledger_loop _ _ _ _) s).1 as [e|[]] eqn:Hl.
    + destruct H as [_ H]. rewrite H in Hcode.
      by apply updateSaleStatus_catch_code in Hcode.
    + destruct H as [_ H]. rewrite H. simpl.
      destruct (ledger_loop_effect RETURN _ _ _ s (or_intror eq_refl) Hl)
        as (Hprods & Hentries).
      split; [by destruct Hv as [[_ ?]|[[? _]|[_ ?]]]|].
      split; [|exact Hentries].
      intros pid. rewrite Hprods. simpl.
      destruct (products s !! pid); simpl; [|done]. do 2 f_equal.
      destruct (moved pid _); done.
Qed.

(** ** Sale numbers *)

Lemma append_split (a a' b b' : string) :
  a +:+ b = a' +:+ b' → String.length a = String.length a' → a = a' ∧ b = b'.
Proof.
  revert a'. induction a as [|c a IH]; intros [|c' a'] H Hlen; try done.
  change (String c (a +:+ b) = String c' (a' +:+ b')) in H.
  injection H as -> H. simpl in Hlen.
  destruct (IH a' H) as [-> ->]; [lia|done].
Qed.

Lemma length_append (a b : string) :
  String.length (a +:+ b) = (String.length a + String.length b)%nat.
Proof.
  induction a as [|c a IH]; [done|].
  change (String.length (String c (a +:+ b)) = S (String.length a + String.length b)).
  simpl. by rewrite IH.
Qed.

Lemma random_suffixes :
  NoDup ((λ r, padStart0 3 (pretty r)) <$> seqZ 0 1000) ∧
  Forall (λ r, String.length (padStart0 3 (pretty r)) = 3%nat) (seqZ 0 1000).
Proof. split; apply (bool_decide_unpack _); by vm_compute. Qed.

Lemma NoDup_fmap_eq {A B} (f : A → B) (l : list A) x y :
  NoDup (f <$> l) → x ∈ l → y ∈ l → f x = f y → x = y.
Proof.
  induction l as [|a l IH]; intros Hnd Hx Hy Hf; [by apply elem_of_nil in Hx|].
  rewrite fmap_cons in Hnd. apply NoDup_cons in Hnd as [Hna Hnd].
  apply elem_of_cons in Hx as [->|Hx]; apply elem_of_cons in Hy as [->|Hy].
  - done.
  - exfalso. apply Hna. rewrite Hf. by apply list_elem_of_fmap_2.
  - exfalso. apply Hna. rewrite <- Hf. by apply list_elem_of_fmap_2.
  - by apply IH.
Qed.

(** X27: sale numbers are faithful to what they are made of: two sale
    numbers are equal only if they were generated in the same millisecond
    with the same random draw (a draw is an integer from 0 to 999). *)
Theorem generateSaleNumber_inj (t r t' r' : Z) :
  0 <= r < 1000 → 0 <= r' < 1000 →
  generateSaleNumber t r = generateSaleNumber t' r' → t = t' ∧ r = r'.
Proof.
  intros Hr Hr' H. unfold generateSaleNumber in H.
  destruct random_suffixes as [Hnd Hlen].
  assert (r ∈ seqZ 0 1000) as Hin by (apply elem_of_seqZ; lia).
  assert (r' ∈ seqZ 0 1000) as Hin' by (apply elem_of_seqZ; lia).
  pose proof (proj1 (Forall_forall _ _) Hlen r Hin) as Hl. 
  pose proof (proj1 (Forall_forall _ _) Hlen r' Hin') as Hl'. simpl in Hl, Hl'.
  apply (inj (String.append "SALE-")) in H.
  assert (String.length (pretty t) = String.length (pretty t')) as Hlt.
  { apply (f_equal String.length) in H. rewrite !length_append, Hl, Hl' in H.
    simpl in H. lia. }
  apply append_split in H as [Ht H]; [|done].
  apply (inj pretty) in Ht. split; [done|].
  apply (inj (String.append "-")) in H.
  by apply (NoDup_fmap_eq (λ r, padStart0 3 (pretty r)) (seqZ 0 1000)).
Qed.



(** ** Audit records and role guards *)

Lemma ledger_loop_audit items saleId userId type s :
  auditLogs s `suffix_of`
  auditLogs (run (ledger_loop items saleId userId type) s).2.
Proof.
  apply (ledger_loop_run (λ s', auditLogs s `suffix_of` auditLogs s')); [done|].
  intros productId quantity s0 s1 _ IH Hw.
  apply ledger_write_inr in Hw as (p & _ & _ & ->). simpl.
  case_match; [by apply suffix_cons_r|done].
Qed.

Lemma ledger_loop_auditSink items saleId userId type s :
  auditSink (run (ledger_loop items saleId userId type) s).2 = auditSink s.
Proof.
  apply (ledger_loop_run (λ s', auditSink s' = auditSink s)); [done|].
  intros productId quantity s0 s1 _ IH Hw.
  by apply ledger_write_inr in Hw as (p & _ & _ & ->).
Qed.

(** X29: with an audit sink that takes every record, every stock
    operation and every status change that succeeds is on the audit
    trail: when the handler answers 200, the newest audit record names
    the user, the action and the resource (the product or the updated
    sale) of the request, and the older records are all still below it. *)
Theorem successful_operation_is_audited op s :
  (∀ logs row, auditSink s logs row = true) →
  (∀ env req, op ≠ CreateSale env req) →
  statusCode (run (handler op) s).1 = success_code op →
  ∃ rest, auditLogs (run (handler op) s).2 = audit_record op :: rest ∧
          auditLogs s `suffix_of` rest.
Proof.
  intros Hsink Hop Hcode.
  destruct op as [req|req|req|env req|env req]; simpl in *.
  - destruct (stockIn_cases req s)
      as [(_ & _ & ?)|(uid & pid & q & p & Hu & Hp & _ & _ & _ & _ & _ & ->)];
      [done|].
    rewrite Hu, Hp. simpl. rewrite Hsink. by eexists.
  - destruct (stockOut_cases req s)
      as [(_ & _ & ?)|(uid & pid & q & p & Hu & Hp & _ & _ & _ & _ & _ & _ & ->)];
      [done|].
    rewrite Hu, Hp. simpl. rewrite Hsink. by eexists.
  - destruct (adjustStock_cases req s)
      as [(_ & _ & ?)|(uid & pid & q & p & Hu & Hp & _ & _ & _ & _ & _ & ->)];
      [done|].
    rewrite Hu, Hp. simpl. rewrite Hsink. by eexists.
  - by destruct (Hop env req).
  - destruct (updateSaleStatus_shape env req s)
      as [(_ & _ & ?)|(uid & sid & status & ex & st & Hu & Hid & _ & _ & _ & _ & _ & H)];
      [done|].
    cbv zeta in H. rewrite Hu, Hid.
    set (loop := if _ || _ then _ else _) in H.
    assert (auditLogs s `suffix_of` auditLogs (run loop s).2 ∧
            auditSink (run loop s).2 = auditSink s) as [Hsuffix Hsame].
    { subst loop.
      destruct (_ || _);
        [split; [apply ledger_loop_audit|apply ledger_loop_auditSink]|done]. }
    destruct (run loop s).1 as [e|[]] eqn:Hl.
    + destruct H as [_ H]. rewrite H in Hcode.
      by apply updateSaleStatus_catch_code in Hcode.
    + destruct H as [_ ->]. simpl. rewrite Hsame, Hsink.
      eexists. split; [done|]. exact Hsuffix.
Qed.

(** X30: the role guards of the routes.  [isAdmin] lets through exactly the
    roles ADMIN and SUPERADMIN, and answers with the same status as
    [restrictTo("ADMIN", "SUPERADMIN")] in every case; whoever passes
    [isSuperAdmin] passes [isAdmin]; and the guard of [POST /sales],
    [restrictTo("STAFF", "ADMIN", "SUPERADMIN")], stops exactly the
    customers and the requests without a user. *)
Theorem role_guards (role : option UserRole) :
  (isAdmin role = Next ↔ role = Some ADMIN ∨ role = Some SUPERADMIN) ∧
  guard_status (isAdmin role)
  = guard_status (restrictTo ["ADMIN"; "SUPERADMIN"] role) ∧
  (isSuperAdmin role = Next → isAdmin role = Next) ∧
  (restrictTo ["STAFF"; "ADMIN"; "SUPERADMIN"] role = Next ↔
   ∃ r, role = Some r ∧ r ≠ CUSTOMER).
Proof.
  destruct role as [[]|]; simpl; repeat split; try done;
    try (intros [|]; done); try (by right); try (by left);
    try (intros (r & ? & ?); congruence); try (intros _; by eexists).
Qed.

(** ** The audit trail is a side channel *)

Lemma blind_run {A} (p : Proc A) s s' :
  blind p → same_tables s s' →
  (run p s).1 = (run p s').1 ∧ same_tables (run p s).2 (run p s').2.
Proof.
  intros Hp. revert s s'. induction Hp as [a|w k Hw Hk IH]; intros s s' Hs.
  - by split.
  - simpl. destruct (Hw s s' Hs) as [Hws Hks]. rewrite <- Hks. by apply IH.
Qed.

Lemma blind_bind {A B} (f : A → Proc B) p :
  blind p → (∀ a, blind (f a)) → blind (proc_bind f p).
Proof.
  intros Hp Hf. induction Hp as [a|w k Hw Hk IH]; simpl; [apply Hf|].
  constructor; [|done].
  intros s s' Hs. destruct (Hw s s' Hs) as [? Hks]. split; [done|].
  by rewrite Hks.
Qed.

Lemma blind_query {A} (f : Store → A) :
  (∀ s s', same_tables s s' → f s = f s') → blind (query f).
Proof.
  intros Hf. constructor; [|intros; constructor].
  intros s s' Hs. split; [done|]. by rewrite (Hf s s' Hs).
Qed.

Lemma blind_commit {A} (tx : Store → Exn + (A * Store)) :
  (∀ s s', same_tables s s' → same_outcome (tx s) (tx s')) → blind (commit tx).
Proof.
  intros Htx. constructor; [|intros; constructor].
  intros s s' Hs. specialize (Htx s s' Hs). unfold same_outcome in Htx.
  destruct (tx s) as [e|[a t]], (tx s') as [e'|[a' t']]; try done.
  - by subst.
  - destruct Htx as [-> ?]. by split.
Qed.

Lemma blind_createAuditLog u a r rid : blind (createAuditLog u a r rid).
Proof.
  constructor; [|intros; constructor].
  intros s s' (H1 & H2 & H3 & H4). split; [|done]. by repeat split.
Qed.

Lemma blind_and_then {A B} (p : Proc (Exn + A)) (f : A → Proc (Exn + B)) :
  blind p → (∀ a, blind (f a)) → blind (and_then p f).
Proof.
  intros Hp Hf. unfold and_then. apply blind_bind; [done|].
  intros [e|a]; [constructor|apply Hf].
Qed.

Lemma blind_try_catch {A} (body : Proc (Exn + A)) (h : Exn → A) :
  blind body → blind (try_catch body h).
Proof. intros H. unfold try_catch. apply blind_bind; [done|]. intros; constructor. Qed.

Lemma findActiveProduct_same id s s' :
  same_tables s s' → findActiveProduct id s = findActiveProduct id s'.
Proof. intros (H & _). unfold findActiveProduct. by rewrite H. Qed.

Lemma findProduct_same id s s' :
  same_tables s s' → findProduct id s = findProduct id s'.
Proof. intros (H & _). unfold findProduct. by rewrite H. Qed.

Lemma write_stock_same id upd l s s' :
  same_tables s s' → same_outcome (write_stock id upd l s) (write_stock id upd l s').
Proof.
  intros (H1 & H2 & H3 & H4).
  unfold write_stock, product_update, inventoryLog_create, same_outcome.
  rewrite <- H1. destruct (products s !! id) as [p|]; [|done].
  destruct (int4 (Product.quantity (upd p))); [|done]. simpl.
  destruct (negb _); [done|].
  destruct (negb _); [done|]. rewrite <- ?H3.
  destruct (InventoryLog.saleId l) as [sid|].
  - destruct (bool_decide _); [|done]. split; [done|].
    repeat split; simpl; congruence.
  - split; [done|]. repeat split; simpl; congruence.
Qed.

Lemma blind_write_stock id upd l : blind (commit (write_stock id upd l)).
Proof. apply blind_commit. intros. by apply write_stock_same. Qed.

Lemma blind_stockIn req : blind (stockIn req).
Proof.
  destruct req as [u pid q r c].
  unfold stockIn. apply blind_try_catch.
  cbn [user productId quantity reason costPrice]. cbv zeta.
  repeat case_match; try by constructor.
  all: apply blind_bind;
    [apply blind_query; intros; by apply findActiveProduct_same|].
  all: intros [product|]; [|by constructor].
  all: apply blind_bind;
    [apply blind_query; intros; by apply findActiveProduct_same|].
  all: intros [locked|]; [|by constructor].
  all: apply blind_and_then; [apply blind_write_stock|].
  all: intros; apply blind_bind; [apply blind_createAuditLog|by constructor].
Qed.

Lemma blind_stockOut req : blind (stockOut req).
Proof.
  destruct req as [u pid q r c].
  unfold stockOut. apply blind_try_catch.
  cbn [user productId quantity reason costPrice]. cbv zeta.
  repeat case_match; try by constructor.
  apply blind_bind;
    [apply blind_query; intros; by apply findActiveProduct_same|].
  intros [product|]; [|by constructor].
  destruct (Product.quantity product <? default 0 q); [by constructor|].
  apply blind_bind;
    [apply blind_query; intros; by apply findActiveProduct_same|].
  intros [locked|]; [|by constructor].
  case_match; [by constructor|].
  apply blind_and_then; [apply blind_write_stock|].
  intros; apply blind_bind; [apply blind_createAuditLog|by constructor].
Qed.

Lemma blind_adjustStock req : blind (adjustStock req).
Proof.
  destruct req as [u pid q r c].
  unfold adjustStock. apply blind_try_catch.
  cbn [user productId quantity reason costPrice]. cbv zeta.
  repeat case_match; try by constructor.
  apply blind_bind;
    [apply blind_query; intros; by apply findActiveProduct_same|].
  intros [product|]; [|by constructor].
  apply blind_bind;
    [apply blind_query; intros; by apply findActiveProduct_same|].
  intros [locked|]; [|by constructor].
  apply blind_and_then; [apply blind_write_stock|].
  intros; apply blind_bind; [apply blind_createAuditLog|by constructor].
Qed.

Lemma blind_createSaleInventoryLog productId quantity saleId userId type :
  blind (createSaleInventoryLog productId quantity saleId userId type).
Proof.
  unfold createSaleInventoryLog.
  apply blind_bind; [apply blind_query; intros; by apply findProduct_same|].
  intros [product|]; [|by constructor]. cbv zeta.
  destruct (if bool_decide (type = SALE) then _ else _) as [e|newStock];
    [by constructor|].
  apply blind_bind; [apply blind_query; intros; by apply findProduct_same|].
  intros [locked|]; [|by constructor].
  case_match; [by constructor|].
  apply blind_and_then; [apply blind_write_stock|].
  intros; apply blind_bind; [apply blind_createAuditLog|by constructor].
Qed.

Lemma blind_ledger_loop items saleId userId type :
  blind (ledger_loop items saleId userId type).
Proof.
  induction items as [|[pid q] items IH]; simpl; [by constructor|].
  apply blind_and_then; [apply blind_createSaleInventoryLog|done].
Qed.

Lemma blind_validate_items items totalAmount saleItemsData :
  blind (validate_items items totalAmount saleItemsData).
Proof.
  revert totalAmount saleItemsData.
  induction items as [|item items IH]; intros t d; [by constructor|].
  cbn [validate_items]. apply blind_bind;
    [apply blind_query; intros; by apply findActiveProduct_same|].
  intros [product|]; [|by constructor].
  case_match; [by constructor|]. apply IH.
Qed.

Lemma blind_createSale env req : blind (createSale env req).
Proof.
  destruct req as [u cid items pm tax disc].
  unfold createSale. apply blind_try_catch.
  cbn [cs_user cs_customerId cs_items cs_paymentMethod cs_taxAmount cs_discount].
  cbv zeta.
  destruct (negb (truthy_str u)); [by constructor|].
  destruct (bool_decide (items = [])); [by constructor|].
  destruct (negb (truthy_str pm)); [by constructor|].
  destruct (existsb _ items); [by constructor|].
  apply blind_bind.
  { destruct (truthy_str cid); [|by constructor].
    apply blind_query. intros s s' (_ & _ & _ & H). by rewrite H. }
  intros []; [by constructor|].
  apply blind_and_then; [apply blind_validate_items|].
  intros [totalAmount saleItemsData].
  apply blind_and_then.
  { apply blind_query. intros s s' (_ & _ & H & _). unfold sale_create.
    by rewrite H. }
  intros sale.
  apply blind_and_then; [apply blind_ledger_loop|]. intros _.
  apply blind_and_then.
  { apply blind_commit. intros s s' (H1 & H2 & H3 & H4). simpl.
    split; [done|]. repeat split; simpl; congruence. }
  intros; apply blind_bind; [apply blind_createAuditLog|by constructor].
Qed.

Lemma sale_update_same id status t s s' :
  same_tables s s' →
  same_outcome (sale_update id status t s) (sale_update id status t s').
Proof.
  intros (H1 & H2 & H3 & H4). unfold sale_update, same_outcome.
  destruct (parse_SaleStatus status); [|done]. rewrite <- H3.
  destruct (sales s !! id); [|done]. split; [done|].
  repeat split; simpl; congruence.
Qed.

Lemma blind_updateSaleStatus env req : blind (updateSaleStatus env req).
Proof.
  destruct req as [u id st r].
  unfold updateSaleStatus. apply blind_try_catch.
  cbn [us_user us_id us_status us_reason]. cbv zeta.
  destruct (negb (truthy_str u)); [by constructor|].
  destruct (_ || _); [by constructor|].
  apply blind_bind.
  { apply blind_query. intros s s' (_ & _ & H & _). by rewrite H. }
  intros [existingSale|]; [|by constructor].
  destruct (negb _); [by constructor|].
  apply blind_and_then.
  { apply blind_query. intros s s' Hs.
    pose proof (sale_update_same (default "" id) (default "" st) (now env) s s' Hs)
      as H. unfold same_outcome in H.
    destruct (sale_update _ _ _ s) as [e|[row t]],
      (sale_update _ _ _ s') as [e'|[row' t']]; try done;
      [by subst|by destruct H as [-> _]]. }
  intros sale.
  apply blind_and_then.
  { destruct (_ || _); [apply blind_ledger_loop|by constructor]. }
  intros _.
  apply blind_and_then.
  { apply blind_commit. intros. by apply sale_update_same. }
  intros; apply blind_bind; [apply blind_createAuditLog|by constructor].
Qed.

Lemma blind_handler op : blind (handler op).
Proof.
  destruct op; simpl.
  - apply blind_stockIn.
  - apply blind_stockOut.
  - apply blind_adjustStock.
  - apply blind_createSale.
  - apply blind_updateSaleStatus.
Qed.

(** X9: the audit trail is a side channel.  What a core operation answers
    and what it does to the products, the ledger, the sales and the
    customers does not depend on the audit records already there nor on
    whether the audit sink takes the new ones: run from two stores with
    the same business tables, an operation gives the same response and
    leaves the same business tables. *)
Theorem audit_sink_never_changes_outcome op s s' :
  same_tables s s' →
  (run (handler op) s).1 = (run (handler op) s').1 ∧
  same_tables (run (handler op) s).2 (run (handler op) s').2.
Proof. intros Hs. apply blind_run; [apply blind_handler|done]. Qed.

(** ** The theorems above at concrete inputs *)

Lemma sales_stay_completed_or_refunded_witness :
  no_pending_or_cancelled sold_store ∧
  (∀ ops, no_pending_or_cancelled (exec_final ops sold_store)) ∧
  (∀ op1 op2 sched,
     no_pending_or_cancelled (run2 sched (handler op1) (handler op2) sold_store).2).
Proof.
  assert (no_pending_or_cancelled sold_store) as H.
  { intros id sale Hs. unfold sold_store in Hs; simpl in Hs.
    apply lookup_singleton_Some in Hs as [_ <-]. by left. }
  split; [exact H|]. exact (sales_stay_completed_or_refunded sold_store H).
Defined.

Lemma recorded_sales_keep_their_content_witness :
  sales sold_store !! "S1" = Some demo_sale ∧
  ∃ new, sales (exec_final refund_ops sold_store) !! "S1" = Some new ∧
         same_sale_record demo_sale new.
Proof.
  assert (sales sold_store !! "S1" = Some demo_sale) as H by (vm_compute; reflexivity).
  split; [exact H|].
  exact (recorded_sales_keep_their_content refund_ops sold_store "S1" demo_sale H).
Defined.

Lemma closed_sale_is_final_witness :
  sales refunded_store !! "S1" = Some refunded_sale ∧
  closed_status (Sale.status refunded_sale) ∧
  sales (exec_final refund_ops refunded_store) !! "S1" = Some refunded_sale ∧
  ∀ env req, us_id req = Some "S1" →
    statusCode (run (updateSaleStatus env req)
                  (exec_final refund_ops refunded_store)).1 ≠ 200 ∧
    (run (updateSaleStatus env req) (exec_final refund_ops refunded_store)).2
    = exec_final refund_ops refunded_store.
Proof.
  assert (sales refunded_store !! "S1" = Some refunded_sale) as H1
    by (vm_compute; reflexivity).
  assert (closed_status (Sale.status refunded_sale)) as H2 by (by right).
  split; [exact H1|]. split; [exact H2|].
  exact (closed_sale_is_final refund_ops refunded_store "S1" refunded_sale H1 H2).
Defined.


Lemma audit_sink_never_changes_outcome_witness :
  same_tables demo_store unaudited_store ∧
  (run (handler (StockOut (stock_request "P" 5))) demo_store).1
  = (run (handler (StockOut (stock_request "P" 5))) unaudited_store).1 ∧
  same_tables (run (handler (StockOut (stock_request "P" 5))) demo_store).2
    (run (handler (StockOut (stock_request "P" 5))) unaudited_store).2.
Proof.
  assert (same_tables demo_store unaudited_store) as H by done.
  split; [exact H|].
  exact (audit_sink_never_changes_outcome (StockOut (stock_request "P" 5))
           demo_store unaudited_store H).
Defined.

Lemma createSale_unknown_product_404_witness :
  well_formed_sale unknown_product_request demo_store ∧
  cs_items unknown_product_request = [line_P1] ++ line_Q1 :: [] ∧
  Forall (line_available demo_store) [line_P1] ∧
  findActiveProduct (item_productId line_Q1) demo_store = None ∧
  run (createSale demo_env unknown_product_request) demo_store
  = (sendResponse 404
       ("Product " +:+ item_productId line_Q1 +:+ " not found or inactive") NoData,
     demo_store).
Proof.
  assert (well_formed_sale unknown_product_request demo_store) as H1.
  { repeat split; try done. repeat constructor; done. }
  assert (Forall (line_available demo_store) [line_P1]) as H2.
  { repeat constructor. exists demo_product. by repeat split. }
  assert (findActiveProduct (item_productId line_Q1) demo_store = None) as H3
    by (vm_compute; reflexivity).
  split; [exact H1|]. split; [reflexivity|]. split; [exact H2|]. split; [exact H3|].
  exact (createSale_unknown_product_404 demo_env unknown_product_request demo_store
           [line_P1] line_Q1 [] H1 eq_refl H2 H3).
Defined.

Lemma createSale_short_stock_refused_witness :
  well_formed_sale short_stock_request demo_store ∧
  cs_items short_stock_request = [] ++ line_P6 :: [] ∧
  Forall (line_available demo_store) [] ∧
  products demo_store !! item_productId line_P6 = Some demo_product ∧
  Product.isActive demo_product = true ∧
  Product.quantity demo_product < item_quantity line_P6 ∧
  run (createSale demo_env short_stock_request) demo_store
  = (sendResponse
       (if includes (short_stock_message demo_product line_P6) "not found"
        then 404 else 400)
       (short_stock_message demo_product line_P6) NoData, demo_store).
Proof.
  assert (well_formed_sale short_stock_request demo_store) as H1.
  { repeat split; try done. repeat constructor; done. }
  assert (products demo_store !! item_productId line_P6 = Some demo_product) as H2
    by (vm_compute; reflexivity).
  assert (Product.quantity demo_product < item_quantity line_P6) as H3
    by (vm_compute; reflexivity).
  split; [exact H1|]. split; [reflexivity|]. split; [constructor|].
  split; [exact H2|]. split; [reflexivity|]. split; [exact H3|].
  exact (createSale_short_stock_refused demo_env short_stock_request demo_store
           [] line_P6 [] demo_product H1 eq_refl (Forall_nil_2 _) H2 eq_refl H3).
Defined.

Lemma sequential_all_or_nothing_witness :
  (∀ env req, UpdateSaleStatus later_env reopen_request = UpdateSaleStatus env req →
     ∀ id sale, sales sold_store !! id = Some sale →
                restock_fits sold_store (Sale.items sale)) ∧
  success (run (handler (UpdateSaleStatus later_env reopen_request)) sold_store).1
  = false ∧
  (run (handler (UpdateSaleStatus later_env reopen_request)) sold_store).2
  = sold_store.
Proof.
  assert (∀ env req,
            UpdateSaleStatus later_env reopen_request = UpdateSaleStatus env req →
            ∀ id sale, sales sold_store !! id = Some sale →
                       restock_fits sold_store (Sale.items sale)) as H1.
  { intros _ _ _ id sale Hs. unfold sold_store in Hs; simpl in Hs.
    apply lookup_singleton_Some in Hs as [_ <-]. exact restock_fits_sold_store. }
  assert (success (run (handler (UpdateSaleStatus later_env reopen_request))
                     sold_store).1 = false) as H2 by (vm_compute; reflexivity).
  split; [exact H1|]. split; [exact H2|].
  exact (sequential_all_or_nothing (UpdateSaleStatus later_env reopen_request)
           sold_store H1 H2).
Defined.

Lemma quantity_nonneg_under_interleaving_witness :
  stock_nonneg stock10 ∧ items_positive stock10 ∧
  stock_nonneg
    (run2 both_read_first (handler (StockOut stockOut7))
       (handler (StockOut stockOut7)) stock10).2.
Proof.
  assert (stock_nonneg stock10) as H1.
  { intros id p Hp. unfold stock10 in Hp; simpl in Hp.
    apply lookup_singleton_Some in Hp as [_ <-]. simpl. lia. }
  assert (items_positive stock10) as H2.
  { intros id sale item Hs. unfold stock10 in Hs; simpl in Hs.
    by rewrite lookup_empty in Hs. }
  split; [exact H1|]. split; [exact H2|].
  exact (quantity_nonneg_under_interleaving (StockOut stockOut7) (StockOut stockOut7)
           both_read_first stock10 H1 H2).
Defined.


Lemma stockOut_succeeds_iff_in_stock_witness :
  "u" ≠ "" ∧ "P" ≠ "" ∧ 0 < 5 ∧
  products demo_store !! "P" = Some demo_product ∧
  Product.isActive demo_product = true ∧
  (5 <= Product.quantity demo_product →
   Product.quantity demo_product <= 2147483647 →
     statusCode (run (stockOut (stock_request "P" 5)) demo_store).1 = 200 ∧
     products (run (stockOut (stock_request "P" 5)) demo_store).2
     = <["P" := move_stock (- 5) demo_product]> (products demo_store) ∧
     inventoryLogs (run (stockOut (stock_request "P" 5)) demo_store).2
     = InventoryLog.mk STOCK_OUT 5 (Product.quantity demo_product)
         (Product.quantity demo_product - 5) (default "Stock out" None) "P" "u" None
       :: inventoryLogs demo_store) ∧
  (Product.quantity demo_product < 5 →
     run (stockOut (stock_request "P" 5)) demo_store
     = (sendResponse 400 "Insufficient stock" NoData, demo_store)).
Proof.
  assert ("u" ≠ "") as H1 by done. assert ("P" ≠ "") as H2 by done.
  assert (0 < 5) as H3 by lia.
  assert (products demo_store !! "P" = Some demo_product) as H4
    by (vm_compute; reflexivity).
  do 3 (split; [done|]). split; [exact H4|]. split; [reflexivity|].
  exact (stockOut_succeeds_iff_in_stock "u" "P" 5 None None demo_store demo_product
           H1 H2 H3 H4 eq_refl).
Defined.

Lemma stockIn_then_stockOut_restores_witness :
  "u" ≠ "" ∧ "P" ≠ "" ∧ 0 < 4 ∧
  products demo_store !! "P" = Some demo_product ∧
  Product.isActive demo_product = true ∧ 0 <= Product.quantity demo_product ∧
  Product.quantity demo_product + 4 <= 2147483647 ∧
  statusCode
    (run (stockOut (stock_request "P" 4))
       (run (stockIn (stock_request "P" 4)) demo_store).2).1 = 200 ∧
  products
    (run (stockOut (stock_request "P" 4))
       (run (stockIn (stock_request "P" 4)) demo_store).2).2
  = products demo_store ∧
  InventoryLog.type <$>
    inventoryLogs
      (run (stockOut (stock_request "P" 4))
         (run (stockIn (stock_request "P" 4)) demo_store).2).2
  = STOCK_OUT :: STOCK_IN :: (InventoryLog.type <$> inventoryLogs demo_store).
Proof.
  assert ("u" ≠ "") as H1 by done. assert ("P" ≠ "") as H2 by done.
  assert (0 < 4) as H3 by lia.
  assert (products demo_store !! "P" = Some demo_product) as H4
    by (vm_compute; reflexivity).
  assert (0 <= Product.quantity demo_product) as H5 by (vm_compute; discriminate).
  assert (Product.quantity demo_product + 4 <= 2147483647) as H6
    by (vm_compute; discriminate).
  do 3 (split; [done|]). split; [exact H4|]. split; [reflexivity|].
  split; [exact H5|]. split; [exact H6|].
  exact (stockIn_then_stockOut_restores "u" "P" 4 None None demo_store demo_product
           H1 H2 H3 H4 eq_refl H5 H6).
Defined.

Lemma serial_stockOuts_never_oversell_witness :
  "u" ≠ "" ∧ "u" ≠ "" ∧ "P" ≠ "" ∧ 0 < 3 ∧ 0 < 3 ∧
  3 <= Product.quantity demo_product ∧
  products demo_store !! "P" = Some demo_product ∧
  Product.isActive demo_product = true ∧
  Product.quantity demo_product <= 2147483647 ∧
  (3 + 3 <= Product.quantity demo_product →
     statusCode
       (run (stockOut (stock_request "P" 3))
          (run (stockOut (stock_request "P" 3)) demo_store).2).1 = 200 ∧
     products
       (run (stockOut (stock_request "P" 3))
          (run (stockOut (stock_request "P" 3)) demo_store).2).2 !! "P"
     = Some (move_stock (- (3 + 3)) demo_product)) ∧
  (Product.quantity demo_product < 3 + 3 →
     run (stockOut (stock_request "P" 3))
       (run (stockOut (stock_request "P" 3)) demo_store).2
     = (sendResponse 400 "Insufficient stock" NoData,
        (run (stockOut (stock_request "P" 3)) demo_store).2)).
Proof.
  assert ("u" ≠ "") as H1 by done. assert ("P" ≠ "") as H2 by done.
  assert (0 < 3) as H3 by lia.
  assert (3 <= Product.quantity demo_product) as H4 by (vm_compute; discriminate).
  assert (products demo_store !! "P" = Some demo_product) as H5
    by (vm_compute; reflexivity).
  assert (Product.quantity demo_product <= 2147483647) as H6
    by (vm_compute; discriminate).
  do 5 (split; [done|]). split; [exact H4|]. split; [exact H5|].
  split; [reflexivity|]. split; [exact H6|].
  exact (serial_stockOuts_never_oversell "u" "u" "P" 3 3 None None demo_store
           demo_product H1 H1 H2 H3 H3 H4 H5 eq_refl H6).
Defined.

Lemma stock_requests_unknown_product_witness :
  "u" ≠ "" ∧ "Q" ≠ "" ∧ 0 < 1 ∧ findActiveProduct "Q" demo_store = None ∧
  run (stockIn (stock_request "Q" 1)) demo_store
  = (sendResponse 404 "Product not found or inactive" NoData, demo_store) ∧
  run (stockOut (stock_request "Q" 1)) demo_store
  = (sendResponse 404 "Product not found or inactive" NoData, demo_store) ∧
  run (adjustStock (stock_request "Q" 1)) demo_store
  = (sendResponse 404 "Product not found or inactive" NoData, demo_store).
Proof.
  assert ("u" ≠ "") as H1 by done. assert ("Q" ≠ "") as H2 by done.
  assert (0 < 1) as H3 by lia.
  assert (findActiveProduct "Q" demo_store = None) as H4 by (vm_compute; reflexivity).
  do 3 (split; [done|]). split; [exact H4|].
  exact (stock_requests_unknown_product "u" "Q" 1 None None demo_store H1 H2 H3 H4).
Defined.

Lemma zero_quantity_requests_witness :
  "u" ≠ "" ∧ "P" ≠ "" ∧
  products demo_store !! "P" = Some demo_product ∧
  Product.isActive demo_product = true ∧
  run (stockIn (stock_request "P" 0)) demo_store
  = (sendResponse 400 "Product ID and quantity are required" NoData, demo_store) ∧
  run (stockOut (stock_request "P" 0)) demo_store
  = (sendResponse 400 "Product ID and quantity are required" NoData, demo_store) ∧
  (Z.abs (Product.quantity demo_product) <= 2147483647 →
   statusCode (run (adjustStock (stock_request "P" 0)) demo_store).1 = 200 ∧
   products (run (adjustStock (stock_request "P" 0)) demo_store).2
   = <["P" := Product.set_quantity 0 demo_product]> (products demo_store)).
Proof.
  assert ("u" ≠ "") as H1 by done. assert ("P" ≠ "") as H2 by done.
  assert (products demo_store !! "P" = Some demo_product) as H3
    by (vm_compute; reflexivity).
  do 2 (split; [done|]). split; [exact H3|]. split; [reflexivity|].
  exact (zero_quantity_requests "u" "P" None None demo_store demo_product
           H1 H2 H3 eq_refl).
Defined.

Lemma updateStock_keeps_quantities_nonneg_witness :
  stock_nonneg stock10 ∧ items_positive stock10 ∧
  stock_nonneg (run (updateStock (update_stock_request "STOCK_OUT" 7)) stock10).2 ∧
  stock_nonneg
    (run2 both_read_first (updateStock (update_stock_request "STOCK_OUT" 7))
       (handler (StockOut stockOut7)) stock10).2 ∧
  stock_nonneg
    (run2 both_read_first (updateStock (update_stock_request "STOCK_OUT" 7))
       (updateStock (update_stock_request "STOCK_OUT" 7)) stock10).2.
Proof.
  assert (stock_nonneg stock10) as H1.
  { intros id p Hp. unfold stock10 in Hp; simpl in Hp.
    apply lookup_singleton_Some in Hp as [_ <-]. simpl. lia. }
  assert (items_positive stock10) as H2.
  { intros id sale item Hs. unfold stock10 in Hs; simpl in Hs.
    by rewrite lookup_empty in Hs. }
  split; [exact H1|]. split; [exact H2|].
  exact (updateStock_keeps_quantities_nonneg (update_stock_request "STOCK_OUT" 7)
           (update_stock_request "STOCK_OUT" 7) (StockOut stockOut7)
           both_read_first stock10 H1 H2).
Defined.

Lemma updateStock_agrees_with_inventory_handlers_witness :
  "u" ≠ "" ∧ "P" ≠ "" ∧ 0 < 2 ∧
  products demo_store !! "P" = Some demo_product ∧
  Product.isActive demo_product = true ∧ 0 <= Product.quantity demo_product ∧
  let upd ty :=
    run (updateStock
           (mkUpdateStockRequest (Some "u") (Some "P") (Some 2) (Some ty)
              (Some "count")))
        demo_store in
  let req := mkStockRequest (Some "u") (Some "P") (Some 2) (Some "count") None in
  (reply_status (upd "STOCK_IN").1 = statusCode (run (stockIn req) demo_store).1 ∧
   same_tables (upd "STOCK_IN").2 (run (stockIn req) demo_store).2) ∧
  (reply_status (upd "STOCK_OUT").1 = statusCode (run (stockOut req) demo_store).1 ∧
   same_tables (upd "STOCK_OUT").2 (run (stockOut req) demo_store).2) ∧
  (reply_status (upd "ADJUSTMENT").1
   = statusCode (run (adjustStock req) demo_store).1 ∧
   products (upd "ADJUSTMENT").2 = products (run (adjustStock req) demo_store).2) ∧
  auditLogs (upd "STOCK_IN").2 = auditLogs demo_store ∧
  auditLogs (upd "STOCK_OUT").2 = auditLogs demo_store ∧
  auditLogs (upd "ADJUSTMENT").2 = auditLogs demo_store.
Proof.
  assert ("u" ≠ "") as H1 by done. assert ("P" ≠ "") as H2 by done.
  assert (0 < 2) as H3 by lia.
  assert (products demo_store !! "P" = Some demo_product) as H4
    by (vm_compute; reflexivity).
  assert (0 <= Product.quantity demo_product) as H5 by (vm_compute; discriminate).
  do 3 (split; [done|]). split; [exact H4|]. split; [reflexivity|].
  split; [exact H5|].
  exact (updateStock_agrees_with_inventory_handlers "u" "P" 2 "count" demo_store
           demo_product H1 H2 H3 H4 eq_refl H5).
Defined.

Lemma updateStock_ignores_isActive_witness :
  "u" ≠ "" ∧ "P" ≠ "" ∧ 0 < 2 ∧
  products inactive_store !! "P" = Some inactive_product ∧
  Product.isActive inactive_product = false ∧
  0 <= Product.quantity inactive_product ∧
  Product.quantity inactive_product + 2 <= 2147483647 ∧
  reply_status (run (updateStock (update_stock_request "STOCK_IN" 2))
                  inactive_store).1 = 200 ∧
  products (run (updateStock (update_stock_request "STOCK_IN" 2)) inactive_store).2
  = <["P" := move_stock 2 inactive_product]> (products inactive_store) ∧
  inventoryLogs (run (updateStock (update_stock_request "STOCK_IN" 2))
                   inactive_store).2
  = InventoryLog.mk STOCK_IN 2 (Product.quantity inactive_product)
      (Product.quantity inactive_product + 2) (default "Stock adjustment" None)
      "P" "u" None :: inventoryLogs inactive_store ∧
  run (stockIn (mkStockRequest (Some "u") (Some "P") (Some 2) None None))
    inactive_store
  = (sendResponse 404 "Product not found or inactive" NoData, inactive_store).
Proof.
  assert ("u" ≠ "") as H1 by done. assert ("P" ≠ "") as H2 by done.
  assert (0 < 2) as H3 by lia.
  assert (products inactive_store !! "P" = Some inactive_product) as H4
    by (vm_compute; reflexivity).
  assert (0 <= Product.quantity inactive_product) as H5
    by (vm_compute; discriminate).
  assert (Product.quantity inactive_product + 2 <= 2147483647) as H6
    by (vm_compute; discriminate).
  do 3 (split; [done|]). split; [exact H4|]. split; [reflexivity|].
  split; [exact H5|]. split; [exact H6|].
  exact (updateStock_ignores_isActive "u" "P" 2 None inactive_store
           inactive_product H1 H2 H3 H4 eq_refl H5 H6).
Defined.

Lemma updateStock_adjustment_escapes_netChange_witness :
  "u" ≠ "" ∧ "P" ≠ "" ∧ 0 < 9 ∧
  products demo_store !! "P" = Some demo_product ∧
  9 <= 2147483647 ∧
  -2147483648 <= Product.quantity demo_product <= 2147483647 ∧
  let s' := (run (updateStock (update_stock_request "ADJUSTMENT" 9)) demo_store).2 in
  let summary x := (run (getInventorySummary (where_product "P")) x).1 in
  stock_of "P" s' = 9 ∧
  netChange (summary s') = netChange (summary demo_store) ∧
  logCount (summary s') = logCount (summary demo_store) + 1.
Proof.
  assert ("u" ≠ "") as H1 by done. assert ("P" ≠ "") as H2 by done.
  assert (0 < 9) as H3 by lia.
  assert (products demo_store !! "P" = Some demo_product) as H4
    by (vm_compute; reflexivity).
  assert (9 <= 2147483647) as H5 by lia.
  assert (-2147483648 <= Product.quantity demo_product <= 2147483647) as H6
    by (vm_compute; split; discriminate).
  do 3 (split; [done|]). split; [exact H4|]. split; [exact H5|].
  split; [exact H6|].
  exact (updateStock_adjustment_escapes_netChange "u" "P" 9 None demo_store
           demo_product H1 H2 H3 H4 H5 H6).
Defined.

Lemma status_change_and_stock_witness :
  statusCode (run (updateSaleStatus later_env cancel_request) pending_store).1 = 200 ∧
  us_id cancel_request = Some "S9" ∧
  sales pending_store !! "S9" = Some pending_sale ∧
  let s' := (run (updateSaleStatus later_env cancel_request) pending_store).2 in
  (us_status cancel_request = Some "COMPLETED" →
     Sale.status pending_sale = PENDING ∧
     products s' = products pending_store ∧
     inventoryLogs s' = inventoryLogs pending_store) ∧
  (us_status cancel_request = Some "CANCELLED" →
     Sale.status pending_sale = PENDING ∧
     (∀ pid, products s' !! pid
             = move_stock (moved pid (sale_lines (Sale.items pending_sale)))
                 <$> products pending_store !! pid) ∧
     ∃ entries,
       inventoryLogs s' = rev entries ++ inventoryLogs pending_store ∧
       Forall2 (entry_of_line RETURN "S9" (default "" (us_user cancel_request)))
         (sale_lines (Sale.items pending_sale)) entries).
Proof.
  assert (statusCode (run (updateSaleStatus later_env cancel_request)
                        pending_store).1 = 200) as H1 by (vm_compute; reflexivity).
  assert (sales pending_store !! "S9" = Some pending_sale) as H2
    by (vm_compute; reflexivity).
  split; [exact H1|]. split; [reflexivity|]. split; [exact H2|].
  exact (status_change_and_stock later_env cancel_request pending_store "S9"
           pending_sale H1 eq_refl H2).
Defined.

Lemma generateSaleNumber_inj_witness :
  0 <= 7 < 1000 ∧ 0 <= 7 < 1000 ∧
  generateSaleNumber 1700000000000 7 = generateSaleNumber 1700000000000 7 ∧
  1700000000000 = 1700000000000 ∧ 7 = 7.
Proof.
  assert (0 <= 7 < 1000) as H by lia.
  split; [exact H|]. split; [exact H|]. split; [reflexivity|].
  exact (generateSaleNumber_inj 1700000000000 7 1700000000000 7 H H eq_refl).
Defined.


(** In that request the one unit is in stock and the identifier is free:
    what the staged insert meets is the index on the sale number. *)
Example taken_number_meets_the_index :
  (run (validate_items (cs_items one_unit_request) 0%Q []) sold_store).1
  = inr ((999 # 100)%Q, [SaleItem.mk "P" 1 (999 # 100) (999 # 100)]) ∧
  sale_create "S2" (generateSaleNumber (now same_draw_env) (random same_draw_env))
    (999 # 100) 0%Q 0%Q (999 # 100) "CASH" (now same_draw_env) "u" None
    [SaleItem.mk "P" 1 (999 # 100) (999 # 100)] sold_store
  = inl (P2002 "saleNumber").
Proof. split; vm_compute; reflexivity. Qed.

Lemma successful_operation_is_audited_witness :
  (∀ logs row, auditSink demo_store logs row = true) ∧
  (∀ env req, StockOut (stock_request "P" 5) ≠ CreateSale env req) ∧
  statusCode (run (handler (StockOut (stock_request "P" 5))) demo_store).1
  = success_code (StockOut (stock_request "P" 5)) ∧
  ∃ rest,
    auditLogs (run (handler (StockOut (stock_request "P" 5))) demo_store).2
    = audit_record (StockOut (stock_request "P" 5)) :: rest ∧
    auditLogs demo_store `suffix_of` rest.
Proof.
  assert (∀ logs row, auditSink demo_store logs row = true) as H1 by done.
  assert (∀ env req, StockOut (stock_request "P" 5) ≠ CreateSale env req) as H2
    by done.
  assert (statusCode (run (handler (StockOut (stock_request "P" 5))) demo_store).1
          = success_code (StockOut (stock_request "P" 5))) as H3
    by (vm_compute; reflexivity).
  split; [exact H1|]. split; [exact H2|]. split; [exact H3|].
  exact (successful_operation_is_audited (StockOut (stock_request "P" 5))
           demo_store H1 H2 H3).
Defined.

Lemma page_of_window_witness :
  (∀ offset, skip (pageNum (Some 2)) (limitNum (Some 20)) = Some offset →
             offset <= 2147483647) ∧
  (page_of rows45 (Some 2) (Some 20) = None ↔ Some 2 = None ∨ Some 20 = None) ∧
  ∀ r, page_of rows45 (Some 2) (Some 20) = Some r →
    let after := (currentPage r.2 - 1) * limit r.2 + limit r.2 in
    1 <= currentPage r.2 ∧ 1 <= limit r.2 <= 100 ∧
    Z.of_nat (length r.1) <= limit r.2 ∧
    (hasNext r.2 = true ↔ List.skipn (Z.to_nat after) rows45 ≠ []) ∧
    (hasPrev r.2 = true ↔ 1 < currentPage r.2) ∧
    (r.1 = [] ↔ totalPages r.2 < currentPage r.2).
Proof.
  assert (∀ offset, skip (pageNum (Some 2)) (limitNum (Some 20)) = Some offset →
                    offset <= 2147483647) as H.
  { intros offset [= <-]. vm_compute. discriminate. }
  split; [exact H|].
  exact (page_of_window rows45 (Some 2) (Some 20) H).
Defined.

Lemma pages_partition_rows_witness :
  Z.of_nat (length rows45) <= 2147483647 ∧
  ∃ first,
    page_of rows45 (Some 1) (Some 20) = Some first ∧
    let pages := seq 1 (Z.to_nat (totalPages first.2)) in
    Forall (λ k, is_Some (page_of rows45 (Some (Z.of_nat k)) (Some 20))) pages ∧
    concat (map (λ k, from_option fst []
                        (page_of rows45 (Some (Z.of_nat k)) (Some 20))) pages)
    = rows45.
Proof.
  assert (Z.of_nat (length rows45) <= 2147483647) as H
    by (vm_compute; discriminate).
  split; [exact H|].
  exact (pages_partition_rows rows45 20 H).
Defined.
